(** * Habit tracker: a shallow embedding of [habit_tracker.py]

    The development follows the Python source function by function.
    Completions are the values the program really stores: [datetime.date]
    objects (written by [from_dict] and [generate_example_data]) and
    [datetime.datetime] objects (written by [complete]).  Exceptions are
    explicit: every operation that can raise returns a [result]. *)

From Stdlib Require Import ZArith List String Ascii Bool Lia Permutation Sorted QArith.
From Stdlib Require Import DecimalString.
Import ListNotations.
Open Scope Z_scope.

(** ** The Gregorian calendar of the [datetime] module *)

Module Calendar.

(** A [datetime.date]: the three fields the object stores. *)
Record date := mkdate { year : Z; month : Z; day : Z }.

(** A naive [datetime.datetime]. *)
Record datetime := mkdatetime {
  dt_date : date;           (* what [.date()] returns *)
  hour : Z; minute : Z; second : Z; microsecond : Z }.

(** A [datetime.timedelta], always kept normalised by [new_delta]. *)
Record timedelta := mktimedelta { days : Z; seconds : Z; microseconds : Z }.

Definition _is_leap (y : Z) : bool :=
  (y mod 4 =? 0) && (negb (y mod 100 =? 0) || (y mod 400 =? 0)).

Definition _days_before_year (y : Z) : Z :=
  let y := y - 1 in y * 365 + y / 4 - y / 100 + y / 400.

Definition _DAYS_IN_MONTH (m : Z) : Z :=
  match m with
  | 1 => 31 | 2 => 28 | 3 => 31 | 4 => 30 | 5 => 31 | 6 => 30
  | 7 => 31 | 8 => 31 | 9 => 30 | 10 => 31 | 11 => 30 | 12 => 31
  | _ => 0
  end.

Definition _DAYS_BEFORE_MONTH (m : Z) : Z :=
  match m with
  | 1 => 0 | 2 => 31 | 3 => 59 | 4 => 90 | 5 => 120 | 6 => 151
  | 7 => 181 | 8 => 212 | 9 => 243 | 10 => 273 | 11 => 304 | 12 => 334
  | _ => 0
  end.

Definition _days_in_month (y m : Z) : Z :=
  if (m =? 2) && _is_leap y then 29 else _DAYS_IN_MONTH m.

Definition _days_before_month (y m : Z) : Z :=
  _DAYS_BEFORE_MONTH m + (if (2 <? m) && _is_leap y then 1 else 0).

Definition _ymd2ord (y m d : Z) : Z :=
  _days_before_year y + _days_before_month y m + d.

Definition toordinal (d : date) : Z := _ymd2ord (year d) (month d) (day d).

(** The inverse of [_ymd2ord], as [date.fromordinal] computes it. *)
Definition _ord2ymd (n : Z) : Z * Z * Z :=
  let n := n - 1 in
  let n400 := n / 146097 in let n := n mod 146097 in
  let year := n400 * 400 + 1 in
  let n100 := n / 36524 in let n := n mod 36524 in
  let n4 := n / 1461 in let n := n mod 1461 in
  let n1 := n / 365 in let n := n mod 365 in
  let year := year + n100 * 100 + n4 * 4 + n1 in
  if (n1 =? 4) || (n100 =? 4) then (year - 1, 12, 31)
  else
    let leapyear := (n1 =? 3) && (negb (n4 =? 24) || (n100 =? 3)) in
    let month := Z.shiftr (n + 50) 5 in
    let preceding :=
      _DAYS_BEFORE_MONTH month + (if (2 <? month) && leapyear then 1 else 0) in
    if n <? preceding then
      let month := month - 1 in
      let preceding :=
        preceding
        - (_DAYS_IN_MONTH month + (if (month =? 2) && leapyear then 1 else 0)) in
      (year, month, n - preceding + 1)
    else (year, month, n - preceding + 1).

Definition fromordinal (n : Z) : date :=
  let '(y, m, d) := _ord2ymd n in mkdate y m d.

(** [d + timedelta(days=k)], within the range of [date]. *)
Definition date_add_days (d : date) (k : Z) : date :=
  fromordinal (toordinal d + k).

(** The range check of the [date] constructor: every [date] object the
    program holds satisfies it. *)
Definition valid_dateb (d : date) : bool :=
  (1 <=? year d) && (year d <=? 9999) &&
  (1 <=? month d) && (month d <=? 12) &&
  (1 <=? day d) && (day d <=? _days_in_month (year d) (month d)).

Definition valid_date (d : date) : Prop := valid_dateb d = true.

Definition valid_timeb (t : datetime) : bool :=
  (0 <=? hour t) && (hour t <? 24) &&
  (0 <=? minute t) && (minute t <? 60) &&
  (0 <=? second t) && (second t <? 60) &&
  (0 <=? microsecond t) && (microsecond t <? 1000000).

Definition valid_datetimeb (t : datetime) : bool :=
  valid_dateb (dt_date t) && valid_timeb t.

Definition valid_datetime (t : datetime) : Prop := valid_datetimeb t = true.

(** [new_delta(days, seconds, us, normalize=1)]: carry microseconds into
    seconds and seconds into days, with floor division. *)
Definition new_delta (d s us : Z) : timedelta :=
  let s := s + us / 1000000 in
  let us := us mod 1000000 in
  let d := d + s / 86400 in
  let s := s mod 86400 in
  mktimedelta d s us.

(** [timedelta(days=n)]. *)
Definition timedelta_days (n : Z) : timedelta := new_delta n 0 0.

(** [date - date]. *)
Definition date_sub (a b : date) : timedelta :=
  new_delta (toordinal a - toordinal b) 0 0.

(** [datetime - datetime], both naive. *)
Definition datetime_sub (a b : datetime) : timedelta :=
  new_delta (toordinal (dt_date a) - toordinal (dt_date b))
            ((hour a - hour b) * 3600 + (minute a - minute b) * 60
             + (second a - second b))
            (microsecond a - microsecond b).

(** Objects of the module compare field by field, most significant first. *)
Fixpoint lex_lt (a b : list Z) : bool :=
  match a, b with
  | x :: a', y :: b' => (x <? y) || ((x =? y) && lex_lt a' b')
  | [], _ :: _ => true
  | _, [] => false
  end.

Definition date_key (d : date) : list Z := [year d; month d; day d].

Definition datetime_key (t : datetime) : list Z :=
  date_key (dt_date t) ++ [hour t; minute t; second t; microsecond t].

Definition timedelta_key (t : timedelta) : list Z :=
  [days t; seconds t; microseconds t].

Definition date_lt (a b : date) : bool := lex_lt (date_key a) (date_key b).

Definition datetime_lt (a b : datetime) : bool :=
  lex_lt (datetime_key a) (datetime_key b).

(** [a <= b] on timedeltas. *)
Definition timedelta_le (a b : timedelta) : bool :=
  negb (lex_lt (timedelta_key b) (timedelta_key a)).

(** [a == b] on dates. *)
Definition date_eqb (a b : date) : bool :=
  (year a =? year b) && (month a =? month b) && (day a =? day b).

End Calendar.
Import Calendar.

(** ** Exceptions and results *)

Inductive value_error :=
| UnknownPeriod (msg : string)   (* raised by [track_streaks] *)
| EmptySequence                  (* [max()] of an empty sequence *)
| BadDateString.                 (* raised by [strptime] *)

Inductive exn :=
| ValueError (why : value_error)
| TypeError        (* ordering a [date] against a [datetime] *)
| AttributeError   (* [.date()] on a [datetime.date] *)
| IndexError.      (* [l[0]] on an empty list *)

Inductive result (A : Type) :=
| Ok (a : A)
| Raise (e : exn).
Arguments Ok {A} a.
Arguments Raise {A} e.

Definition rbind {A B} (r : result A) (k : A -> result B) : result B :=
  match r with
  | Ok a => k a
  | Raise e => Raise e
  end.

Declare Scope py_scope.
Delimit Scope py_scope with py.
Notation "'let*' x ':=' r 'in' k" := (rbind r (fun x => k))
  (at level 10, x name, r at level 100, k at level 200) : py_scope.
Open Scope py_scope.

(** ** Completions *)

(** An element of [Habit.completions]. *)
Inductive completion :=
| CDate (d : date)
| CDateTime (t : datetime).

Definition valid_completionb (c : completion) : bool :=
  match c with
  | CDate d => valid_dateb d
  | CDateTime t => valid_datetimeb t
  end.

(** [a < b]: a [date] and a [datetime] do not order. *)
Definition completion_lt (a b : completion) : result bool :=
  match a, b with
  | CDate x, CDate y => Ok (date_lt x y)
  | CDateTime x, CDateTime y => Ok (datetime_lt x y)
  | _, _ => Raise TypeError
  end.

(** [a - b]. *)
Definition completion_sub (a b : completion) : result timedelta :=
  match a, b with
  | CDate x, CDate y => Ok (date_sub x y)
  | CDateTime x, CDateTime y => Ok (datetime_sub x y)
  | _, _ => Raise TypeError
  end.

(** [sorted(l)] and [l.sort()]: a stable sort that uses [<] only and
    raises as soon as a comparison raises.  A one-element list is returned
    without any comparison. *)
Fixpoint insort (x : completion) (l : list completion) : result (list completion) :=
  match l with
  | [] => Ok [x]
  | y :: l' =>
      let* b := completion_lt y x in
      if b then (let* r := insort x l' in Ok (y :: r))
      else Ok (x :: y :: l')
  end.

Fixpoint sorted (l : list completion) : result (list completion) :=
  match l with
  | [] => Ok []
  | x :: l' => let* s := sorted l' in insort x s
  end.

Definition is_date (c : completion) : bool :=
  match c with CDate _ => true | CDateTime _ => false end.

Definition is_datetime (c : completion) : bool := negb (is_date c).

(** All elements are [date]s, or all are [datetime]s. *)
Definition homogeneous (l : list completion) : bool :=
  forallb is_date l || forallb is_datetime l.

(** ** Strings: [str(date)], [str(datetime)] and [strptime(s, "%Y-%m-%d")] *)

Module Text.

Definition digit_char (n : Z) : ascii := ascii_of_N (Z.to_N (48 + n mod 10)).

(** ["%0<width>d" % n] for [0 <= n < 10 ^ width], the only use made of it. *)
Fixpoint zero_padded (width : nat) (n : Z) : string :=
  match width with
  | O => EmptyString
  | S w => zero_padded w (n / 10) ++ String (digit_char n) EmptyString
  end.

(** [str(d)] for a [date]: [isoformat()]. *)
Definition str_date (d : date) : string :=
  zero_padded 4 (year d) ++ "-" ++ zero_padded 2 (month d) ++ "-"
  ++ zero_padded 2 (day d).

(** [str(t)] for a naive [datetime]: [isoformat(sep=' ')], the
    microseconds only when they are not zero. *)
Definition str_datetime (t : datetime) : string :=
  str_date (dt_date t) ++ " " ++ zero_padded 2 (hour t) ++ ":"
  ++ zero_padded 2 (minute t) ++ ":" ++ zero_padded 2 (second t)
  ++ (if microsecond t =? 0 then EmptyString
      else "." ++ zero_padded 6 (microsecond t)).

(** The regular expression [strptime] builds from ["%Y-%m-%d"]:
    [(\d\d\d\d)-(1[0-2]|0[1-9]|[1-9])-(3[01]|[12]\d|0[1-9]|[1-9]| [1-9])],
    matched at the start of the string, alternatives tried in order.
    The model is of ASCII text, where [\d] is [[0-9]]; that is all
    [save_to_file] writes.  Python's [\d] and [int] also take the decimal
    digits of other scripts, which this model does not read: a statement
    about strings that were not written by [str] is made for ASCII text. *)
Definition parser (A : Type) := string -> option (A * string).

Definition in_range (lo hi c : ascii) : bool :=
  (N_of_ascii lo <=? N_of_ascii c)%N && (N_of_ascii c <=? N_of_ascii hi)%N.

Definition digit_value (c : ascii) : Z := Z.of_N (N_of_ascii c) - 48.

(** One character of the class [[lo-hi]], read as a digit. *)
Definition class (lo hi : ascii) : parser Z := fun s =>
  match s with
  | String c rest => if in_range lo hi c then Some (digit_value c, rest) else None
  | EmptyString => None
  end.

(** One literal character. *)
Definition lit (a : ascii) : parser unit := fun s =>
  match s with
  | String c rest => if (c =? a)%char then Some (tt, rest) else None
  | EmptyString => None
  end.

Definition pbind {A B} (p : parser A) (k : A -> parser B) : parser B := fun s =>
  match p s with
  | Some (a, rest) => k a rest
  | None => None
  end.

Definition pret {A} (a : A) : parser A := fun s => Some (a, s).

Definition orelse {A} (p q : parser A) : parser A := fun s =>
  match p s with
  | Some r => Some r
  | None => q s
  end.

(** Two characters read as a two-digit number. *)
Definition two (p q : parser Z) : parser Z :=
  pbind p (fun a => pbind q (fun b => pret (10 * a + b))).

Definition digit : parser Z := class "0" "9".

Definition directive_Y : parser Z :=
  pbind digit (fun a => pbind digit (fun b => pbind digit (fun c =>
  pbind digit (fun d => pret (1000 * a + 100 * b + 10 * c + d))))).

Definition directive_m : parser Z :=
  orelse (two (class "1" "1") (class "0" "2"))
 (orelse (two (class "0" "0") (class "1" "9"))
         (class "1" "9")).

Definition directive_d : parser Z :=
  orelse (two (class "3" "3") (class "0" "1"))
 (orelse (two (class "1" "2") digit)
 (orelse (two (class "0" "0") (class "1" "9"))
 (orelse (class "1" "9")
         (pbind (lit " ") (fun _ => class "1" "9"))))).

Definition format_regex : parser date :=
  pbind directive_Y (fun y => pbind (lit "-") (fun _ =>
  pbind directive_m (fun m => pbind (lit "-") (fun _ =>
  pbind directive_d (fun d => pret (mkdate y m d)))))).

(** [datetime.datetime.strptime(s, "%Y-%m-%d")]: no match, unconverted
    data after the match, and a date out of range all raise [ValueError]. *)
Definition strptime (s : string) : result datetime :=
  match format_regex s with
  | None => Raise (ValueError BadDateString)
  | Some (d, rest) =>
      match rest with
      | EmptyString =>
          if valid_dateb d then Ok (mkdatetime d 0 0 0 0)
          else Raise (ValueError BadDateString)
      | String _ _ => Raise (ValueError BadDateString)
      end
  end.

End Text.
Import Text.

(** [str(completion)]. *)
Definition str_completion (c : completion) : string :=
  match c with
  | CDate d => str_date d
  | CDateTime t => str_datetime t
  end.

(** ** [class Habit] *)

Record Habit := mkHabit {
  name : string;
  period : string;
  creation_time : string;
  completions : list completion }.

Definition with_completions (self : Habit) (l : list completion) : Habit :=
  mkHabit (name self) (period self) (creation_time self) l.

(** [Habit(name, period)], the clock reading [now] made explicit. *)
Definition Habit_init (now : datetime) (nm p : string) : Habit :=
  mkHabit nm p (str_datetime now) [].

(** Methods run on the object [self] and may mutate it or raise: a state
    and error monad over [Habit]. *)
Definition M (A : Type) : Type := Habit -> result (A * Habit).

Definition ret {A} (a : A) : M A := fun self => Ok (a, self).

Definition bind {A B} (m : M A) (k : A -> M B) : M B := fun self =>
  match m self with
  | Ok (a, self') => k a self'
  | Raise e => Raise e
  end.

Definition raise {A} (e : exn) : M A := fun _ => Raise e.

Definition lift {A} (r : result A) : M A := fun self =>
  match r with
  | Ok a => Ok (a, self)
  | Raise e => Raise e
  end.

Definition get_completions : M (list completion) := fun self =>
  Ok (completions self, self).

Definition set_completions (l : list completion) : M unit := fun self =>
  Ok (tt, with_completions self l).

Definition get_period : M string := fun self => Ok (period self, self).

Notation "x <- m ;; k" := (bind m (fun x => k))
  (at level 61, m at next level, right associativity) : py_scope.

(** The returned value, the final state dropped. *)
Definition value {A} (r : result (A * Habit)) : result A :=
  match r with
  | Ok (a, _) => Ok a
  | Raise e => Raise e
  end.

(** The loop shared by both partitioners,
    [for i in range(1, len(dates))] with [previous_date = dates[i - 1]] and
    [current_date = dates[i]]; the two sources differ in [threshold] only.
    It returns [streaks] and [current_streak] as they are after the loop. *)
Fixpoint streak_loop (threshold : Z) (previous_date : completion)
    (rest : list completion) (streaks : list (list completion))
    (current_streak : list completion)
  : result (list (list completion) * list completion) :=
  match rest with
  | [] => Ok (streaks, current_streak)
  | current_date :: rest' =>
      let* delta := completion_sub current_date previous_date in
      if days delta <=? threshold
      then streak_loop threshold current_date rest' streaks
             (current_streak ++ [current_date])
      else streak_loop threshold current_date rest'
             (streaks ++ [current_streak]) [current_date]
  end.

(** Everything after the sort, on the list [dates] being scanned. *)
Definition partition (threshold : Z) (dates : list completion)
  : result (list (list completion)) :=
  match dates with
  | [] => Raise IndexError
  | first :: rest =>
      let* r := streak_loop threshold first rest [] [first] in
      Ok (fst r ++ [snd r])
  end.

Definition _track_daily_streaks : M (list (list completion)) :=
  cs <- get_completions ;;
  match cs with
  | [] => ret []
  | _ :: _ =>
      dates <- lift (sorted cs) ;;
      lift (partition 1 dates)
  end.

Definition _track_weekly_streaks : M (list (list completion)) :=
  cs <- get_completions ;;
  match cs with
  | [] => ret []
  | _ :: _ =>
      s <- lift (sorted cs) ;;
      _ <- set_completions s ;;          (* [self.completions.sort()] *)
      cs' <- get_completions ;;
      lift (partition 7 cs')
  end.

Definition track_streaks : M (list (list completion)) :=
  p <- get_period ;;
  if (p =? "daily")%string then _track_daily_streaks
  else if (p =? "weekly")%string then _track_weekly_streaks
  else raise (ValueError (UnknownPeriod ("Unknown habit period: " ++ p))).

Definition calculate_streak_duration (streak : list completion) : result Z :=
  match streak with
  | [] => Ok 0
  | streak_start :: _ =>
      let streak_end := last streak streak_start in
      let* delta := completion_sub streak_end streak_start in
      Ok (days delta + 1)
  end.

(** [sum(key(x) for x in l)], from the left. *)
Fixpoint py_sum {A} (key : A -> result Z) (acc : Z) (l : list A) : result Z :=
  match l with
  | [] => Ok acc
  | x :: l' => let* k := key x in py_sum key (acc + k) l'
  end.

(** [max(l, key=key)] and [min(l, key=key)]: the first element is kept
    until a strictly better key is met. *)
Fixpoint py_best {A} (better : Z -> Z -> bool) (key : A -> result Z)
    (best : A) (best_key : Z) (l : list A) : result A :=
  match l with
  | [] => Ok best
  | x :: l' =>
      let* k := key x in
      if better k best_key then py_best better key x k l'
      else py_best better key best best_key l'
  end.

Definition py_extremum {A} (better : Z -> Z -> bool) (key : A -> result Z)
    (default : option A) (l : list A) : result A :=
  match l with
  | [] =>
      match default with
      | Some d => Ok d
      | None => Raise (ValueError EmptySequence)
      end
  | x :: l' => let* k := key x in py_best better key x k l'
  end.

(** [key > best_key] for [max], [key < best_key] for [min]. *)
Definition is_greater (k best_key : Z) : bool := best_key <? k.
Definition is_smaller (k best_key : Z) : bool := k <? best_key.

Definition py_max {A} := @py_extremum A is_greater.
Definition py_min {A} := @py_extremum A is_smaller.

(** The quotient is kept exact; Python rounds it to the nearest float, and
    returns the integer [0] when there is no streak. *)
Definition calculate_average_streak_duration : M Q :=
  streaks <- track_streaks ;;
  total_streak_duration <- lift (py_sum calculate_streak_duration 0 streaks) ;;
  let total_streaks := Z.of_nat (List.length streaks) in
  ret (if 0 <? total_streaks
       then Qmake total_streak_duration (Z.to_pos total_streaks)
       else 0%Q).

Definition find_longest_streak : M Z :=
  streaks <- track_streaks ;;
  longest_streak <- lift (py_max calculate_streak_duration (Some []) streaks) ;;
  lift (calculate_streak_duration longest_streak).

Definition find_shortest_streak : M Z :=
  streaks <- track_streaks ;;
  shortest_streak <- lift (py_min calculate_streak_duration (Some []) streaks) ;;
  lift (calculate_streak_duration shortest_streak).

(** [any(now.date() == completion.date() for completion in completions)]:
    stops at the first hit; a [datetime.date] has no [date] method. *)
Fixpoint any_completed_on (today : date) (l : list completion) : result bool :=
  match l with
  | [] => Ok false
  | CDate _ :: _ => Raise AttributeError
  | CDateTime t :: l' =>
      if date_eqb today (dt_date t) then Ok true
      else any_completed_on today l'
  end.

(** [complete()], with the clock reading [now]; the value is what it prints. *)
Definition complete (now : datetime) : M (list string) :=
  cs <- get_completions ;;
  already <- lift (any_completed_on (dt_date now) cs) ;;
  if already then ret ["Habit already completed for today."%string]
  else (_ <- set_completions (cs ++ [CDateTime now]) ;; ret []).

(** One loop of [generate_example_data]: [count] iterations from [i] on,
    [step] days apart; [draw n] is the outcome of the [n]-th call of
    [random.choice([True, False])]. *)
Fixpoint example_loop (reference_date : date) (step : Z) (draw : nat -> bool)
    (i count : nat) (cs : list completion) : list completion :=
  match count with
  | O => cs
  | S count' =>
      let cs :=
        if draw i
        then cs ++ [CDate (date_add_days reference_date (step * Z.of_nat i))]
        else cs in
      example_loop reference_date step draw (S i) count' cs
  end.

Definition generate_example_data (draw : nat -> bool) : M unit :=
  let reference_date := mkdate 2023 5 1 in
  p <- get_period ;;
  cs <- get_completions ;;
  if (p =? "daily")%string
  then set_completions (example_loop reference_date 1 draw 0 28 cs)
  else if (p =? "weekly")%string
  then set_completions (example_loop reference_date 7 draw 0 4 cs)
  else ret tt.

(** The loop of [get_streak]; it returns [streak] and [max_streak]. *)
Fixpoint get_streak_loop (gap : timedelta) (previous : completion)
    (rest : list completion) (streak max_streak : Z) : result (Z * Z) :=
  match rest with
  | [] => Ok (streak, max_streak)
  | current :: rest' =>
      let* delta := completion_sub current previous in
      if timedelta_le delta gap
      then get_streak_loop gap current rest' (streak + 1) max_streak
      else get_streak_loop gap current rest' 0 (Z.max max_streak streak)
  end.

Definition gap_of (p : string) : timedelta :=
  timedelta_days (if (p =? "daily")%string then 1 else 7).

(** [get_streak] works on a copy of the list: it reads [self] only. *)
Definition get_streak (self : Habit) : result Z :=
  let* dates := sorted (completions self) in
  let gap := gap_of (period self) in
  let* r :=
    match dates with
    | [] => Ok (0, 0)
    | first :: rest => get_streak_loop gap first rest 0 0
    end in
  Ok (Z.max (snd r) (fst r)).

(** The dictionary [save_to_file] writes for one habit and [from_dict]
    reads; [json.dump] and [json.load] carry its strings unchanged. *)
Record habit_data := mkhabit_data {
  data_name : string;
  data_period : string;
  data_creation_time : string;
  data_completions : list string }.

Fixpoint parse_completions (l : list string) : result (list completion) :=
  match l with
  | [] => Ok []
  | s :: l' =>
      let* t := strptime s in
      let* r := parse_completions l' in
      Ok (CDate (dt_date t) :: r)
  end.

Definition from_dict (now : datetime) (data : habit_data) : result Habit :=
  let habit := Habit_init now (data_name data) (data_period data) in
  let* cs := parse_completions (data_completions data) in
  Ok (with_completions habit cs).

(** ** [class HabitTracker] *)

Record HabitTracker := mkHabitTracker { habits : list Habit }.

Definition longest_run_streak (self : HabitTracker) : result string :=
  let* habit := py_max get_streak None (habits self) in
  Ok (name habit).

(** The entry [save_to_file] appends to [data] for one habit. *)
Definition habit_data_of (habit : Habit) : habit_data :=
  mkhabit_data (name habit) (period habit) (creation_time habit)
    (map str_completion (completions habit)).

(** The list [save_to_file] hands to [json.dump]. *)
Definition save_to_file (self : HabitTracker) : list habit_data :=
  map habit_data_of (habits self).

(** ** Vocabulary of the statements *)

(** The adjacency threshold of a period, in days. *)
Definition threshold_of (p : string) : Z :=
  if (p =? "daily")%string then 1 else 7.

(** [a] is not after [b]: sorting never has to swap them. *)
Definition not_after (a b : completion) : Prop := completion_lt b a = Ok false.

(** [b] follows [a] with [(b - a).days <= threshold]. *)
Definition within (threshold : Z) (a b : completion) : Prop :=
  exists delta, completion_sub b a = Ok delta /\ days delta <= threshold.

(** [b] follows [a] with [(b - a).days > threshold]. *)
Definition beyond (threshold : Z) (a b : completion) : Prop :=
  exists delta, completion_sub b a = Ok delta /\ threshold < days delta.

(** [b] follows [a] with [b - a <= gap], the test of [get_streak]. *)
Definition adjacent (gap : timedelta) (a b : completion) : Prop :=
  exists delta, completion_sub b a = Ok delta /\ timedelta_le delta gap = true.

(** Every two neighbours of the list are related by [R]. *)
Inductive chain (R : completion -> completion -> Prop) : list completion -> Prop :=
| chain_nil : chain R []
| chain_one : forall a, chain R [a]
| chain_cons : forall a b l, R a b -> chain R (b :: l) -> chain R (a :: b :: l).

(** The last record of a streak and the first of the next one are
    [beyond] the threshold, for every two neighbouring streaks. *)
Inductive separated (threshold : Z) : list (list completion) -> Prop :=
| separated_nil : separated threshold []
| separated_one : forall s, separated threshold [s]
| separated_cons : forall s a b s' ss,
    beyond threshold a b ->
    separated threshold ((b :: s') :: ss) ->
    separated threshold ((s ++ [a]) :: (b :: s') :: ss).



(** [b] is [a] moved [k] whole days later: the same kind of object, the
    same time of day. *)
Definition days_afterb (k : Z) (a b : completion) : bool :=
  match a, b with
  | CDate x, CDate y =>
      valid_dateb x && valid_dateb y && (toordinal y =? toordinal x + k)
  | CDateTime x, CDateTime y =>
      valid_datetimeb x && valid_datetimeb y
      && (toordinal (dt_date y) =? toordinal (dt_date x) + k)
      && (hour y =? hour x) && (minute y =? minute x)
      && (second y =? second x) && (microsecond y =? microsecond x)
  | _, _ => false
  end.

Definition days_after (k : Z) (a b : completion) : Prop :=
  days_afterb k a b = true.

(** The partition written without accumulators: the records that extend
    the streak of [previous_date], then the later streaks. *)
Fixpoint runs (threshold : Z) (previous_date : completion)
    (rest : list completion)
  : result (list completion * list (list completion)) :=
  match rest with
  | [] => Ok ([], [])
  | current_date :: rest' =>
      let* delta := completion_sub current_date previous_date in
      let* r := runs threshold current_date rest' in
      if days delta <=? threshold
      then Ok (current_date :: fst r, snd r)
      else Ok ([], (current_date :: fst r) :: snd r)
  end.

(** [h] is the first habit of the list with the largest [get_streak]. *)
Definition first_maximal (l : list Habit) (h : Habit) : Prop :=
  exists before after k,
    l = before ++ h :: after /\ get_streak h = Ok k /\
    (forall x, In x before -> exists kx, get_streak x = Ok kx /\ kx < k) /\
    (forall x, In x after -> exists kx, get_streak x = Ok kx /\ kx <= k).

(** The fields a comparison looks at. *)
Definition ckey (c : completion) : list Z :=
  match c with
  | CDate d => date_key d
  | CDateTime t => datetime_key t
  end.

(** Every element is a [date] ([k = true]) or every one a [datetime]. *)
Definition of_kind (k : bool) (l : list completion) : Prop :=
  Forall (fun c => is_date c = k) l.

(** ** Concrete habits *)

(** A day of May 2023, the month of [generate_example_data]. *)
Definition may (dd : Z) : date := mkdate 2023 5 dd.

Definition may_at (dd h mi : Z) : datetime := mkdatetime (may dd) h mi 0 0.

Definition a_habit (p : string) (cs : list completion) : Habit :=
  mkHabit "Reading" p "2023-05-01 09:00:00" cs.

(** ** The other methods of [class Habit] and [class HabitTracker] *)

(** The calendar day a completion falls on. *)
Definition calendar_day (c : completion) : date :=
  match c with
  | CDate d => d
  | CDateTime t => dt_date t
  end.

(** [completion.date() for completion in self.completions], drawn in
    order; [min] draws every element, so the first [datetime.date] in the
    list raises. *)
Fixpoint completion_dates (l : list completion) : result (list date) :=
  match l with
  | [] => Ok []
  | CDate _ :: _ => Raise AttributeError
  | CDateTime t :: l' =>
      let* r := completion_dates l' in Ok (dt_date t :: r)
  end.

(** [min] of dates: the first element is kept until a strictly smaller
    one is met. *)
Fixpoint date_min (best : date) (l : list date) : date :=
  match l with
  | [] => best
  | d :: l' => if date_lt d best then date_min d l' else date_min best l'
  end.

Definition start_date (self : Habit) : result (option date) :=
  match completions self with
  | [] => Ok None
  | _ :: _ =>
      let* dates := completion_dates (completions self) in
      match dates with
      | [] => Raise (ValueError EmptySequence)
      | d :: dates' => Ok (Some (date_min d dates'))
      end
  end.

(** [HabitTracker()]. *)
Definition HabitTracker_init : HabitTracker := mkHabitTracker [].

Definition add_custom_habit (habit : Habit) (self : HabitTracker)
  : HabitTracker :=
  mkHabitTracker (habits self ++ [habit]).

Definition remove_habit (nm : string) (self : HabitTracker) : HabitTracker :=
  mkHabitTracker
    (filter (fun habit => negb (name habit =? nm)%string) (habits self)).

(** [get_habit]: [None] when no habit has the name. *)
Fixpoint get_habit_loop (nm : string) (l : list Habit) : option Habit :=
  match l with
  | [] => None
  | habit :: l' =>
      if (name habit =? nm)%string then Some habit else get_habit_loop nm l'
  end.

Definition get_habit (nm : string) (self : HabitTracker) : option Habit :=
  get_habit_loop nm (habits self).

Definition list_habits (self : HabitTracker) : list string :=
  map name (habits self).

(** The loop of [load_from_file] over the decoded file: [clock i] is the
    clock reading of the [i]-th [Habit(...)] built.  An exception leaves
    the habits appended so far in the tracker. *)
Fixpoint load_loop (clock : nat -> datetime) (i : nat) (data : list habit_data)
    (hs : list Habit) : list Habit * option exn :=
  match data with
  | [] => (hs, None)
  | habit_data :: data' =>
      match from_dict (clock i) habit_data with
      | Ok habit => load_loop clock (S i) data' (hs ++ [habit])
      | Raise e => (hs, Some e)
      end
  end.

(** [load_from_file]: [file] is what [json.load] decodes, [None] when the
    file does not exist; the result is the tracker, the exception that
    escapes if any, and the file afterwards.  Only files holding a list of
    records with the four keys are modelled. *)
Definition load_from_file (clock : nat -> datetime)
    (file : option (list habit_data)) (self : HabitTracker)
  : HabitTracker * option exn * option (list habit_data) :=
  match file with
  | Some data =>
      let r := load_loop clock 0 data (habits self) in
      (mkHabitTracker (fst r), snd r, file)
  | None => (self, None, Some [])
  end.





Section AddHabit.

(** The built-ins [str.isdigit] and [int] are those of Python. *)
Variable isdigit : string -> bool.
Variable int : string -> result Z.


End AddHabit.



(** The habit [from_dict] builds from the record of [h] when the
    completions are read back, and the habits [load_from_file] builds from
    the records of [hs], the first one at clock reading [i]. *)
Definition reloaded (now : datetime) (h : Habit) : Habit :=
  mkHabit (name h) (period h) (str_datetime now) (completions h).

Fixpoint reloaded_from (clock : nat -> datetime) (i : nat) (hs : list Habit)
  : list Habit :=
  match hs with
  | [] => []
  | h :: hs' => reloaded (clock i) h :: reloaded_from clock (S i) hs'
  end.

(** The completions are well-formed date objects. *)
Definition holds_dates (h : Habit) : Prop :=
  Forall (fun c => is_date c = true /\ valid_completionb c = true)
         (completions h).

(** ** Instants and written dates *)

(** The time of day of a completion, in microseconds since midnight; a
    [date] carries none. *)
Definition time_of_day (c : completion) : Z :=
  match c with
  | CDate _ => 0
  | CDateTime t =>
      (hour t * 3600 + minute t * 60 + second t) * 1000000 + microsecond t
  end.

(** The microseconds of 24 hours. *)
Definition day_us : Z := 86400000000.

(** The microseconds from the start of day 0 of the calendar to the
    completion. *)
Definition instant (c : completion) : Z :=
  toordinal (calendar_day c) * day_us + time_of_day c.

(** [b] is an object of the kind of [a], both well formed, and falls on the
    calendar day after the day of [a], at any time of that day. *)
Definition next_dayb (a b : completion) : bool :=
  Bool.eqb (is_date a) (is_date b)
  && valid_completionb a && valid_completionb b
  && (toordinal (calendar_day b) =? toordinal (calendar_day a) + 1).

Definition on_the_next_day (a b : completion) : Prop := next_dayb a b = true.

(** [b] is of the kind of [a] and at most [n] times 24 hours later. *)
Definition close (n : Z) (a b : completion) : Prop :=
  is_date a = is_date b /\ instant b - instant a <= n * day_us.

(** [b] is of the kind of [a] and more than [n] times 24 hours later. *)
Definition far (n : Z) (a b : completion) : Prop :=
  is_date a = is_date b /\ n * day_us < instant b - instant a.

(** The last record of a run and the first of the next one are [far], for
    every two neighbouring runs. *)
Inductive parted (n : Z) : list (list completion) -> Prop :=
| parted_nil : parted n []
| parted_one : forall s, parted n [s]
| parted_cons : forall s a b s' ss,
    far n a b ->
    parted n ((b :: s') :: ss) ->
    parted n ((s ++ [a]) :: (b :: s') :: ss).

(** The ways of writing a month and a day of the month that ["%m"] and
    ["%d"] read: two digits, and below 10 also one digit; a day below 10
    also with a space in front. *)
Definition month_forms (m : Z) : list string :=
  zero_padded 2 m :: (if m <? 10 then [zero_padded 1 m] else []).

Definition day_forms (d : Z) : list string :=
  zero_padded 2 d
  :: (if d <? 10 then [zero_padded 1 d; (" " ++ zero_padded 1 d)%string]
      else []).

(** The texts that are a writing of the date [d]: the year in four digits,
    a month form and a day form, with ["-"] between them.  The first one is
    [str(d)]. *)
Definition date_strings (d : date) : list string :=
  flat_map
    (fun m =>
       map (fun dd => (zero_padded 4 (year d) ++ "-" ++ m ++ "-" ++ dd)%string)
           (day_forms (day d)))
    (month_forms (month d)).

(** [s] is a writing of the date [d], a date of the calendar. *)
Definition reads_as (s : string) (d : date) : Prop :=
  valid_date d /\ In s (date_strings d).

(** Every character of the text is an ASCII one. *)
Definition ascii_text (s : string) : bool :=
  forallb (fun c => (N_of_ascii c <? 128)%N) (list_ascii_of_string s).

(** * Properties *)

(** ** Field-by-field comparison *)

Section Lex.

Lemma lex_lt_irrefl (a : list Z) : lex_lt a a = false.
Proof.
  induction a as [|x a IH]; simpl; [reflexivity|].
  rewrite Z.ltb_irrefl, Z.eqb_refl, IH. reflexivity.
Qed.

Lemma lex_lt_trans (a b c : list Z) :
  lex_lt a b = true -> lex_lt b c = true -> lex_lt a c = true.
Proof.
  revert b c. induction a as [|x a IH]; intros [|y b] [|z c]; simpl;
    try congruence.
  intros Hab Hbc.
  apply orb_true_iff in Hab. apply orb_true_iff in Hbc. apply orb_true_iff.
  destruct Hab as [Hab|Hab], Hbc as [Hbc|Hbc];
    rewrite ?andb_true_iff, ?Z.ltb_lt, ?Z.eqb_eq in *.
  - left. lia.
  - left. lia.
  - left. lia.
  - right. split; [lia|]. apply IH with b; tauto.
Qed.

Lemma lex_lt_total (a b : list Z) :
  List.length a = List.length b ->
  lex_lt a b = false -> lex_lt b a = false -> a = b.
Proof.
  revert b. induction a as [|x a IH]; intros [|y b]; simpl; try congruence.
  intros Hlen Hab Hba.
  apply orb_false_iff in Hab. apply orb_false_iff in Hba.
  destruct Hab as [Hxy Hab], Hba as [Hyx Hba].
  apply Z.ltb_ge in Hxy, Hyx.
  assert (x = y) by lia. subst y.
  rewrite Z.eqb_refl in Hab, Hba. simpl in Hab, Hba.
  f_equal. apply IH; congruence.
Qed.

Lemma lex_lt_asym (a b : list Z) : lex_lt a b = true -> lex_lt b a = false.
Proof.
  intros Hab. destruct (lex_lt b a) eqn:Hba; [|reflexivity].
  pose proof (lex_lt_trans _ _ _ Hab Hba) as H.
  rewrite lex_lt_irrefl in H. discriminate.
Qed.

Lemma lex_lt_app (a b c d : list Z) :
  List.length a = List.length b ->
  lex_lt (a ++ c) (b ++ d) = lex_lt a b || negb (lex_lt b a) && lex_lt c d.
Proof.
  revert b. induction a as [|x a IH]; intros [|y b]; simpl; try congruence.
  intros Hlen. injection Hlen as Hlen. rewrite (IH b Hlen).
  destruct (x <? y) eqn:Hxy, (y <? x) eqn:Hyx, (x =? y) eqn:He;
    rewrite ?(Z.eqb_sym y x), ?He; simpl;
    rewrite ?Z.ltb_lt, ?Z.ltb_ge, ?Z.eqb_eq, ?Z.eqb_neq in *; try lia;
    try reflexivity.
Qed.

End Lex.
Section CalendarFacts.

Lemma days_before_year_succ (y : Z) :
  _days_before_year (y + 1)
  = _days_before_year y + 365 + (if _is_leap y then 1 else 0).
Proof.
  unfold _days_before_year, _is_leap. cbv zeta.
  replace (y + 1 - 1) with y by lia.
  destruct (y mod 4 =? 0) eqn:H4, (y mod 100 =? 0) eqn:H100,
           (y mod 400 =? 0) eqn:H400; simpl;
    rewrite ?Z.eqb_eq, ?Z.eqb_neq in *;
    Z.to_euclidean_division_equations; lia.
Qed.

Lemma days_before_year_mono (y y' : Z) :
  y <= y' -> _days_before_year y <= _days_before_year y'.
Proof.
  unfold _days_before_year. cbv zeta. intros H.
  Z.to_euclidean_division_equations. lia.
Qed.

Lemma month_cases (m : Z) :
  1 <= m <= 12 ->
  m = 1 \/ m = 2 \/ m = 3 \/ m = 4 \/ m = 5 \/ m = 6 \/
  m = 7 \/ m = 8 \/ m = 9 \/ m = 10 \/ m = 11 \/ m = 12.
Proof. lia. Qed.

Lemma valid_date_bounds (d : date) :
  valid_date d ->
  1 <= year d <= 9999 /\ 1 <= month d <= 12 /\
  1 <= day d <= _days_in_month (year d) (month d).
Proof.
  unfold valid_date, valid_dateb. intros H.
  repeat (apply andb_true_iff in H; destruct H as [H ?]).
  rewrite ?Z.leb_le in *. lia.
Qed.

Lemma day_of_year_bounds (y m d : Z) :
  1 <= m <= 12 -> 1 <= d <= _days_in_month y m ->
  1 <= _days_before_month y m + d <= 365 + (if _is_leap y then 1 else 0).
Proof.
  intros Hm Hd. unfold _days_in_month, _days_before_month in *.
  remember (_is_leap y) as leap eqn:Hleap; clear Hleap; destruct leap;
    destruct (month_cases m Hm) as [E|[E|[E|[E|[E|[E|[E|[E|[E|[E|[E|E]]]]]]]]]]];
    subst m; cbn -[Z.add] in *; lia.
Qed.

Lemma day_of_year_mono (y m d m' d' : Z) :
  1 <= m <= 12 -> 1 <= m' <= 12 ->
  1 <= d <= _days_in_month y m -> 1 <= d' ->
  m < m' ->
  _days_before_month y m + d < _days_before_month y m' + d'.
Proof.
  intros Hm Hm' Hd Hd' Hlt. unfold _days_in_month, _days_before_month in *.
  remember (_is_leap y) as leap eqn:Hleap; clear Hleap; destruct leap;
    destruct (month_cases m Hm) as [E|[E|[E|[E|[E|[E|[E|[E|[E|[E|[E|E]]]]]]]]]]];
    subst m;
    destruct (month_cases m' Hm') as [E|[E|[E|[E|[E|[E|[E|[E|[E|[E|[E|E]]]]]]]]]]];
    subst m'; cbn -[Z.add] in *; lia.
Qed.

(** Dates compare as their ordinals do. *)
Lemma date_lt_toordinal (a b : date) :
  valid_date a -> valid_date b ->
  date_lt a b = true -> toordinal a < toordinal b.
Proof.
  intros Ha Hb. apply valid_date_bounds in Ha, Hb.
  destruct a as [y m d], b as [y' m' d']. simpl in *.
  unfold date_lt, date_key, toordinal, _ymd2ord. simpl.
  intros H. 
  pose proof (day_of_year_bounds y m d ltac:(lia) ltac:(lia)) as Ba.
  pose proof (day_of_year_bounds y' m' d' ltac:(lia) ltac:(lia)) as Bb.
  apply orb_true_iff in H. destruct H as [H|H].
  - apply Z.ltb_lt in H.
    pose proof (days_before_year_succ y) as Hs.
    pose proof (days_before_year_mono (y + 1) y' ltac:(lia)) as Hmono.
    lia.
  - apply andb_true_iff in H. destruct H as [E H]. apply Z.eqb_eq in E. subst y'.
    apply orb_true_iff in H. destruct H as [H|H].
    + apply Z.ltb_lt in H.
      pose proof (day_of_year_mono y m d m' d' ltac:(lia) ltac:(lia) ltac:(lia) ltac:(lia) H).
      lia.
    + apply andb_true_iff in H. destruct H as [E H]. apply Z.eqb_eq in E. subst m'.
      rewrite andb_false_r, orb_false_r in H. apply Z.ltb_lt in H. lia.
Qed.

End CalendarFacts.

(** ** Ordering completions and sorting them *)

Section Sorting.

Lemma completion_lt_key (a b : completion) :
  is_date a = is_date b ->
  completion_lt a b = Ok (lex_lt (ckey a) (ckey b)).
Proof. destruct a, b; simpl; intros H; try discriminate; reflexivity. Qed.

Lemma completion_lt_mixed (a b : completion) :
  is_date a <> is_date b -> completion_lt a b = Raise TypeError.
Proof. destruct a, b; simpl; intros H; congruence. Qed.

Lemma ckey_length (a b : completion) :
  is_date a = is_date b -> List.length (ckey a) = List.length (ckey b).
Proof. destruct a, b; simpl; intros H; congruence. Qed.

Lemma ckey_inj (a b : completion) :
  is_date a = is_date b -> ckey a = ckey b -> a = b.
Proof.
  destruct a as [[y m d]|[[y m d] h mi s us]],
           b as [[y' m' d']|[[y' m' d'] h' mi' s' us']];
    simpl; intros Hk; try discriminate;
    unfold datetime_key, date_key; simpl; intros H;
    injection H; intros; subst; reflexivity.
Qed.

Lemma not_after_refl (a : completion) : not_after a a.
Proof.
  unfold not_after. rewrite completion_lt_key by reflexivity.
  now rewrite lex_lt_irrefl.
Qed.

Lemma not_after_trans (a b c : completion) :
  not_after a b -> not_after b c -> not_after a c.
Proof.
  unfold not_after. intros Hab Hbc.
  assert (Kab : is_date b = is_date a)
    by (destruct a, b; simpl in *; congruence).
  assert (Kbc : is_date c = is_date b)
    by (destruct b, c; simpl in *; congruence).
  rewrite completion_lt_key in * by congruence.
  injection Hab as Hab. injection Hbc as Hbc. f_equal.
  destruct (lex_lt (ckey c) (ckey a)) eqn:Hca; [|reflexivity].
  destruct (lex_lt (ckey a) (ckey b)) eqn:Hab'.
  - pose proof (lex_lt_trans _ _ _ Hca Hab'). congruence.
  - assert (ckey b = ckey a)
      by (apply lex_lt_total; auto using ckey_length).
    congruence.
Qed.

Lemma not_after_antisym (a b : completion) :
  not_after a b -> not_after b a -> a = b.
Proof.
  unfold not_after. intros Hab Hba.
  assert (K : is_date a = is_date b)
    by (destruct a, b; simpl in *; congruence).
  rewrite completion_lt_key in * by congruence.
  apply ckey_inj; [exact K|].
  apply lex_lt_total; [now apply ckey_length|congruence|congruence].
Qed.

Lemma lt_not_after (a b : completion) :
  completion_lt a b = Ok true -> not_after a b.
Proof.
  unfold not_after. intros H.
  assert (K : is_date a = is_date b)
    by (destruct a, b; simpl in *; congruence).
  rewrite completion_lt_key in * by congruence.
  injection H as H. now rewrite (lex_lt_asym _ _ H).
Qed.

Lemma of_kind_homogeneous (k : bool) (l : list completion) :
  of_kind k l -> homogeneous l = true.
Proof.
  unfold of_kind, homogeneous. intros H. apply orb_true_iff.
  destruct k; [left|right]; apply forallb_forall; intros c Hc;
    rewrite Forall_forall in H; specialize (H c Hc);
    unfold is_datetime; now rewrite H.
Qed.

Lemma homogeneous_of_kind (l : list completion) :
  homogeneous l = true -> exists k, of_kind k l.
Proof.
  unfold homogeneous, of_kind. intros H. apply orb_true_iff in H.
  destruct H as [H|H]; [exists true|exists false];
    apply Forall_forall; intros c Hc;
    rewrite forallb_forall in H; specialize (H c Hc);
    unfold is_datetime in *; destruct (is_date c); simpl in *; congruence.
Qed.

Lemma insort_spec (k : bool) (x : completion) (l : list completion) :
  is_date x = k -> of_kind k l -> StronglySorted not_after l ->
  exists r, insort x l = Ok r /\ Permutation (x :: l) r /\ of_kind k r /\
            StronglySorted not_after r.
Proof.
  intros Hx. induction l as [|y l IH]; intros Hk Hs.
  - exists [x]. repeat split; auto.
    + constructor; auto.
    + repeat constructor.
  - inversion Hk as [|? ? Hy Hk']; subst. inversion Hs as [|? ? Hs' Hall]; subst.
    simpl. rewrite completion_lt_key by congruence. simpl.
    destruct (lex_lt (ckey y) (ckey x)) eqn:Hlt.
    + destruct (IH Hk' Hs') as (r & Hr & Hp & Hkr & Hsr).
      rewrite Hr. simpl. exists (y :: r). repeat split.
      * rewrite perm_swap. now constructor.
      * constructor; auto.
      * constructor; [exact Hsr|].
        eapply Permutation_Forall; [exact Hp|].
        constructor; [|exact Hall].
        apply lt_not_after. rewrite completion_lt_key by congruence.
        now rewrite Hlt.
    + exists (x :: y :: l). repeat split; auto.
      * constructor; auto.
      * assert (Hxy : not_after x y).
        { unfold not_after. rewrite completion_lt_key by congruence.
          now rewrite Hlt. }
        constructor; [exact Hs|]. constructor; [exact Hxy|].
        eapply Forall_impl; [|exact Hall].
        intros z Hz. eapply not_after_trans; eauto.
Qed.

(** On a list of one kind [sorted] returns a sorted rearrangement. *)
Lemma sorted_spec (k : bool) (l : list completion) :
  of_kind k l ->
  exists s, sorted l = Ok s /\ Permutation l s /\ of_kind k s /\
            StronglySorted not_after s.
Proof.
  induction l as [|x l IH]; intros Hk.
  - exists []. repeat split; constructor.
  - inversion Hk as [|? ? Hx Hk']; subst.
    destruct (IH Hk') as (s & Hs & Hp & Hks & Hss).
    destruct (insort_spec (is_date x) x s eq_refl Hks Hss)
      as (r & Hr & Hpr & Hkr & Hsr).
    exists r. simpl. rewrite Hs. simpl. repeat split; auto.
    rewrite <- Hpr. now constructor.
Qed.

(** On a list that mixes the two kinds it raises [TypeError]. *)
Lemma sorted_mixed (l : list completion) :
  homogeneous l = false -> sorted l = Raise TypeError.
Proof.
  induction l as [|x l IH]; intros H; [discriminate|].
  simpl. destruct (homogeneous l) eqn:Hl.
  - apply homogeneous_of_kind in Hl. destruct Hl as [k Hk].
    destruct (sorted_spec k l Hk) as (s & Hs & Hp & Hks & _).
    rewrite Hs. simpl.
    destruct s as [|y s].
    + apply Permutation_sym, Permutation_nil in Hp. subst l.
      unfold homogeneous in H. simpl in H.
      unfold is_datetime in H. destruct (is_date x); discriminate.
    + simpl. inversion Hks as [|? ? Hy _]; subst.
      destruct (Bool.bool_dec (is_date x) (is_date y)) as [E|E].
      * exfalso.
        assert (Hh : homogeneous (x :: l) = true).
        { apply of_kind_homogeneous with (k := is_date y).
          constructor; [exact E|exact Hk]. }
        congruence.
      * rewrite completion_lt_mixed by congruence. reflexivity.
  - rewrite (IH eq_refl). reflexivity.
Qed.

Lemma sorted_unique (l1 l2 : list completion) :
  StronglySorted not_after l1 -> StronglySorted not_after l2 ->
  Permutation l1 l2 -> l1 = l2.
Proof.
  revert l2. induction l1 as [|a l1 IH]; intros l2 H1 H2 Hp.
  - now apply Permutation_nil in Hp.
  - destruct l2 as [|b l2];
      [apply Permutation_sym, Permutation_nil in Hp; discriminate|].
    inversion H1 as [|? ? H1' Ha]; subst.
    inversion H2 as [|? ? H2' Hb]; subst.
    assert (a = b).
    { assert (Hin_a : In a (b :: l2))
        by (eapply Permutation_in; [exact Hp|now left]).
      assert (Hin_b : In b (a :: l1))
        by (eapply Permutation_in; [apply Permutation_sym; exact Hp|now left]).
      rewrite Forall_forall in Ha, Hb.
      destruct Hin_a as [E|Hin_a]; [congruence|].
      destruct Hin_b as [E|Hin_b]; [congruence|].
      apply not_after_antisym; auto. }
    subst b. f_equal. apply IH; auto.
    now apply Permutation_cons_inv in Hp.
Qed.

(** Sorting any rearrangement of a sorted list gives that list. *)
Lemma sorted_permutation (k : bool) (l s : list completion) :
  of_kind k s -> StronglySorted not_after s -> Permutation l s ->
  sorted l = Ok s.
Proof.
  intros Hk Hs Hp.
  assert (Hkl : of_kind k l).
  { unfold of_kind in *. eapply Permutation_Forall;
      [apply Permutation_sym; exact Hp|exact Hk]. }
  destruct (sorted_spec k l Hkl) as (s' & Hs' & Hp' & _ & Hss').
  rewrite Hs'. f_equal. apply sorted_unique; auto.
  rewrite <- Hp'. exact Hp.
Qed.

End Sorting.

(** ** The partitioner *)

Section Partitioner.

Variable threshold : Z.

(** The loop with its two accumulators computes [runs]. *)
Lemma streak_loop_runs (rest : list completion) :
  forall previous_date streaks current_streak,
    rbind (streak_loop threshold previous_date rest streaks current_streak)
          (fun r => Ok (fst r ++ [snd r]))
    = rbind (runs threshold previous_date rest)
            (fun r => Ok (streaks ++ (current_streak ++ fst r) :: snd r)).
Proof.
  induction rest as [|cur rest IH]; intros prev streaks current; simpl.
  - now rewrite app_nil_r.
  - destruct (completion_sub cur prev) as [delta|e]; simpl; [|reflexivity].
    destruct (days delta <=? threshold).
    + rewrite IH. destruct (runs threshold cur rest) as [r|e]; simpl;
        [|reflexivity].
      now rewrite <- app_assoc.
    + rewrite IH. destruct (runs threshold cur rest) as [r|e]; simpl;
        [|reflexivity].
      now rewrite <- app_assoc, app_nil_r.
Qed.

Lemma partition_runs (first : completion) (rest : list completion) :
  partition threshold (first :: rest)
  = rbind (runs threshold first rest)
          (fun r => Ok ((first :: fst r) :: snd r)).
Proof.
  unfold partition.
  change (let* r := streak_loop threshold first rest [] [first] in
          Ok (fst r ++ [snd r]))
    with (rbind (streak_loop threshold first rest [] [first])
                (fun r => Ok (fst r ++ [snd r]))).
  rewrite streak_loop_runs. reflexivity.
Qed.

Lemma completion_sub_ok (a b : completion) :
  is_date a = is_date b -> exists delta, completion_sub a b = Ok delta.
Proof. destruct a, b; simpl; intros H; try discriminate; eauto. Qed.

Lemma runs_total (k : bool) (rest : list completion) :
  forall previous_date,
    of_kind k (previous_date :: rest) ->
    exists r, runs threshold previous_date rest = Ok r.
Proof.
  induction rest as [|cur rest IH]; intros prev Hk; simpl; [eauto|].
  inversion Hk as [|? ? Hp Hk']; subst. inversion Hk' as [|? ? Hc _]; subst.
  destruct (completion_sub_ok cur prev) as [delta Hd]; [congruence|].
  destruct (IH cur Hk') as [r Hr]. rewrite Hd, Hr. simpl.
  destruct (days delta <=? threshold); eauto.
Qed.

Lemma separated_extend (p : completion) (s : list completion)
      (ss : list (list completion)) :
  separated threshold (s :: ss) -> separated threshold ((p :: s) :: ss).
Proof.
  intros H. inversion H; subst.
  - constructor.
  - change (p :: s0 ++ [a]) with ((p :: s0) ++ [a]). now constructor.
Qed.

Lemma runs_spec (rest : list completion) :
  forall previous_date c ss,
    runs threshold previous_date rest = Ok (c, ss) ->
    c ++ List.concat ss = rest /\
    chain (within threshold) (previous_date :: c) /\
    Forall (fun s => s <> []) ss /\
    Forall (chain (within threshold)) ss /\
    separated threshold ((previous_date :: c) :: ss).
Proof.
  induction rest as [|cur rest IH]; intros prev c ss; simpl.
  - intros H. injection H as <- <-. repeat split; constructor.
  - destruct (completion_sub cur prev) as [delta|e] eqn:Hd; simpl;
      [|discriminate].
    destruct (runs threshold cur rest) as [[c' ss']|e] eqn:Hr; simpl;
      [|discriminate].
    destruct (IH cur c' ss' Hr) as (Hcat & Hch & Hne & Hchs & Hsep).
    destruct (days delta <=? threshold) eqn:Hle; intros H;
      injection H as <- <-.
    + apply Z.leb_le in Hle. repeat split; auto.
      * simpl. now rewrite Hcat.
      * constructor; [exists delta; auto|exact Hch].
      * now apply separated_extend.
    + apply Z.leb_gt in Hle. repeat split.
      * simpl. now rewrite Hcat.
      * constructor.
      * constructor; [discriminate|exact Hne].
      * constructor; auto.
      * apply (separated_cons threshold [] prev cur c' ss');
          [exists delta; auto|exact Hsep].
Qed.

(** What [partition] returns on a non-empty list of one kind. *)
Lemma partition_spec (k : bool) (dates : list completion) :
  dates <> [] -> of_kind k dates ->
  exists streaks,
    partition threshold dates = Ok streaks /\
    List.concat streaks = dates /\
    Forall (fun s => s <> []) streaks /\
    Forall (chain (within threshold)) streaks /\
    separated threshold streaks.
Proof.
  destruct dates as [|first rest]; [congruence|]. intros _ Hk.
  destruct (runs_total k rest first Hk) as [[c ss] Hr].
  destruct (runs_spec rest first c ss Hr) as (Hcat & Hch & Hne & Hchs & Hsep).
  exists ((first :: c) :: ss). rewrite partition_runs, Hr. simpl.
  repeat split; auto.
  - now rewrite Hcat.
  - constructor; [discriminate|exact Hne].
Qed.

Lemma StronglySorted_app_inv (R : completion -> completion -> Prop)
      (l1 l2 : list completion) :
  StronglySorted R (l1 ++ l2) -> StronglySorted R l1 /\ StronglySorted R l2.
Proof.
  induction l1 as [|a l1 IH]; simpl; intros H.
  - split; [constructor|exact H].
  - inversion H as [|? ? H' Ha]; subst. destruct (IH H') as [H1 H2].
    split; [|exact H2]. constructor; [exact H1|].
    apply Forall_app in Ha. tauto.
Qed.

Lemma StronglySorted_concat (R : completion -> completion -> Prop)
      (ss : list (list completion)) :
  StronglySorted R (List.concat ss) -> Forall (StronglySorted R) ss.
Proof.
  induction ss as [|s ss IH]; simpl; intros H; [constructor|].
  apply StronglySorted_app_inv in H. destruct H as [H1 H2].
  constructor; auto.
Qed.

End Partitioner.

(** [track_streaks] on a valid period and a non-empty list: sort, then
    partition; only the weekly path stores the sorted list. *)
Lemma track_streaks_eq (h : Habit) :
  period h = "daily"%string \/ period h = "weekly"%string ->
  completions h <> [] ->
  track_streaks h =
  let* s := sorted (completions h) in
  let* streaks := partition (threshold_of (period h)) s in
  Ok (streaks, if (period h =? "daily")%string then h else with_completions h s).
Proof.
  intros Hp Hc. unfold track_streaks, bind, get_period, threshold_of.
  destruct Hp as [Hp|Hp]; rewrite Hp; simpl.
  - unfold _track_daily_streaks, bind, get_completions, lift.
    destruct (completions h) as [|c cs] eqn:E; [congruence|].
    destruct (sorted (c :: cs)) as [s|e]; simpl; [|reflexivity].
    destruct (partition 1 s); reflexivity.
  - unfold _track_weekly_streaks, bind, get_completions, set_completions, lift.
    destruct (completions h) as [|c cs] eqn:E; [congruence|].
    destruct (sorted (c :: cs)) as [s|e]; simpl; [|reflexivity].
    destruct (partition 7 s); reflexivity.
Qed.

(** ** Completions a whole number of days apart *)

Section DaysApart.

Lemma days_timedelta_days (k : Z) : days (timedelta_days k) = k.
Proof.
  unfold timedelta_days, new_delta. cbn [days].
  replace ((0 + 0 / 1000000) / 86400) with 0 by reflexivity. lia.
Qed.

Lemma date_key_inj (a b : date) : date_key a = date_key b -> a = b.
Proof.
  destruct a, b. unfold date_key. simpl. intros H.
  injection H; intros; subst; reflexivity.
Qed.

Lemma toordinal_date_lt (a b : date) :
  valid_date a -> valid_date b -> toordinal a < toordinal b ->
  date_lt a b = true /\ date_lt b a = false.
Proof.
  intros Ha Hb Hlt.
  assert (Hba : date_lt b a = false).
  { destruct (date_lt b a) eqn:E; [|reflexivity].
    pose proof (date_lt_toordinal b a Hb Ha E). lia. }
  split; [|exact Hba].
  destruct (date_lt a b) eqn:E; [reflexivity|].
  assert (date_key a = date_key b) by (apply lex_lt_total; auto).
  assert (a = b) by now apply date_key_inj.
  subst b. lia.
Qed.

Lemma days_after_date (k : Z) (x y : date) :
  days_after k (CDate x) (CDate y) ->
  valid_date x /\ valid_date y /\ toordinal y = toordinal x + k.
Proof.
  unfold days_after, valid_date. cbn [days_afterb]. intros H.
  apply andb_true_iff in H. destruct H as [H E].
  apply andb_true_iff in H. destruct H as [Vx Vy].
  apply Z.eqb_eq in E. auto.
Qed.

Lemma days_after_datetime_iff (k : Z) (x y : datetime) :
  days_after k (CDateTime x) (CDateTime y) <->
  valid_datetime x /\ valid_datetime y /\
  toordinal (dt_date y) = toordinal (dt_date x) + k /\
  hour y = hour x /\ minute y = minute x /\ second y = second x /\
  microsecond y = microsecond x.
Proof.
  unfold days_after, valid_datetime. cbn [days_afterb].
  rewrite !andb_true_iff, !Z.eqb_eq. tauto.
Qed.

Lemma days_after_datetime (k : Z) (x y : datetime) :
  days_after k (CDateTime x) (CDateTime y) ->
  valid_date (dt_date x) /\ valid_date (dt_date y) /\
  toordinal (dt_date y) = toordinal (dt_date x) + k /\
  hour y = hour x /\ minute y = minute x /\ second y = second x /\
  microsecond y = microsecond x.
Proof.
  intros H. apply days_after_datetime_iff in H.
  destruct H as (Vx & Vy & H).
  unfold valid_datetime, valid_datetimeb in Vx, Vy.
  apply andb_true_iff in Vx. destruct Vx as [Vx _].
  apply andb_true_iff in Vy. destruct Vy as [Vy _].
  auto.
Qed.

Lemma days_after_kind (k : Z) (a b : completion) :
  days_after k a b -> is_date a = is_date b.
Proof. destruct a, b; unfold days_after; simpl; congruence. Qed.

(** The difference is exactly [timedelta(days=k)]. *)
Lemma days_after_sub (k : Z) (a b : completion) :
  days_after k a b -> completion_sub b a = Ok (timedelta_days k).
Proof.
  destruct a as [x|x], b as [y|y]; try (unfold days_after; simpl; congruence).
  - intros H. apply days_after_date in H. destruct H as (_ & _ & E).
    simpl. unfold date_sub, timedelta_days. do 2 f_equal. lia.
  - intros H. apply days_after_datetime in H.
    destruct H as (_ & _ & E & Eh & Em & Es & Eu).
    simpl. unfold datetime_sub, timedelta_days.
    rewrite Eh, Em, Es, Eu, E. f_equal. f_equal; lia.
Qed.

Lemma days_after_lt (k : Z) (a b : completion) :
  0 < k -> days_after k a b ->
  completion_lt a b = Ok true /\ completion_lt b a = Ok false.
Proof.
  intros Hk. destruct a as [x|x], b as [y|y];
    try (unfold days_after; simpl; congruence).
  - intros H. apply days_after_date in H. destruct H as (Vx & Vy & E).
    destruct (toordinal_date_lt x y Vx Vy ltac:(lia)) as [H1 H2].
    simpl. now rewrite H1, H2.
  - intros H. apply days_after_datetime in H.
    destruct H as (Vx & Vy & E & _).
    destruct (toordinal_date_lt _ _ Vx Vy ltac:(lia)) as [H1 H2].
    unfold date_lt in H1, H2. simpl. unfold datetime_lt, datetime_key.
    rewrite !lex_lt_app by reflexivity. now rewrite H1, H2.
Qed.

Lemma days_after_not_after (k : Z) (a b : completion) :
  0 < k -> days_after k a b -> not_after a b.
Proof. intros Hk H. unfold not_after. now apply (days_after_lt k). Qed.

Lemma days_after_trans (j k : Z) (a b c : completion) :
  days_after j a b -> days_after k b c -> days_after (j + k) a c.
Proof.
  destruct a as [x|x], b as [y|y], c as [z|z];
    try (unfold days_after; simpl; congruence).
  - intros H1 H2. apply days_after_date in H1, H2.
    destruct H1 as (Vx & Vy & E1), H2 as (_ & Vz & E2).
    unfold days_after, valid_date in *. simpl. rewrite Vx, Vz. simpl.
    apply Z.eqb_eq. lia.
  - intros H1 H2. apply days_after_datetime_iff in H1, H2.
    apply days_after_datetime_iff.
    destruct H1 as (Vx & Vy & E1 & ? & ? & ? & ?),
             H2 as (_ & Vz & E2 & ? & ? & ? & ?).
    repeat split; auto; lia.
Qed.

Lemma within_days_after (k threshold : Z) (a b : completion) :
  k <= threshold -> days_after k a b -> within threshold a b.
Proof.
  intros Hk H. exists (timedelta_days k). split.
  - now apply days_after_sub.
  - rewrite days_timedelta_days. exact Hk.
Qed.

(** A completion is zero days after itself. *)
Lemma completion_sub_self (c : completion) :
  exists delta, completion_sub c c = Ok delta /\ days delta = 0.
Proof.
  destruct c as [x|x]; simpl; eexists; split; try reflexivity.
  - unfold date_sub. rewrite Z.sub_diag. reflexivity.
  - unfold datetime_sub. rewrite !Z.sub_diag. reflexivity.
Qed.

End DaysApart.

(** ** Evaluating the loop *)

Section Evaluation.

Variable threshold : Z.

Lemma runs_within (prev cur : completion) (rest : list completion)
      (delta : timedelta) :
  completion_sub cur prev = Ok delta -> days delta <= threshold ->
  runs threshold prev (cur :: rest)
  = rbind (runs threshold cur rest) (fun r => Ok (cur :: fst r, snd r)).
Proof.
  intros Hd Hle. simpl. rewrite Hd. simpl.
  apply Z.leb_le in Hle. rewrite Hle. reflexivity.
Qed.

Lemma runs_beyond (prev cur : completion) (rest : list completion)
      (delta : timedelta) :
  completion_sub cur prev = Ok delta -> threshold < days delta ->
  runs threshold prev (cur :: rest)
  = rbind (runs threshold cur rest)
          (fun r => Ok ([], (cur :: fst r) :: snd r)).
Proof.
  intros Hd Hlt. simpl. rewrite Hd. simpl.
  apply Z.leb_gt in Hlt. rewrite Hlt. reflexivity.
Qed.

(** A list whose neighbours are all within the threshold is one streak. *)
Lemma runs_single (rest : list completion) :
  forall prev, chain (within threshold) (prev :: rest) ->
               runs threshold prev rest = Ok (rest, []).
Proof.
  induction rest as [|cur rest IH]; intros prev H; [reflexivity|].
  inversion H as [| |? ? ? [delta [Hd Hle]] H']; subst.
  rewrite (runs_within _ _ _ _ Hd Hle), (IH cur H'). reflexivity.
Qed.

Lemma partition_single (l : list completion) :
  l <> [] -> chain (within threshold) l -> partition threshold l = Ok [l].
Proof.
  destruct l as [|first rest]; [congruence|]. intros _ H.
  rewrite partition_runs, (runs_single rest first H). reflexivity.
Qed.

End Evaluation.

(** ** What can be raised *)

Section Raises.

Lemma sorted_raise (l : list completion) (e : exn) :
  sorted l = Raise e -> e = TypeError /\ homogeneous l = false.
Proof.
  intros H. destruct (homogeneous l) eqn:Hh.
  - apply homogeneous_of_kind in Hh. destruct Hh as [k Hk].
    destruct (sorted_spec k l Hk) as (s & Hs & _). congruence.
  - rewrite (sorted_mixed l Hh) in H. split; congruence.
Qed.

Lemma completion_sub_raise (a b : completion) (e : exn) :
  completion_sub a b = Raise e -> e = TypeError.
Proof. destruct a, b; simpl; congruence. Qed.

Lemma runs_raise (threshold : Z) (rest : list completion) :
  forall prev e, runs threshold prev rest = Raise e -> e = TypeError.
Proof.
  induction rest as [|cur rest IH]; intros prev e; simpl; [discriminate|].
  destruct (completion_sub cur prev) as [delta|e'] eqn:Hd; simpl.
  - destruct (runs threshold cur rest) as [r|e'] eqn:Hr; simpl.
    + destruct (days delta <=? threshold); discriminate.
    + intros H. injection H as <-. eapply IH; eauto.
  - intros H. injection H as <-. eapply completion_sub_raise; eauto.
Qed.

Lemma partition_raise (threshold : Z) (l : list completion) (e : exn) :
  partition threshold l = Raise e -> e = TypeError \/ e = IndexError.
Proof.
  destruct l as [|first rest]; simpl.
  - intros H. injection H as <-. now right.
  - fold (partition threshold (first :: rest)). rewrite partition_runs.
    destruct (runs threshold first rest) as [r|e'] eqn:Hr; simpl;
      [discriminate|].
    intros H. injection H as <-. left. eapply runs_raise; eauto.
Qed.

Lemma get_streak_loop_raise (gap : timedelta) (rest : list completion) :
  forall prev streak max_streak e,
    get_streak_loop gap prev rest streak max_streak = Raise e ->
    e = TypeError.
Proof.
  induction rest as [|cur rest IH]; intros prev streak max_streak e; simpl;
    [discriminate|].
  destruct (completion_sub cur prev) as [delta|e'] eqn:Hd; simpl.
  - destruct (timedelta_le delta gap); apply IH.
  - intros H. injection H as <-. eapply completion_sub_raise; eauto.
Qed.

Lemma get_streak_raise (h : Habit) (e : exn) :
  get_streak h = Raise e -> e = TypeError.
Proof.
  unfold get_streak.
  destruct (sorted (completions h)) as [s|e'] eqn:Hs; simpl.
  - destruct s as [|first rest]; simpl; [discriminate|].
    destruct (get_streak_loop _ first rest 0 0) as [r|e'] eqn:Hl; simpl;
      [discriminate|].
    intros H. injection H as <-. eapply get_streak_loop_raise; eauto.
  - intros H. injection H as <-. now apply sorted_raise in Hs.
Qed.

End Raises.

(** ** Streaks of a habit *)

Lemma period_cases (h : Habit) :
  period h = "daily"%string \/ period h = "weekly"%string ->
  threshold_of (period h) = 1 /\ period h = "daily"%string \/
  threshold_of (period h) = 7 /\ period h = "weekly"%string.
Proof.
  unfold threshold_of. intros [H|H]; rewrite H; simpl; auto.
Qed.

Lemma track_streaks_value (h : Habit) (s : list completion) :
  period h = "daily"%string \/ period h = "weekly"%string ->
  completions h <> [] -> sorted (completions h) = Ok s ->
  value (track_streaks h) = partition (threshold_of (period h)) s.
Proof.
  intros Hp Hc Hs. rewrite track_streaks_eq, Hs by assumption. simpl.
  destruct (partition _ s); reflexivity.
Qed.

Lemma chain_not_after_sorted (l : list completion) :
  chain not_after l -> StronglySorted not_after l.
Proof.
  induction 1 as [|a|a b l Hab Hch IH]; [constructor|repeat constructor|].
  constructor; [exact IH|].
  inversion IH as [|? ? _ Hall]; subst.
  constructor; [exact Hab|].
  eapply Forall_impl; [|exact Hall].
  intros c Hc. eapply not_after_trans; eauto.
Qed.

Lemma chain_impl (R S : completion -> completion -> Prop) (l : list completion) :
  (forall a b, R a b -> S a b) -> chain R l -> chain S l.
Proof. intros H. induction 1; constructor; auto. Qed.

Lemma chain_days_after_kind (k : Z) (l : list completion) :
  chain (days_after k) l ->
  of_kind (match l with c :: _ => is_date c | [] => true end) l.
Proof.
  induction 1 as [|a|a b l Hab Hch IH]; [constructor|repeat constructor|].
  pose proof (days_after_kind _ _ _ Hab) as E. simpl in IH.
  constructor; [reflexivity|]. rewrite E. exact IH.
Qed.

(** A habit whose completions are a rearrangement of a list spaced [k]
    days apart: the list is what [sorted] produces. *)
Lemma sorted_days_apart (k : Z) (l s : list completion) :
  0 < k -> chain (days_after k) s -> Permutation l s -> sorted l = Ok s.
Proof.
  intros Hk Hch Hp.
  eapply sorted_permutation; [apply (chain_days_after_kind k _ Hch)| |exact Hp].
  apply chain_not_after_sorted.
  eapply chain_impl; [|exact Hch].
  intros a b. now apply days_after_not_after.
Qed.

Lemma two_completions (h : Habit) (a b : completion) (k : Z) :
  period h = "daily"%string \/ period h = "weekly"%string ->
  Permutation (completions h) [a; b] -> 0 < k -> days_after k a b ->
  value (track_streaks h)
  = Ok (if k <=? threshold_of (period h) then [[a; b]] else [[a]; [b]]).
Proof.
  intros Hp Hperm Hk Hab.
  assert (Hne : completions h <> []).
  { intros E. rewrite E in Hperm. now apply Permutation_nil in Hperm. }
  assert (Hs : sorted (completions h) = Ok [a; b]).
  { apply (sorted_days_apart k); auto. repeat constructor. exact Hab. }
  rewrite (track_streaks_value h _ Hp Hne Hs), partition_runs.
  pose proof (days_after_sub _ _ _ Hab) as Hd.
  destruct (k <=? threshold_of (period h)) eqn:Hle.
  - apply Z.leb_le in Hle.
    rewrite (runs_within _ _ _ _ _ Hd) by (now rewrite days_timedelta_days).
    reflexivity.
  - apply Z.leb_gt in Hle.
    rewrite (runs_beyond _ _ _ _ _ Hd) by (now rewrite days_timedelta_days).
    reflexivity.
Qed.

Lemma calculate_streak_duration_span (k : Z) (first : completion)
      (rest : list completion) :
  days_after k first (last (first :: rest) first) ->
  calculate_streak_duration (first :: rest) = Ok (k + 1).
Proof.
  intros H. unfold calculate_streak_duration.
  rewrite (days_after_sub _ _ _ H). unfold rbind.
  now rewrite days_timedelta_days.
Qed.




(** ** Differences as elapsed time *)

(** [new_delta] keeps the total and normalises the two smaller fields. *)
Lemma new_delta_total (d s us : Z) :
  (days (new_delta d s us) * 86400 + seconds (new_delta d s us)) * 1000000
  + microseconds (new_delta d s us)
  = (d * 86400 + s) * 1000000 + us /\
  0 <= seconds (new_delta d s us) < 86400 /\
  0 <= microseconds (new_delta d s us) < 1000000.
Proof.
  unfold new_delta. cbn [days seconds microseconds].
  Z.to_euclidean_division_equations. lia.
Qed.

(** A difference of two completions is the time elapsed between them. *)
Lemma completion_sub_instant (a b : completion) (delta : timedelta) :
  completion_sub b a = Ok delta ->
  (days delta * 86400 + seconds delta) * 1000000 + microseconds delta
  = instant b - instant a /\
  0 <= seconds delta < 86400 /\ 0 <= microseconds delta < 1000000.
Proof.
  destruct a as [x|x], b as [y|y]; simpl; intros H; try discriminate;
    injection H as <-; unfold instant, day_us, time_of_day, calendar_day.
  - unfold date_sub.
    pose proof (new_delta_total (toordinal y - toordinal x) 0 0). lia.
  - unfold datetime_sub.
    pose proof (new_delta_total
                  (toordinal (dt_date y) - toordinal (dt_date x))
                  ((hour y - hour x) * 3600 + (minute y - minute x) * 60
                   + (second y - second x))
                  (microsecond y - microsecond x)). lia.
Qed.

(** [.days] is the number of whole days elapsed. *)
Lemma days_sub_instant (a b : completion) (delta : timedelta) :
  completion_sub b a = Ok delta ->
  days delta = (instant b - instant a) / day_us.
Proof.
  intros H. apply completion_sub_instant in H. unfold day_us.
  Z.to_euclidean_division_equations. lia.
Qed.

(** The test of [get_streak] compares the time elapsed with [n] days. *)
Lemma timedelta_le_instant (n : Z) (a b : completion) (delta : timedelta) :
  completion_sub b a = Ok delta ->
  timedelta_le delta (timedelta_days n)
  = (instant b - instant a <=? n * day_us).
Proof.
  intros H. apply completion_sub_instant in H.
  destruct H as (Ht & Hs & Hu). rewrite <- Ht.
  unfold timedelta_le, timedelta_key, timedelta_days, new_delta, day_us.
  cbn [days seconds microseconds lex_lt].
  replace ((0 + 0 / 1000000) / 86400) with 0 by reflexivity.
  replace ((0 + 0 / 1000000) mod 86400) with 0 by reflexivity.
  replace (0 mod 1000000) with 0 by reflexivity.
  rewrite Z.add_0_r, andb_false_r, orb_false_r.
  destruct (n <? days delta) eqn:E1, (n =? days delta) eqn:E2,
           (0 <? seconds delta) eqn:E3, (0 =? seconds delta) eqn:E4,
           (0 <? microseconds delta) eqn:E5;
    cbn [orb andb negb]; symmetry;
    rewrite ?Z.leb_le, ?Z.leb_gt;
    rewrite ?Z.ltb_lt, ?Z.ltb_ge, ?Z.eqb_eq, ?Z.eqb_neq in *; lia.
Qed.

Lemma gap_of_threshold (p : string) : gap_of p = timedelta_days (threshold_of p).
Proof. reflexivity. Qed.

(** The two tests, in elapsed time. *)
Lemma adjacent_close (n : Z) (a b : completion) :
  adjacent (timedelta_days n) a b <-> close n a b.
Proof.
  unfold adjacent, close. split.
  - intros (delta & Hd & Hle).
    rewrite (timedelta_le_instant n a b delta Hd) in Hle.
    apply Z.leb_le in Hle. split; [|exact Hle].
    destruct a, b; simpl in *; congruence.
  - intros [Hk Hle].
    destruct (completion_sub_ok b a) as [delta Hd]; [congruence|].
    exists delta. split; [exact Hd|].
    rewrite (timedelta_le_instant n a b delta Hd). now apply Z.leb_le.
Qed.

Lemma within_whole_days (n : Z) (a b : completion) :
  within n a b <->
  is_date a = is_date b /\ (instant b - instant a) / day_us <= n.
Proof.
  unfold within. split.
  - intros (delta & Hd & Hle). rewrite (days_sub_instant a b delta Hd) in Hle.
    split; [|exact Hle]. destruct a, b; simpl in *; congruence.
  - intros [Hk Hle].
    destruct (completion_sub_ok b a) as [delta Hd]; [congruence|].
    exists delta. split; [exact Hd|].
    now rewrite (days_sub_instant a b delta Hd).
Qed.

(** ** The boundary of a streak *)

(** Where the boundary is as expected: a single completion is one streak
    of duration 1; for a daily habit two completions one whole day apart
    are one streak and two whole days apart are two streaks; for a weekly
    habit seven whole days apart are one streak and eight are two.  The two
    completions are dates, or timestamps at the same time of day, stored in
    either order. *)
Lemma boundary_on_whole_days :
  (forall h c,
      period h = "daily"%string \/ period h = "weekly"%string ->
      completions h = [c] ->
      value (track_streaks h) = Ok [[c]] /\
      calculate_streak_duration [c] = Ok 1) /\
  (forall h a b,
      period h = "daily"%string -> Permutation (completions h) [a; b] ->
      (days_after 1 a b -> value (track_streaks h) = Ok [[a; b]]) /\
      (days_after 2 a b -> value (track_streaks h) = Ok [[a]; [b]])) /\
  (forall h a b,
      period h = "weekly"%string -> Permutation (completions h) [a; b] ->
      (days_after 7 a b -> value (track_streaks h) = Ok [[a; b]]) /\
      (days_after 8 a b -> value (track_streaks h) = Ok [[a]; [b]])).
Proof.
  split; [|split].
  - intros h c Hp Hc. split.
    + rewrite (track_streaks_value h [c] Hp); rewrite ?Hc;
        [reflexivity|discriminate|reflexivity].
    + destruct (completion_sub_self c) as (delta & Hd & H0).
      simpl. rewrite Hd. simpl. now rewrite H0.
  - intros h a b Hp Hperm. split; intros Hab.
    + rewrite (two_completions h a b 1) by (auto; lia).
      unfold threshold_of. now rewrite Hp.
    + rewrite (two_completions h a b 2) by (auto; lia).
      unfold threshold_of. now rewrite Hp.
  - intros h a b Hp Hperm. split; intros Hab.
    + rewrite (two_completions h a b 7) by (auto; lia).
      unfold threshold_of. now rewrite Hp.
    + rewrite (two_completions h a b 8) by (auto; lia).
      unfold threshold_of. now rewrite Hp.
Qed.

(** The test of the partitioners is on the whole days elapsed, not on the
    calendar days: two completions of one kind are within the threshold
    exactly when fewer than [threshold + 1] times 24 hours lie between
    them. *)
Lemma within_elapsed_time (threshold : Z) (a b : completion) :
  within threshold a b <->
  is_date a = is_date b /\ instant b - instant a < (threshold + 1) * day_us.
Proof.
  rewrite within_whole_days. unfold day_us.
  split; intros [Hk H]; (split; [exact Hk|]);
    Z.to_euclidean_division_equations; lia.
Qed.

(** C2: the boundary of the partitioner fails on the timestamps that
    [complete] stores.  Completing a daily habit on 1 May at 23:00 and on
    3 May at 01:00 stores two completions two calendar days apart, with no
    completion on 2 May; [track_streaks] returns them as one streak, because
    26 hours have [.days = 1].  The same two days as date objects are two
    streaks.  Likewise a weekly habit completed on 1 May at 23:00 and on
    9 May at 01:00, eight calendar days apart, has one streak, and the two
    dates have two. *)
Theorem a_streak_spans_a_day_without_completion :
  bind (complete (may_at 1 23 0)) (fun _ => complete (may_at 3 1 0))
       (Habit_init (may_at 1 9 0) "Reading" "daily")
  = Ok ([], a_habit "daily"
              [CDateTime (may_at 1 23 0); CDateTime (may_at 3 1 0)]) /\
  toordinal (dt_date (may_at 3 1 0)) = toordinal (dt_date (may_at 1 23 0)) + 2 /\
  value (track_streaks
           (a_habit "daily"
              [CDateTime (may_at 1 23 0); CDateTime (may_at 3 1 0)]))
  = Ok [[CDateTime (may_at 1 23 0); CDateTime (may_at 3 1 0)]] /\
  value (track_streaks (a_habit "daily" [CDate (may 1); CDate (may 3)]))
  = Ok [[CDate (may 1)]; [CDate (may 3)]] /\
  toordinal (dt_date (may_at 9 1 0)) = toordinal (dt_date (may_at 1 23 0)) + 8 /\
  value (track_streaks
           (a_habit "weekly"
              [CDateTime (may_at 1 23 0); CDateTime (may_at 9 1 0)]))
  = Ok [[CDateTime (may_at 1 23 0); CDateTime (may_at 9 1 0)]] /\
  value (track_streaks (a_habit "weekly" [CDate (may 1); CDate (may 9)]))
  = Ok [[CDate (may 1)]; [CDate (may 9)]].
Proof. repeat split; reflexivity. Qed.

Lemma valid_datetime_time_bounds (a : datetime) :
  valid_datetime a ->
  0 <= hour a < 24 /\ 0 <= minute a < 60 /\ 0 <= second a < 60 /\
  0 <= microsecond a < 1000000.
Proof.
  unfold valid_datetime, valid_datetimeb, valid_timeb. intros Va.
  apply andb_true_iff in Va. destruct Va as [_ Va].
  repeat (apply andb_true_iff in Va; destruct Va as [Va ?]).
  rewrite ?Z.leb_le, ?Z.ltb_lt in *. lia.
Qed.

(** ** Consecutive calendar days, at any time of day *)

Lemma time_of_day_bounds (c : completion) :
  valid_completionb c = true -> 0 <= time_of_day c < day_us.
Proof.
  destruct c as [d|t]; unfold day_us; simpl; intros H; [lia|].
  pose proof (valid_datetime_time_bounds t H). lia.
Qed.

Lemma valid_calendar_day (c : completion) :
  valid_completionb c = true -> valid_date (calendar_day c).
Proof.
  destruct c as [d|t]; simpl; intros H; [exact H|].
  unfold valid_datetimeb in H. apply andb_true_iff in H. apply H.
Qed.

Lemma on_the_next_day_inv (a b : completion) :
  on_the_next_day a b ->
  is_date a = is_date b /\
  valid_completionb a = true /\ valid_completionb b = true /\
  toordinal (calendar_day b) = toordinal (calendar_day a) + 1.
Proof.
  unfold on_the_next_day, next_dayb. rewrite !andb_true_iff, Z.eqb_eq.
  intros [[[Hk Ha] Hb] E]. apply eqb_prop in Hk. auto.
Qed.

(** A completion on a later calendar day sorts later. *)
Lemma later_day_not_after (a b : completion) :
  is_date a = is_date b ->
  valid_completionb a = true -> valid_completionb b = true ->
  toordinal (calendar_day a) < toordinal (calendar_day b) ->
  not_after a b.
Proof.
  intros Hk Va Vb Hlt. apply lt_not_after.
  apply valid_calendar_day in Va, Vb.
  destruct (toordinal_date_lt _ _ Va Vb Hlt) as [H1 H2].
  destruct a as [x|x], b as [y|y]; try discriminate; simpl in *.
  - now rewrite H1.
  - unfold datetime_lt, datetime_key. rewrite lex_lt_app by reflexivity.
    unfold date_lt in H1. now rewrite H1.
Qed.

Lemma next_day_not_after (a b : completion) :
  on_the_next_day a b -> not_after a b.
Proof.
  intros H. apply on_the_next_day_inv in H. destruct H as (Hk & Va & Vb & E).
  apply later_day_not_after; auto. lia.
Qed.

(** The next day is less than two days later, at whatever time. *)
Lemma next_day_within (a b : completion) :
  on_the_next_day a b -> within 1 a b.
Proof.
  intros H. apply on_the_next_day_inv in H. destruct H as (Hk & Va & Vb & E).
  apply within_whole_days. split; [exact Hk|].
  pose proof (time_of_day_bounds a Va). pose proof (time_of_day_bounds b Vb).
  unfold instant. rewrite E. unfold day_us in *.
  Z.to_euclidean_division_equations. lia.
Qed.

Lemma chain_next_day_kind (l : list completion) :
  chain on_the_next_day l ->
  of_kind (match l with c :: _ => is_date c | [] => true end) l.
Proof.
  induction 1 as [|a|a b l Hab Hch IH]; [constructor|repeat constructor|].
  apply on_the_next_day_inv in Hab. destruct Hab as (E & _).
  simpl in IH. constructor; [reflexivity|]. rewrite E. exact IH.
Qed.

(** The last of consecutive days is as many days after the first as there
    are steps. *)
Lemma chain_next_day_span (rest : list completion) :
  forall a d,
    chain on_the_next_day (a :: rest) -> valid_completionb a = true ->
    is_date (last (a :: rest) d) = is_date a /\
    valid_completionb (last (a :: rest) d) = true /\
    toordinal (calendar_day (last (a :: rest) d))
    = toordinal (calendar_day a) + Z.of_nat (List.length rest).
Proof.
  induction rest as [|b rest IH]; intros a d H Va.
  - simpl. repeat split; auto. lia.
  - inversion H as [| |? ? ? Hab H']; subst.
    apply on_the_next_day_inv in Hab. destruct Hab as (Hk & _ & Vb & E).
    destruct (IH b d H' Vb) as (Hk' & Vl & El).
    change (last (a :: b :: rest) d) with (last (b :: rest) d).
    repeat split; auto.
    + congruence.
    + rewrite El, E. cbn [List.length]. lia.
Qed.

(** A daily habit whose completions are consecutive calendar days, of one
    kind: one streak, whose duration counts the days when the last
    completion is not earlier in the day than the first, and one day less
    when it is. *)
Lemma consecutive_days_one_streak (h : Habit) (dates : list completion) :
  period h = "daily"%string -> dates <> [] ->
  Forall (fun c => valid_completionb c = true) dates ->
  chain on_the_next_day dates -> Permutation (completions h) dates ->
  track_streaks h = Ok ([dates], h) /\
  forall first, In first (firstn 1 dates) ->
    calculate_streak_duration dates
    = Ok (Z.of_nat (List.length dates)
          - (if time_of_day (last dates first) <? time_of_day first
             then 1 else 0)).
Proof.
  intros Hp Hne Hv Hch Hperm.
  assert (Hs : sorted (completions h) = Ok dates).
  { eapply sorted_permutation; [apply (chain_next_day_kind _ Hch)| |exact Hperm].
    apply chain_not_after_sorted. eapply chain_impl; [|exact Hch].
    exact next_day_not_after. }
  assert (Hne' : completions h <> []).
  { intros E. rewrite E in Hperm. apply Permutation_nil in Hperm. congruence. }
  split.
  - rewrite track_streaks_eq, Hs by auto. cbn [rbind].
    unfold threshold_of. rewrite Hp. cbn [String.eqb Ascii.eqb Bool.eqb].
    rewrite partition_single; [reflexivity|exact Hne|].
    eapply chain_impl; [|exact Hch]. exact next_day_within.
  - destruct dates as [|a rest]; [congruence|].
    intros first [<-|[]].
    inversion Hv as [|? ? Va _]; subst.
    destruct (chain_next_day_span rest a a Hch Va) as (Hk & Vl & El).
    unfold calculate_streak_duration.
    destruct (completion_sub_ok (last (a :: rest) a) a) as [delta Hd];
      [exact Hk|].
    rewrite Hd. cbn [rbind]. f_equal.
    rewrite (days_sub_instant _ _ _ Hd).
    pose proof (time_of_day_bounds a Va) as Ba.
    pose proof (time_of_day_bounds _ Vl) as Bl.
    unfold instant. rewrite El.
    replace (Z.of_nat (List.length (a :: rest)))
      with (Z.of_nat (List.length rest) + 1)
      by (cbn [List.length]; lia).
    unfold day_us in *.
    destruct (time_of_day (last (a :: rest) a) <? time_of_day a) eqn:E;
      [apply Z.ltb_lt in E|apply Z.ltb_ge in E];
      Z.to_euclidean_division_equations; nia.
Qed.

(** The three metrics of a habit with a single streak. *)
Lemma single_streak_metrics (h h' : Habit) (streak : list completion) (d : Z) :
  track_streaks h = Ok ([streak], h') ->
  calculate_streak_duration streak = Ok d ->
  value (calculate_average_streak_duration h) = Ok (inject_Z d) /\
  value (find_longest_streak h) = Ok d /\
  value (find_shortest_streak h) = Ok d.
Proof.
  intros Htrack Hdur.
  assert (Hsum : py_sum calculate_streak_duration 0 [streak] = Ok d)
    by (cbn [py_sum]; rewrite Hdur; reflexivity).
  assert (Hmax : py_max calculate_streak_duration (Some []) [streak] = Ok streak)
    by (unfold py_max, py_extremum; rewrite Hdur; reflexivity).
  assert (Hmin : py_min calculate_streak_duration (Some []) [streak] = Ok streak)
    by (unfold py_min, py_extremum; rewrite Hdur; reflexivity).
  repeat split.
  - unfold calculate_average_streak_duration, bind, lift.
    rewrite Htrack, Hsum. reflexivity.
  - unfold find_longest_streak, bind, lift. rewrite Htrack, Hmax, Hdur.
    reflexivity.
  - unfold find_shortest_streak, bind, lift. rewrite Htrack, Hmin, Hdur.
    reflexivity.
Qed.

(** C3 (amended): for a daily habit whose completions are six consecutive
    calendar days (six dates, or six timestamps at any times of those
    days), stored in any order, [track_streaks] yields exactly one streak,
    and the average, the longest and the shortest streak duration are all
    equal: to 6, the inclusive span, when the last completion is not
    earlier in the day than the first (dates always are such), and to 5
    when it is earlier in the day, as with the six clock readings of the
    unit test. *)
Theorem six_consecutive_days_are_one_streak_of_five_or_six
        (h : Habit) (c0 c1 c2 c3 c4 c5 : completion) :
  period h = "daily"%string ->
  on_the_next_day c0 c1 -> on_the_next_day c1 c2 -> on_the_next_day c2 c3 ->
  on_the_next_day c3 c4 -> on_the_next_day c4 c5 ->
  Permutation (completions h) [c0; c1; c2; c3; c4; c5] ->
  value (track_streaks h) = Ok [[c0; c1; c2; c3; c4; c5]] /\
  (time_of_day c0 <= time_of_day c5 ->
   value (calculate_average_streak_duration h) = Ok 6%Q /\
   value (find_longest_streak h) = Ok 6 /\
   value (find_shortest_streak h) = Ok 6) /\
  (time_of_day c5 < time_of_day c0 ->
   value (calculate_average_streak_duration h) = Ok 5%Q /\
   value (find_longest_streak h) = Ok 5 /\
   value (find_shortest_streak h) = Ok 5).
Proof.
  intros Hp H01 H12 H23 H34 H45 Hperm.
  assert (Hch : chain on_the_next_day [c0; c1; c2; c3; c4; c5])
    by (repeat constructor; assumption).
  assert (Hv : Forall (fun c => valid_completionb c = true)
                      [c0; c1; c2; c3; c4; c5]).
  { apply on_the_next_day_inv in H01, H12, H23, H34, H45.
    repeat constructor; tauto. }
  assert (Hne : [c0; c1; c2; c3; c4; c5] <> []) by discriminate.
  destruct (consecutive_days_one_streak h _ Hp Hne Hv Hch Hperm)
    as [Htrack Hdur].
  specialize (Hdur c0 (or_introl eq_refl)). cbn [last List.length] in Hdur.
  split; [now rewrite Htrack|]. split; intros Ht.
  - apply Z.ltb_ge in Ht. rewrite Ht in Hdur.
    exact (single_streak_metrics h h _ 6 Htrack Hdur).
  - apply Z.ltb_lt in Ht. rewrite Ht in Hdur.
    exact (single_streak_metrics h h _ 5 Htrack Hdur).
Qed.

Lemma six_consecutive_days_are_one_streak_of_five_or_six_witness :
  value (calculate_average_streak_duration
           (a_habit "daily"
              [CDateTime (may_at 6 9 30); CDateTime (may_at 5 9 45);
               CDateTime (may_at 4 8 0); CDateTime (may_at 3 23 59);
               CDateTime (may_at 2 0 0); CDateTime (may_at 1 9 30)]))
  = Ok 6%Q /\
  value (find_longest_streak
           (a_habit "daily"
              [CDateTime (may_at 1 23 0); CDateTime (may_at 2 12 0);
               CDateTime (may_at 3 12 0); CDateTime (may_at 4 12 0);
               CDateTime (may_at 5 12 0); CDateTime (may_at 6 1 0)]))
  = Ok 5.
Proof.
  split.
  - apply (six_consecutive_days_are_one_streak_of_five_or_six
             (a_habit "daily"
                [CDateTime (may_at 6 9 30); CDateTime (may_at 5 9 45);
                 CDateTime (may_at 4 8 0); CDateTime (may_at 3 23 59);
                 CDateTime (may_at 2 0 0); CDateTime (may_at 1 9 30)])
             (CDateTime (may_at 1 9 30)) (CDateTime (may_at 2 0 0))
             (CDateTime (may_at 3 23 59)) (CDateTime (may_at 4 8 0))
             (CDateTime (may_at 5 9 45)) (CDateTime (may_at 6 9 30)));
      try reflexivity.
    change [CDateTime (may_at 1 9 30); CDateTime (may_at 2 0 0);
            CDateTime (may_at 3 23 59); CDateTime (may_at 4 8 0);
            CDateTime (may_at 5 9 45); CDateTime (may_at 6 9 30)]
      with (rev [CDateTime (may_at 6 9 30); CDateTime (may_at 5 9 45);
                 CDateTime (may_at 4 8 0); CDateTime (may_at 3 23 59);
                 CDateTime (may_at 2 0 0); CDateTime (may_at 1 9 30)]).
    apply Permutation_rev.
  - apply (six_consecutive_days_are_one_streak_of_five_or_six
             (a_habit "daily"
                [CDateTime (may_at 1 23 0); CDateTime (may_at 2 12 0);
                 CDateTime (may_at 3 12 0); CDateTime (may_at 4 12 0);
                 CDateTime (may_at 5 12 0); CDateTime (may_at 6 1 0)])
             (CDateTime (may_at 1 23 0)) (CDateTime (may_at 2 12 0))
             (CDateTime (may_at 3 12 0)) (CDateTime (may_at 4 12 0))
             (CDateTime (may_at 5 12 0)) (CDateTime (may_at 6 1 0)));
      reflexivity.
Defined.

(** C3, as stated, fails on the completions the unit test builds: six
    clock readings, each a little later than the one before, moved back by
    0, 1, ..., 5 days.  They fall on six consecutive calendar days and form
    one streak, but the oldest is later in its day than the newest, so the
    span is 4 whole days and the three metrics are 5, the value the test
    asserts, not 6. *)
Lemma six_clock_readings_give_five :
  map calendar_day
      [CDateTime (mkdatetime (may 6) 9 30 0 0);
       CDateTime (mkdatetime (may 5) 9 30 0 1);
       CDateTime (mkdatetime (may 4) 9 30 0 2);
       CDateTime (mkdatetime (may 3) 9 30 0 3);
       CDateTime (mkdatetime (may 2) 9 30 0 4);
       CDateTime (mkdatetime (may 1) 9 30 0 5)]
  = [may 6; may 5; may 4; may 3; may 2; may 1] /\
  value (track_streaks
           (a_habit "daily"
              [CDateTime (mkdatetime (may 6) 9 30 0 0);
               CDateTime (mkdatetime (may 5) 9 30 0 1);
               CDateTime (mkdatetime (may 4) 9 30 0 2);
               CDateTime (mkdatetime (may 3) 9 30 0 3);
               CDateTime (mkdatetime (may 2) 9 30 0 4);
               CDateTime (mkdatetime (may 1) 9 30 0 5)]))
  = Ok [[CDateTime (mkdatetime (may 1) 9 30 0 5);
         CDateTime (mkdatetime (may 2) 9 30 0 4);
         CDateTime (mkdatetime (may 3) 9 30 0 3);
         CDateTime (mkdatetime (may 4) 9 30 0 2);
         CDateTime (mkdatetime (may 5) 9 30 0 1);
         CDateTime (mkdatetime (may 6) 9 30 0 0)]] /\
  value (calculate_average_streak_duration
           (a_habit "daily"
              [CDateTime (mkdatetime (may 6) 9 30 0 0);
               CDateTime (mkdatetime (may 5) 9 30 0 1);
               CDateTime (mkdatetime (may 4) 9 30 0 2);
               CDateTime (mkdatetime (may 3) 9 30 0 3);
               CDateTime (mkdatetime (may 2) 9 30 0 4);
               CDateTime (mkdatetime (may 1) 9 30 0 5)]))
  = Ok 5%Q /\
  value (find_longest_streak
           (a_habit "daily"
              [CDateTime (mkdatetime (may 6) 9 30 0 0);
               CDateTime (mkdatetime (may 5) 9 30 0 1);
               CDateTime (mkdatetime (may 4) 9 30 0 2);
               CDateTime (mkdatetime (may 3) 9 30 0 3);
               CDateTime (mkdatetime (may 2) 9 30 0 4);
               CDateTime (mkdatetime (may 1) 9 30 0 5)]))
  = Ok 5 /\
  value (find_shortest_streak
           (a_habit "daily"
              [CDateTime (mkdatetime (may 6) 9 30 0 0);
               CDateTime (mkdatetime (may 5) 9 30 0 1);
               CDateTime (mkdatetime (may 4) 9 30 0 2);
               CDateTime (mkdatetime (may 3) 9 30 0 3);
               CDateTime (mkdatetime (may 2) 9 30 0 4);
               CDateTime (mkdatetime (may 1) 9 30 0 5)]))
  = Ok 5 /\
  value (find_longest_streak
           (a_habit "daily"
              [CDateTime (mkdatetime (may 6) 9 30 0 0);
               CDateTime (mkdatetime (may 5) 9 30 0 1);
               CDateTime (mkdatetime (may 4) 9 30 0 2);
               CDateTime (mkdatetime (may 3) 9 30 0 3);
               CDateTime (mkdatetime (may 2) 9 30 0 4);
               CDateTime (mkdatetime (may 1) 9 30 0 5)]))
  <> Ok 6.
Proof. repeat split; try reflexivity. discriminate. Qed.

Lemma track_streaks_no_completion (h : Habit) :
  period h = "daily"%string \/ period h = "weekly"%string ->
  completions h = [] -> track_streaks h = Ok ([], h).
Proof.
  intros Hp Hc. unfold track_streaks, bind, get_period.
  destruct Hp as [Hp|Hp]; rewrite Hp; simpl.
  - unfold _track_daily_streaks, bind, get_completions. now rewrite Hc.
  - unfold _track_weekly_streaks, bind, get_completions. now rewrite Hc.
Qed.

(** C9: a habit with a valid period and no completion: [track_streaks]
    returns the empty list and the three metrics return 0; nothing is
    raised and the habit is unchanged. *)
Theorem no_completion_is_not_an_error (h : Habit) :
  period h = "daily"%string \/ period h = "weekly"%string ->
  completions h = [] ->
  track_streaks h = Ok ([], h) /\
  calculate_average_streak_duration h = Ok (0%Q, h) /\
  find_longest_streak h = Ok (0, h) /\
  find_shortest_streak h = Ok (0, h).
Proof.
  intros Hp Hc.
  pose proof (track_streaks_no_completion h Hp Hc) as Htrack.
  repeat split.
  - exact Htrack.
  - unfold calculate_average_streak_duration, bind. now rewrite Htrack.
  - unfold find_longest_streak, bind. now rewrite Htrack.
  - unfold find_shortest_streak, bind. now rewrite Htrack.
Qed.

Lemma no_completion_is_not_an_error_witness :
  track_streaks (a_habit "weekly" []) = Ok ([], a_habit "weekly" []) /\
  find_longest_streak (a_habit "weekly" []) = Ok (0, a_habit "weekly" []).
Proof.
  destruct (no_completion_is_not_an_error (a_habit "weekly" []))
    as (H1 & _ & H3 & _).
  - right; reflexivity.
  - reflexivity.
  - split; assumption.
Defined.

(** C6: a habit whose period is neither daily nor weekly: [track_streaks]
    raises [ValueError] whatever the completions are, and the three metrics
    built on it let the same error through.  It is the only validation:
    [track_streaks] raises [ValueError] for no other reason, and
    [get_streak], which reads the period too, never raises it. *)
Theorem unknown_period_raises_value_error :
  (forall h,
      period h <> "daily"%string -> period h <> "weekly"%string ->
      let e := ValueError (UnknownPeriod ("Unknown habit period: " ++ period h)) in
      track_streaks h = Raise e /\
      calculate_average_streak_duration h = Raise e /\
      find_longest_streak h = Raise e /\
      find_shortest_streak h = Raise e) /\
  (forall h why,
      track_streaks h = Raise (ValueError why) ->
      period h <> "daily"%string /\ period h <> "weekly"%string) /\
  (forall h why, get_streak h <> Raise (ValueError why)).
Proof.
  split; [|split].
  - intros h Hd Hw e.
    assert (Htrack : track_streaks h = Raise e).
    { unfold track_streaks, bind, get_period.
      apply String.eqb_neq in Hd, Hw. now rewrite Hd, Hw. }
    repeat split.
    + exact Htrack.
    + unfold calculate_average_streak_duration, bind. now rewrite Htrack.
    + unfold find_longest_streak, bind. now rewrite Htrack.
    + unfold find_shortest_streak, bind. now rewrite Htrack.
  - intros h why H.
    destruct (String.eqb (period h) "daily") eqn:Hd;
      [|destruct (String.eqb (period h) "weekly") eqn:Hw].
    3: { apply String.eqb_neq in Hd, Hw. tauto. }
    all: exfalso.
    all: assert (Hp : period h = "daily"%string \/ period h = "weekly"%string)
        by (rewrite <- !String.eqb_eq; auto).
    all: destruct (completions h) as [|c cs] eqn:Hc;
      [ pose proof (track_streaks_no_completion h Hp Hc); congruence |].
    all: rewrite track_streaks_eq in H by (auto; congruence).
    all: destruct (sorted (completions h)) as [s|e] eqn:Hs;
      [|apply sorted_raise in Hs; simpl in H; destruct Hs; congruence].
    all: simpl in H.
    all: destruct (partition (threshold_of (period h)) s) as [r|e] eqn:Hpart;
      [discriminate|].
    all: apply partition_raise in Hpart; simpl in H;
      destruct Hpart; congruence.
  - intros h why H. apply get_streak_raise in H. discriminate.
Qed.

Lemma unknown_period_raises_value_error_witness :
  track_streaks (a_habit "monthly" [CDate (may 1); CDateTime (may_at 2 9 0)])
  = Raise (ValueError (UnknownPeriod "Unknown habit period: monthly")).
Proof.
  destruct unknown_period_raises_value_error as (H & _ & _).
  apply (H (a_habit "monthly" [CDate (may 1); CDateTime (may_at 2 9 0)]));
    discriminate.
Defined.

(** ** Writing and reading dates *)

Section TextFacts.

Lemma append_assoc (a b c : string) :
  ((a ++ b) ++ c = a ++ (b ++ c))%string.
Proof. induction a; simpl; congruence. Qed.

Lemma append_nil_r (a : string) : (a ++ EmptyString = a)%string.
Proof. induction a; simpl; congruence. Qed.

Lemma digit_cases (n : Z) :
  n mod 10 = 0 \/ n mod 10 = 1 \/ n mod 10 = 2 \/ n mod 10 = 3 \/
  n mod 10 = 4 \/ n mod 10 = 5 \/ n mod 10 = 6 \/ n mod 10 = 7 \/
  n mod 10 = 8 \/ n mod 10 = 9.
Proof. pose proof (Z.mod_pos_bound n 10 ltac:(lia)). lia. Qed.

Lemma digit_of_digit_char (n : Z) (rest : string) :
  digit (String (digit_char n) rest) = Some (n mod 10, rest).
Proof.
  unfold digit, class, digit_char.
  destruct (digit_cases n) as [E|[E|[E|[E|[E|[E|[E|[E|[E|E]]]]]]]]];
    rewrite E; reflexivity.
Qed.

Lemma directive_Y_zero_padded (y : Z) (rest : string) :
  0 <= y <= 9999 ->
  directive_Y (zero_padded 4 y ++ rest)%string = Some (y, rest).
Proof.
  intros Hy. cbn [zero_padded String.append]. unfold directive_Y, pbind.
  rewrite !digit_of_digit_char. unfold pret. do 2 f_equal.
  Z.to_euclidean_division_equations. lia.
Qed.

Lemma directive_m_zero_padded (m : Z) (rest : string) :
  1 <= m <= 12 ->
  directive_m (zero_padded 2 m ++ rest)%string = Some (m, rest).
Proof.
  intros Hm.
  destruct (month_cases m Hm) as [E|[E|[E|[E|[E|[E|[E|[E|[E|[E|[E|E]]]]]]]]]]];
    subst m; reflexivity.
Qed.

Lemma directive_d_zero_padded (d : Z) (rest : string) :
  1 <= d <= 31 ->
  directive_d (zero_padded 2 d ++ rest)%string = Some (d, rest).
Proof.
  intros Hd.
  assert (H : exists n, d = Z.of_nat n /\ (n <= 31)%nat)
    by (exists (Z.to_nat d); lia).
  destruct H as (n & -> & Hn).
  do 32 (destruct n as [|n]; [try lia; reflexivity|]). lia.
Qed.

Lemma days_in_month_le_31 (y m : Z) : _days_in_month y m <= 31.
Proof.
  unfold _days_in_month. destruct ((m =? 2) && _is_leap y); [lia|].
  unfold _DAYS_IN_MONTH.
  destruct m as [|p|p]; try lia.
  do 4 (destruct p as [p|p|]; try lia).
Qed.

(** The regular expression reads back exactly what [str] wrote for a
    date, and leaves whatever follows it. *)
Lemma format_regex_str_date (d : date) (rest : string) :
  valid_date d -> format_regex (str_date d ++ rest)%string = Some (d, rest).
Proof.
  intros Hv. apply valid_date_bounds in Hv.
  destruct Hv as (Hy & Hm & Hd).
  pose proof (days_in_month_le_31 (year d) (month d)).
  unfold str_date, format_regex, pbind.
  rewrite !append_assoc.
  rewrite directive_Y_zero_padded by lia. cbn [String.append lit].
  cbn [Ascii.eqb Bool.eqb].
  rewrite directive_m_zero_padded by lia. cbn [String.append lit].
  cbn [Ascii.eqb Bool.eqb].
  rewrite directive_d_zero_padded by lia.
  destruct d; reflexivity.
Qed.

Lemma strptime_str_date (d : date) :
  valid_date d -> strptime (str_date d) = Ok (mkdatetime d 0 0 0 0).
Proof.
  intros Hv. unfold strptime.
  rewrite <- (append_nil_r (str_date d)).
  rewrite format_regex_str_date by exact Hv. now rewrite Hv.
Qed.

Lemma strptime_str_datetime (t : datetime) :
  valid_date (dt_date t) ->
  strptime (str_datetime t) = Raise (ValueError BadDateString).
Proof.
  intros Hv. unfold strptime, str_datetime.
  rewrite format_regex_str_date by exact Hv. reflexivity.
Qed.

Lemma strptime_raise (s : string) (e : exn) :
  strptime s = Raise e -> e = ValueError BadDateString.
Proof.
  unfold strptime. destruct (format_regex s) as [[d [|c rest]]|];
    try destruct (valid_dateb d); congruence.
Qed.

Lemma parse_completions_raise (l : list string) (e : exn) :
  parse_completions l = Raise e -> e = ValueError BadDateString.
Proof.
  induction l as [|s l IH]; simpl; [discriminate|].
  destruct (strptime s) as [t|e'] eqn:Hs; simpl.
  - destruct (parse_completions l) as [r|e'']; simpl; [discriminate|].
    intros H. injection H as <-. now apply IH.
  - intros H. injection H as <-. now apply strptime_raise in Hs.
Qed.

(** Saved dates are read back one for one. *)
Lemma parse_completions_dates (cs : list completion) :
  Forall (fun c => is_date c = true /\ valid_completionb c = true) cs ->
  parse_completions (map str_completion cs) = Ok cs.
Proof.
  induction 1 as [|c cs [Hk Hv] _ IH]; [reflexivity|].
  destruct c as [d|t]; [|discriminate]. simpl.
  rewrite strptime_str_date by exact Hv. simpl. now rewrite IH.
Qed.

(** One saved timestamp makes the whole list unreadable. *)
Lemma parse_completions_datetime (cs : list completion) (t : datetime) :
  In (CDateTime t) cs -> valid_datetime t ->
  parse_completions (map str_completion cs) = Raise (ValueError BadDateString).
Proof.
  intros Hin Hv.
  destruct (parse_completions (map str_completion cs)) as [r|e] eqn:Hp;
    [|now apply parse_completions_raise in Hp; subst].
  exfalso. revert r Hp. induction cs as [|c cs IH]; [destruct Hin|].
  intros r. simpl.
  destruct Hin as [->|Hin].
  - simpl. rewrite strptime_str_datetime; [discriminate|].
    unfold valid_datetime, valid_datetimeb in Hv.
    apply andb_true_iff in Hv. apply Hv.
  - destruct (strptime (str_completion c)); simpl; [|discriminate].
    destruct (parse_completions (map str_completion cs)) as [r'|];
      simpl; [|discriminate].
    intros _. now apply (IH Hin r').
Qed.

End TextFacts.

(** Saving a habit whose completions are all dates and loading it again
    gives back its name, its period and its completions. *)
Lemma saved_dates_load_back (now : datetime) (h : Habit) :
  Forall (fun c => is_date c = true /\ valid_completionb c = true)
         (completions h) ->
  from_dict now (habit_data_of h)
  = Ok (mkHabit (name h) (period h) (str_datetime now) (completions h)).
Proof.
  intros H. unfold from_dict, habit_data_of. cbn [data_completions].
  rewrite parse_completions_dates by exact H. reflexivity.
Qed.

(** Saving a habit that holds a timestamp and loading it again raises. *)
Lemma saved_datetime_does_not_load (now : datetime) (h : Habit) (t : datetime) :
  In (CDateTime t) (completions h) -> valid_datetime t ->
  str_completion (CDateTime t) = str_datetime t /\
  from_dict now (habit_data_of h) = Raise (ValueError BadDateString).
Proof.
  intros Hin Hv. split; [reflexivity|].
  unfold from_dict, habit_data_of. cbn [data_completions].
  now rewrite (parse_completions_datetime _ t Hin Hv).
Qed.

(** C4, at the failing input: a habit completed through [complete] holds a
    timestamp; [save_to_file] writes it with its time of day, not as
    YYYY-MM-DD, and [from_dict] raises [ValueError] on the record instead
    of giving the completions back. *)
Theorem saved_timestamp_is_not_a_date_string (now : datetime) :
  data_completions
    (habit_data_of (a_habit "daily" [CDateTime (may_at 1 10 30)]))
  = ["2023-05-01 10:30:00"%string] /\
  from_dict now (habit_data_of (a_habit "daily" [CDateTime (may_at 1 10 30)]))
  = Raise (ValueError BadDateString).
Proof. split; reflexivity. Qed.

(** The round trip of the spec's example, two dates of a daily habit. *)
Remark two_saved_dates_load_back (now : datetime) :
  data_completions
    (habit_data_of (a_habit "daily" [CDate (may 1); CDate (may 2)]))
  = ["2023-05-01"%string; "2023-05-02"%string] /\
  from_dict now (habit_data_of (a_habit "daily" [CDate (may 1); CDate (may 2)]))
  = Ok (mkHabit "Reading" "daily" (str_datetime now)
          [CDate (may 1); CDate (may 2)]).
Proof. split; reflexivity. Qed.

(** ** Mutation of the stored list *)

Lemma daily_track_streaks_leaves_habit (h : Habit) r h' :
  period h = "daily"%string -> track_streaks h = Ok (r, h') -> h' = h.
Proof.
  intros Hp. unfold track_streaks, bind, get_period. rewrite Hp. simpl.
  unfold _track_daily_streaks, bind, get_completions, lift.
  destruct (completions h) as [|c cs].
  - unfold ret. congruence.
  - destruct (sorted (c :: cs)) as [s|e]; [|discriminate].
    destruct (partition 1 s); congruence.
Qed.

Lemma weekly_track_streaks_stores_sorted (h : Habit) r h' :
  period h = "weekly"%string -> completions h <> [] ->
  track_streaks h = Ok (r, h') ->
  sorted (completions h) = Ok (completions h').
Proof.
  intros Hp Hne. rewrite track_streaks_eq by auto. rewrite Hp. simpl.
  destruct (sorted (completions h)) as [s|e]; simpl; [|discriminate].
  destruct (partition _ s); simpl; [|discriminate].
  intros H. injection H as _ <-. reflexivity.
Qed.

(** C5, at the failing input: a weekly habit whose completions are stored
    latest first; after [track_streaks] the stored list is in ascending
    order. *)
Theorem weekly_track_streaks_reorders_completions :
  track_streaks (a_habit "weekly" [CDate (may 8); CDate (may 1)])
  = Ok ([[CDate (may 1); CDate (may 8)]],
        a_habit "weekly" [CDate (may 1); CDate (may 8)]).
Proof. reflexivity. Qed.

(** ** [complete] *)

Lemma any_completed_on_datetimes (today : date) (cs : list completion) :
  of_kind false cs ->
  any_completed_on today cs
  = Ok (existsb (fun c => match c with
                          | CDateTime t => date_eqb today (dt_date t)
                          | CDate _ => false
                          end) cs).
Proof.
  induction 1 as [|c cs Hc _ IH]; [reflexivity|].
  destruct c as [d|t]; [discriminate|]. simpl.
  destruct (date_eqb today (dt_date t)); [reflexivity|exact IH].
Qed.

Lemma date_eqb_refl (d : date) : date_eqb d d = true.
Proof. unfold date_eqb. now rewrite !Z.eqb_refl. Qed.

Lemma date_eqb_eq (a b : date) : date_eqb a b = true <-> a = b.
Proof.
  unfold date_eqb. rewrite !andb_true_iff, !Z.eqb_eq.
  destruct a, b; simpl. split.
  - intros [[? ?] ?]. congruence.
  - intros H. injection H. auto.
Qed.

(** On a habit that holds timestamps only, [complete] is idempotent per
    day: with a completion on the current day it changes nothing, otherwise
    it appends the current instant, and a second call on that day changes
    nothing more. *)
Lemma complete_on_timestamps (now : datetime) (h : Habit) :
  of_kind false (completions h) ->
  ((exists t, In (CDateTime t) (completions h) /\ dt_date t = dt_date now) ->
   complete now h = Ok (["Habit already completed for today."%string], h)) /\
  ((forall t, In (CDateTime t) (completions h) -> dt_date t <> dt_date now) ->
   complete now h
   = Ok ([], with_completions h (completions h ++ [CDateTime now]))) /\
  (forall out h' later,
      complete now h = Ok (out, h') -> dt_date later = dt_date now ->
      complete later h'
      = Ok (["Habit already completed for today."%string], h')).
Proof.
  intros Hk.
  assert (Hhit : forall now0 h0,
             of_kind false (completions h0) ->
             (exists t, In (CDateTime t) (completions h0) /\
                        dt_date t = dt_date now0) ->
             complete now0 h0
             = Ok (["Habit already completed for today."%string], h0)).
  { intros now0 h0 Hk0 (t & Hin & Ht).
    unfold complete, bind, get_completions, lift.
    rewrite any_completed_on_datetimes by exact Hk0.
    replace (existsb _ (completions h0)) with true; [reflexivity|].
    symmetry. apply existsb_exists. exists (CDateTime t). split; [exact Hin|].
    rewrite Ht. apply date_eqb_refl. }
  assert (Hmiss : (forall t, In (CDateTime t) (completions h) ->
                             dt_date t <> dt_date now) ->
                  complete now h
                  = Ok ([], with_completions h (completions h ++ [CDateTime now]))).
  { intros Hno. unfold complete, bind, get_completions, lift.
    rewrite any_completed_on_datetimes by exact Hk.
    replace (existsb _ (completions h)) with false; [reflexivity|].
    symmetry. apply not_true_is_false. intros He.
    apply existsb_exists in He. destruct He as ([d|t] & Hin & Ht);
      [discriminate|].
    apply date_eqb_eq in Ht. now apply (Hno t Hin). }
  split; [apply Hhit; exact Hk|]. split; [exact Hmiss|].
  intros out h' later Hc Hlater.
  assert (Hk' : of_kind false (completions h') /\
                exists t, In (CDateTime t) (completions h') /\
                          dt_date t = dt_date now).
  { unfold complete, bind, get_completions, lift in Hc.
    rewrite any_completed_on_datetimes in Hc by exact Hk.
    destruct (existsb _ (completions h)) eqn:He.
    - injection Hc as <- <-. split; [exact Hk|].
      apply existsb_exists in He. destruct He as ([d|t] & Hin & Ht);
        [discriminate|].
      apply date_eqb_eq in Ht. eauto.
    - injection Hc as <- <-. simpl. split.
      + apply Forall_app. split; [exact Hk|]. repeat constructor.
      + exists now. split; [|reflexivity]. apply in_or_app. right. now left. }
  destruct Hk' as [Hk' (t & Hin & Ht)].
  apply Hhit; [exact Hk'|]. exists t. split; [exact Hin|congruence].
Qed.

(** C7, at the failing input: a habit read from the file holds dates; on
    the next day [complete] raises [AttributeError] and appends nothing. *)
Theorem complete_raises_on_a_loaded_habit :
  from_dict (may_at 2 9 0)
    (mkhabit_data "Reading" "daily" "2023-05-01 09:00:00" ["2023-05-01"%string])
  = Ok (mkHabit "Reading" "daily" "2023-05-02 09:00:00" [CDate (may 1)]) /\
  complete (may_at 2 10 0)
    (mkHabit "Reading" "daily" "2023-05-02 09:00:00" [CDate (may 1)])
  = Raise AttributeError.
Proof. split; reflexivity. Qed.

(** ** [get_streak] and [longest_run_streak] *)

Section LongestRun.

Lemma get_streak_loop_single (gap : timedelta) (rest : list completion) :
  forall prev streak max_streak,
    chain (adjacent gap) (prev :: rest) ->
    get_streak_loop gap prev rest streak max_streak
    = Ok (streak + Z.of_nat (List.length rest), max_streak).
Proof.
  induction rest as [|cur rest IH]; intros prev streak max_streak H.
  - simpl. do 2 f_equal. lia.
  - inversion H as [| |? ? ? [delta [Hd Hle]] H']; subst.
    cbn [get_streak_loop]. rewrite Hd. cbn [rbind]. rewrite Hle.
    rewrite (IH cur _ _ H'). do 2 f_equal. cbn [List.length]. lia.
Qed.

Lemma get_streak_loop_total (gap : timedelta) (k : bool)
      (rest : list completion) :
  forall prev streak max_streak,
    of_kind k (prev :: rest) ->
    exists r, get_streak_loop gap prev rest streak max_streak = Ok r.
Proof.
  induction rest as [|cur rest IH]; intros prev streak max_streak Hk;
    simpl; [eauto|].
  inversion Hk as [|? ? Hp Hk']; subst. inversion Hk' as [|? ? Hc _]; subst.
  destruct (completion_sub_ok cur prev) as [delta Hd]; [congruence|].
  rewrite Hd. simpl. destruct (timedelta_le delta gap); apply IH; exact Hk'.
Qed.

Lemma get_streak_single_run (h : Habit) (dates : list completion) :
  sorted (completions h) = Ok dates -> dates <> [] ->
  chain (adjacent (gap_of (period h))) dates ->
  get_streak h = Ok (Z.of_nat (List.length dates) - 1).
Proof.
  intros Hs Hne Hch. unfold get_streak. rewrite Hs. cbn [rbind].
  destruct dates as [|first rest]; [congruence|].
  rewrite (get_streak_loop_single _ rest first 0 0 Hch). cbn [rbind fst snd].
  f_equal. cbn [List.length]. lia.
Qed.

Lemma get_streak_at_most_one (h : Habit) :
  (List.length (completions h) <= 1)%nat -> get_streak h = Ok 0.
Proof.
  unfold get_streak. destruct (completions h) as [|c [|c' cs]]; simpl;
    intros H; try reflexivity. lia.
Qed.

Lemma get_streak_total (h : Habit) :
  homogeneous (completions h) = true -> exists k, get_streak h = Ok k.
Proof.
  intros Hh. apply homogeneous_of_kind in Hh. destruct Hh as [k Hk].
  destruct (sorted_spec k _ Hk) as (s & Hs & _ & Hks & _).
  unfold get_streak. rewrite Hs. cbn [rbind].
  destruct s as [|first rest]; [simpl; eauto|].
  destruct (get_streak_loop_total (gap_of (period h)) k rest first 0 0 Hks)
    as [r Hr].
  rewrite Hr. simpl. eauto.
Qed.

Lemma get_streak_mixed (h : Habit) :
  homogeneous (completions h) = false -> get_streak h = Raise TypeError.
Proof.
  intros Hh. unfold get_streak. now rewrite (sorted_mixed _ Hh).
Qed.

(** [max] keeps the first habit whose key is the largest. *)
Lemma py_best_first_maximal (l : list Habit) :
  forall before best best_key after r,
    get_streak best = Ok best_key ->
    (forall x, In x before -> exists kx, get_streak x = Ok kx /\ kx < best_key) ->
    (forall x, In x after -> exists kx, get_streak x = Ok kx /\ kx <= best_key) ->
    py_best is_greater get_streak best best_key l = Ok r ->
    first_maximal (before ++ best :: after ++ l) r.
Proof.
  induction l as [|x l IH]; intros before best kb after r Hb Hbefore Hafter.
  - simpl. intros H. injection H as <-. rewrite app_nil_r.
    exists before, after, kb. auto.
  - simpl. destruct (get_streak x) as [kx|e] eqn:Hx; simpl; [|discriminate].
    unfold is_greater at 1. destruct (kb <? kx) eqn:Hlt; intros H.
    + apply Z.ltb_lt in Hlt.
      replace (before ++ best :: after ++ x :: l)
        with ((before ++ best :: after) ++ x :: [] ++ l)
        by (now rewrite <- app_assoc).
      apply (IH _ x kx [] r Hx); [| |exact H].
      * intros y Hy. apply in_app_or in Hy. destruct Hy as [Hy|[<-|Hy]].
        -- destruct (Hbefore y Hy) as (ky & ? & ?). exists ky. split; [auto|lia].
        -- exists kb. split; [auto|lia].
        -- destruct (Hafter y Hy) as (ky & ? & ?). exists ky. split; [auto|lia].
      * intros y [].
    + apply Z.ltb_ge in Hlt.
      replace (before ++ best :: after ++ x :: l)
        with (before ++ best :: (after ++ [x]) ++ l)
        by (now rewrite <- app_assoc).
      apply (IH _ best kb (after ++ [x]) r Hb Hbefore); [|exact H].
      intros y Hy. apply in_app_or in Hy. destruct Hy as [Hy|[<-|[]]].
      * now apply Hafter.
      * exists kx. split; [auto|lia].
Qed.

Lemma py_best_total (l : list Habit) :
  forall best best_key,
    Forall (fun x => homogeneous (completions x) = true) l ->
    exists r, py_best is_greater get_streak best best_key l = Ok r.
Proof.
  induction l as [|x l IH]; intros best kb H; simpl; [eauto|].
  inversion H as [|? ? Hx Hl]; subst.
  destruct (get_streak_total x Hx) as [kx Hk]. rewrite Hk. simpl.
  destruct (is_greater kx kb); apply IH; exact Hl.
Qed.

Lemma py_best_keys (l : list Habit) :
  forall best best_key r,
    py_best is_greater get_streak best best_key l = Ok r ->
    Forall (fun x => homogeneous (completions x) = true) l.
Proof.
  induction l as [|x l IH]; intros best kb r; simpl; [constructor|].
  destruct (get_streak x) as [kx|e] eqn:Hx; simpl; [|discriminate].
  intros H. constructor.
  - destruct (homogeneous (completions x)) eqn:Hh; [reflexivity|].
    rewrite (get_streak_mixed x Hh) in Hx. discriminate.
  - destruct (is_greater kx kb); eapply IH; exact H.
Qed.

Lemma py_best_raise (l : list Habit) :
  forall best best_key e,
    py_best is_greater get_streak best best_key l = Raise e -> e = TypeError.
Proof.
  induction l as [|x l IH]; intros best kb e; simpl; [discriminate|].
  destruct (get_streak x) as [kx|e'] eqn:Hx; simpl.
  - destruct (is_greater kx kb); apply IH.
  - intros H. injection H as <-. now apply get_streak_raise in Hx.
Qed.

(** What [longest_run_streak] returns, when it returns. *)
Lemma longest_run_streak_first_maximal (t : HabitTracker) (nm : string) :
  longest_run_streak t = Ok nm ->
  exists h, first_maximal (habits t) h /\ name h = nm.
Proof.
  unfold longest_run_streak, py_max, py_extremum.
  destruct (habits t) as [|h0 l]; simpl; [discriminate|].
  destruct (get_streak h0) as [k0|e] eqn:H0; simpl; [|discriminate].
  destruct (py_best is_greater get_streak h0 k0 l) as [r|e] eqn:Hr; simpl;
    [|discriminate].
  intros H. injection H as <-. exists r. split; [|reflexivity].
  apply (py_best_first_maximal l [] h0 k0 [] r H0); auto;
    intros x [].
Qed.

(** It returns on every non-empty tracker whose habits each hold
    completions of one kind. *)
Lemma longest_run_streak_total (t : HabitTracker) :
  habits t <> [] ->
  Forall (fun x => homogeneous (completions x) = true) (habits t) ->
  exists nm, longest_run_streak t = Ok nm.
Proof.
  unfold longest_run_streak, py_max, py_extremum.
  destruct (habits t) as [|h0 l]; [congruence|]. intros _ H.
  inversion H as [|? ? H0 Hl]; subst.
  destruct (get_streak_total h0 H0) as [k0 Hk]. rewrite Hk. cbn [rbind].
  destruct (py_best_total l h0 k0 Hl) as [r Hr]. rewrite Hr. simpl. eauto.
Qed.

(** On such a tracker it returns the name of the first habit with the
    largest [get_streak]. *)
Lemma longest_run_streak_spec (t : HabitTracker) :
  habits t <> [] ->
  Forall (fun x => homogeneous (completions x) = true) (habits t) ->
  exists h, In h (habits t) /\ first_maximal (habits t) h /\
            longest_run_streak t = Ok (name h).
Proof.
  intros Hne Hall.
  destruct (longest_run_streak_total t Hne Hall) as [nm Hnm].
  destruct (longest_run_streak_first_maximal t nm Hnm) as (h & Hh & <-).
  exists h. repeat split; auto.
  destruct Hh as (before & after & k & E & _). rewrite E.
  apply in_or_app. right. now left.
Qed.

(** A habit that mixes dates and timestamps makes it raise. *)
Lemma longest_run_streak_mixed (t : HabitTracker) :
  Exists (fun x => homogeneous (completions x) = false) (habits t) ->
  longest_run_streak t = Raise TypeError.
Proof.
  unfold longest_run_streak, py_max, py_extremum.
  destruct (habits t) as [|h0 l]; intros H; [inversion H|].
  destruct (get_streak h0) as [k0|e] eqn:H0; cbn [rbind].
  - destruct (py_best is_greater get_streak h0 k0 l) as [r|e] eqn:Hr; cbn [rbind].
    + exfalso. apply py_best_keys in Hr.
      inversion H as [? ? Hbad|? ? Hbad]; subst.
      * rewrite (get_streak_mixed h0 Hbad) in H0. discriminate.
      * apply Exists_exists in Hbad. destruct Hbad as (x & Hin & Hx).
        rewrite Forall_forall in Hr. specialize (Hr x Hin). congruence.
    + now apply py_best_raise in Hr; subst.
  - now apply get_streak_raise in H0; subst.
Qed.

End LongestRun.

Lemma chain_days_after_span (rest : list completion) :
  forall a b d,
    chain (days_after 1) (a :: b :: rest) ->
    days_after (Z.of_nat (S (List.length rest))) a (last (b :: rest) d).
Proof.
  induction rest as [|c rest IH]; intros a b d H;
    inversion H as [| |? ? ? Hab H']; subst.
  - exact Hab.
  - replace (Z.of_nat (S (List.length (c :: rest))))
      with (1 + Z.of_nat (S (List.length rest)))
      by (cbn [List.length]; lia).
    apply (days_after_trans _ _ a b); [exact Hab|].
    change (last (b :: c :: rest) d) with (last (c :: rest) d).
    now apply IH.
Qed.

(** The two metrics on a daily habit whose completions are [n] consecutive
    days: [get_streak] counts the [n - 1] steps, [find_longest_streak] the
    [n] days. *)
Lemma consecutive_days_metrics (h : Habit) (dates : list completion) :
  period h = "daily"%string -> dates <> [] ->
  chain (days_after 1) dates -> Permutation (completions h) dates ->
  get_streak h = Ok (Z.of_nat (List.length dates) - 1) /\
  value (find_longest_streak h) = Ok (Z.of_nat (List.length dates)).
Proof.
  intros Hp Hne Hch Hperm.
  assert (Hs : sorted (completions h) = Ok dates)
    by (apply (sorted_days_apart 1); auto; lia).
  assert (Hne' : completions h <> []).
  { intros E. rewrite E in Hperm. apply Permutation_nil in Hperm. congruence. }
  split.
  - apply get_streak_single_run; auto.
    eapply chain_impl; [|exact Hch].
    intros a b Hab. exists (timedelta_days 1). split.
    + now apply days_after_sub.
    + rewrite Hp. reflexivity.
  - assert (Htrack : track_streaks h = Ok ([dates], h)).
    { rewrite track_streaks_eq, Hs by auto. cbn [rbind].
      unfold threshold_of. rewrite Hp. cbn [String.eqb Ascii.eqb Bool.eqb].
      rewrite partition_single; [reflexivity|exact Hne|].
      eapply chain_impl; [|exact Hch].
      intros a b. apply within_days_after. lia. }
    assert (Hdur : calculate_streak_duration dates
                   = Ok (Z.of_nat (List.length dates))).
    { destruct dates as [|a [|b rest]]; [congruence| |].
      - destruct (completion_sub_self a) as (delta & Hd & H0).
        simpl. rewrite Hd. simpl. now rewrite H0.
      - replace (Z.of_nat (List.length (a :: b :: rest)))
          with (Z.of_nat (S (List.length rest)) + 1)
          by (cbn [List.length]; lia).
        apply calculate_streak_duration_span.
        change (last (a :: b :: rest) a) with (last (b :: rest) a).
        now apply chain_days_after_span. }
    unfold find_longest_streak, bind, lift. rewrite Htrack.
    unfold py_max, py_extremum. rewrite Hdur. cbn [rbind py_best].
    rewrite Hdur. reflexivity.
Qed.

Lemma timedelta_le_days (k threshold : Z) :
  timedelta_le (timedelta_days k) (timedelta_days threshold) = (k <=? threshold).
Proof.
  unfold timedelta_le, timedelta_key, timedelta_days, new_delta.
  cbn [days seconds microseconds lex_lt].
  replace ((0 + 0 / 1000000) / 86400) with 0 by reflexivity.
  replace ((0 + 0 / 1000000) mod 86400) with 0 by reflexivity.
  replace (0 mod 1000000) with 0 by reflexivity.
  rewrite !Z.add_0_r. cbn [Z.ltb Z.eqb Z.compare andb orb].
  rewrite andb_false_r, orb_false_r.
  destruct (threshold <? k) eqn:E1, (k <=? threshold) eqn:E2;
    rewrite ?Z.ltb_lt, ?Z.ltb_ge, ?Z.leb_le, ?Z.leb_gt in *;
    try reflexivity; lia.
Qed.

(** Between two dates both scans apply the same test. *)
Lemma within_adjacent_dates (threshold : Z) (a b : completion) :
  is_date a = true -> is_date b = true ->
  within threshold a b -> adjacent (timedelta_days threshold) a b.
Proof.
  destruct a as [x|x], b as [y|y]; try discriminate. intros _ _.
  intros (delta & Hd & Hle). simpl in Hd. injection Hd as <-.
  exists (date_sub y x). split; [reflexivity|].
  unfold date_sub in *. fold (timedelta_days (toordinal y - toordinal x)) in *.
  rewrite days_timedelta_days in Hle. rewrite timedelta_le_days.
  now apply Z.leb_le.
Qed.

Lemma chain_within_adjacent_dates (threshold : Z) (l : list completion) :
  of_kind true l -> chain (within threshold) l ->
  chain (adjacent (timedelta_days threshold)) l.
Proof.
  intros Hk H. induction H as [|a|a b l Hab Hch IH]; [constructor|constructor|].
  inversion Hk as [|? ? Ha Hk']; subst. inversion Hk' as [|? ? Hb _]; subst.
  constructor; [now apply within_adjacent_dates|now apply IH].
Qed.

(** A habit that holds dates and whose completions form one streak. *)
Lemma single_streak_of_dates (h : Habit) (streak : list completion) :
  period h = "daily"%string \/ period h = "weekly"%string ->
  of_kind true (completions h) ->
  value (track_streaks h) = Ok [streak] ->
  get_streak h = Ok (Z.of_nat (List.length streak) - 1).
Proof.
  intros Hp Hk Hv.
  destruct (completions h) as [|c cs] eqn:Hc.
  { rewrite (track_streaks_no_completion h Hp Hc) in Hv. discriminate. }
  assert (Hne : completions h <> []) by congruence.
  rewrite <- Hc in Hk.
  destruct (sorted_spec true _ Hk) as (s & Hs & Hperm & Hks & _).
  rewrite (track_streaks_value h s Hp Hne Hs) in Hv.
  assert (Hsne : s <> []).
  { intros E. subst s. apply Permutation_sym, Permutation_nil in Hperm.
    congruence. }
  destruct (partition_spec (threshold_of (period h)) true s Hsne Hks)
    as (streaks & Hpart & Hcat & _ & Hch & _).
  rewrite Hpart in Hv. injection Hv as ->.
  simpl in Hcat. rewrite app_nil_r in Hcat. subst s.
  inversion Hch as [|? ? Hch1 _]; subst.
  apply get_streak_single_run; auto.
  replace (gap_of (period h)) with (timedelta_days (threshold_of (period h)))
    by (unfold gap_of, threshold_of; reflexivity).
  now apply chain_within_adjacent_dates.
Qed.

(** Between timestamps the scans differ: [track_streaks] looks at [.days]
    of the difference, [get_streak] at the whole difference.  A day and a
    half apart is one streak for the first and no step for the second. *)
Remark scans_differ_on_timestamps :
  value (track_streaks
           (a_habit "daily" [CDateTime (may_at 1 0 0); CDateTime (may_at 2 12 0)]))
  = Ok [[CDateTime (may_at 1 0 0); CDateTime (may_at 2 12 0)]] /\
  get_streak (a_habit "daily" [CDateTime (may_at 1 0 0); CDateTime (may_at 2 12 0)])
  = Ok 0.
Proof. split; reflexivity. Qed.

Lemma fold_max_base (l : list Z) (a b : Z) :
  fold_right Z.max (Z.max a b) l = Z.max b (fold_right Z.max a l).
Proof. induction l as [|x l IH]; simpl; [lia|]. rewrite IH. lia. Qed.

Lemma fold_max_spec (l : list Z) (b : Z) :
  b <= fold_right Z.max b l /\
  Forall (fun x => x <= fold_right Z.max b l) l /\
  (fold_right Z.max b l = b \/ In (fold_right Z.max b l) l).
Proof.
  induction l as [|x l (Hb & Hall & Hat)]; simpl.
  - split; [lia|]. split; [constructor|now left].
  - split; [lia|]. split.
    + constructor; [lia|]. eapply Forall_impl; [|exact Hall].
      intros y Hy. simpl in Hy. lia.
    + destruct (Z.max_spec x (fold_right Z.max b l)) as [[_ ->]|[_ ->]].
      * destruct Hat as [E|Hin]; [now left|right; now right].
      * right. now left.
Qed.

(** ** The runs that [get_streak] counts *)

Lemma parted_extend (n : Z) (p : completion) (s : list completion)
      (ss : list (list completion)) :
  parted n (s :: ss) -> parted n ((p :: s) :: ss).
Proof.
  intros H. inversion H; subst.
  - constructor.
  - change (p :: s0 ++ [a]) with ((p :: s0) ++ [a]). now constructor.
Qed.

(** The loop of [get_streak] cuts the list where two neighbours are more
    than [n] days apart; its two counters give the largest run, less one. *)
Lemma get_streak_loop_parted (n : Z) (k : bool) (rest : list completion) :
  forall prev streak max_streak,
    of_kind k (prev :: rest) ->
    exists c ss r,
      c ++ List.concat ss = rest /\
      chain (close n) (prev :: c) /\
      Forall (fun s => s <> []) ss /\
      Forall (chain (close n)) ss /\
      parted n ((prev :: c) :: ss) /\
      get_streak_loop (timedelta_days n) prev rest streak max_streak = Ok r /\
      Z.max (snd r) (fst r)
      = fold_right Z.max (Z.max max_streak (streak + Z.of_nat (List.length c)))
          (map (fun s => Z.of_nat (List.length s) - 1) ss).
Proof.
  induction rest as [|cur rest IH]; intros prev streak mx Hk.
  - exists [], []. eexists. simpl.
    repeat split; try constructor. cbn [fst snd]. f_equal. lia.
  - inversion Hk as [|? ? Kp Hk']; subst. inversion Hk' as [|? ? Kc _]; subst.
    destruct (completion_sub_ok cur prev) as [delta Hd]; [congruence|].
    cbn [get_streak_loop]. rewrite Hd. cbn [rbind].
    rewrite (timedelta_le_instant n prev cur delta Hd).
    destruct (instant cur - instant prev <=? n * day_us) eqn:Hle.
    + apply Z.leb_le in Hle.
      destruct (IH cur (streak + 1) mx Hk')
        as (c & ss & r & Hcat & Hch & Hne & Hchs & Hpar & Hl & Hm).
      exists (cur :: c), ss, r. repeat split; auto.
      * simpl. now rewrite Hcat.
      * constructor; [split; [congruence|exact Hle]|exact Hch].
      * now apply parted_extend.
      * rewrite Hm. cbn [List.length]. do 2 f_equal. lia.
    + apply Z.leb_gt in Hle.
      destruct (IH cur 0 (Z.max mx streak) Hk')
        as (c & ss & r & Hcat & Hch & Hne & Hchs & Hpar & Hl & Hm).
      exists [], ((cur :: c) :: ss), r. repeat split; auto.
      * simpl. now rewrite Hcat.
      * constructor.
      * constructor; [discriminate|exact Hne].
      * apply (parted_cons n [] prev cur c ss); [|exact Hpar].
        split; [congruence|exact Hle].
      * rewrite Hm. cbn [List.length map fold_right].
        rewrite !fold_max_base. lia.
Qed.

(** What [get_streak] returns on completions of one kind: the sorted list
    falls into runs, and the result is the size of the largest run less
    one. *)
Lemma get_streak_largest_run (h : Habit) :
  homogeneous (completions h) = true ->
  exists s rs k,
    sorted (completions h) = Ok s /\
    Permutation (completions h) s /\
    StronglySorted not_after s /\
    List.concat rs = s /\
    Forall (fun r => r <> []) rs /\
    Forall (chain (close (threshold_of (period h)))) rs /\
    parted (threshold_of (period h)) rs /\
    get_streak h = Ok k /\
    Forall (fun r => Z.of_nat (List.length r) - 1 <= k) rs /\
    (rs = [] -> k = 0) /\
    (rs <> [] -> Exists (fun r => Z.of_nat (List.length r) - 1 = k) rs).
Proof.
  intros Hh. apply homogeneous_of_kind in Hh. destruct Hh as [kd Hkd].
  destruct (sorted_spec kd _ Hkd) as (s & Hs & Hperm & Hks & Hss).
  exists s. unfold get_streak. rewrite Hs. cbn [rbind].
  rewrite gap_of_threshold.
  destruct s as [|first rest].
  - exists [], 0. repeat split; auto; try constructor. congruence.
  - destruct (get_streak_loop_parted (threshold_of (period h)) kd rest first
                0 0 Hks)
      as (c & ss & r & Hcat & Hch & Hne & Hchs & Hpar & Hl & Hm).
    exists ((first :: c) :: ss), (Z.max (snd r) (fst r)).
    rewrite Hl. cbn [rbind].
    set (f := fun s : list completion => Z.of_nat (List.length s) - 1) in *.
    assert (Hm' : Z.max (snd r) (fst r)
                  = fold_right Z.max (f (first :: c)) (map f ss)).
    { rewrite Hm. unfold f. cbn [List.length]. f_equal. lia. }
    destruct (fold_max_spec (map f ss) (f (first :: c))) as (Hb & Hall & Hat).
    rewrite <- Hm' in Hb, Hall, Hat.
    repeat split; auto.
    + simpl. now rewrite Hcat.
    + constructor; [discriminate|exact Hne].
    + constructor; [exact Hb|].
      apply Forall_forall. intros x Hx. rewrite Forall_forall in Hall.
      apply (Hall (f x)). now apply in_map.
    + discriminate.
    + intros _. destruct Hat as [E|Hin].
      * apply Exists_cons_hd. now rewrite E.
      * apply Exists_cons_tl. apply in_map_iff in Hin.
        destruct Hin as (x & Hx & Hin). apply Exists_exists. eauto.
Qed.

Lemma get_streak_one_run (h : Habit) (dates : list completion) :
  sorted (completions h) = Ok dates -> dates <> [] ->
  chain (close (threshold_of (period h))) dates ->
  get_streak h = Ok (Z.of_nat (List.length dates) - 1).
Proof.
  intros Hs Hne Hch. apply get_streak_single_run; auto.
  rewrite gap_of_threshold. eapply chain_impl; [|exact Hch].
  intros a b. apply adjacent_close.
Qed.

(** C8 (amended): on a non-empty tracker whose habits each hold
    completions of one kind, [longest_run_streak] returns the name of the
    first habit with the largest [get_streak].  [get_streak] counts steps,
    not days: the sorted completions fall into runs, cut wherever a
    completion comes more than 1 day (period daily) or 7 days (any other
    period) of elapsed time after the one before, and the result is the
    size of the largest run less one.  So on a single run of [n >= 1]
    completions it returns [n - 1], and 0 on at most one completion.  For a
    habit that holds dates a run is a streak of [track_streaks]; on [n]
    consecutive days of a daily habit [find_longest_streak] returns [n]. *)
Theorem get_streak_counts_adjacent_pairs :
  (forall t,
      habits t <> [] ->
      Forall (fun x => homogeneous (completions x) = true) (habits t) ->
      exists h, In h (habits t) /\ first_maximal (habits t) h /\
                longest_run_streak t = Ok (name h)) /\
  (forall h,
      homogeneous (completions h) = true ->
      exists s rs k,
        sorted (completions h) = Ok s /\
        Permutation (completions h) s /\
        StronglySorted not_after s /\
        List.concat rs = s /\
        Forall (fun r => r <> []) rs /\
        Forall (chain (close (threshold_of (period h)))) rs /\
        parted (threshold_of (period h)) rs /\
        get_streak h = Ok k /\
        Forall (fun r => Z.of_nat (List.length r) - 1 <= k) rs /\
        (rs = [] -> k = 0) /\
        (rs <> [] -> Exists (fun r => Z.of_nat (List.length r) - 1 = k) rs)) /\
  (forall h dates,
      sorted (completions h) = Ok dates -> dates <> [] ->
      chain (close (threshold_of (period h))) dates ->
      get_streak h = Ok (Z.of_nat (List.length dates) - 1)) /\
  (forall h streak,
      period h = "daily"%string \/ period h = "weekly"%string ->
      of_kind true (completions h) ->
      value (track_streaks h) = Ok [streak] ->
      get_streak h = Ok (Z.of_nat (List.length streak) - 1)) /\
  (forall h dates,
      period h = "daily"%string -> dates <> [] ->
      chain (days_after 1) dates -> Permutation (completions h) dates ->
      get_streak h = Ok (Z.of_nat (List.length dates) - 1) /\
      value (find_longest_streak h) = Ok (Z.of_nat (List.length dates))) /\
  (forall h, (List.length (completions h) <= 1)%nat -> get_streak h = Ok 0).
Proof.
  split; [|split; [|split; [|split; [|split]]]].
  - apply longest_run_streak_spec.
  - apply get_streak_largest_run.
  - apply get_streak_one_run.
  - apply single_streak_of_dates.
  - apply consecutive_days_metrics.
  - apply get_streak_at_most_one.
Qed.

Lemma get_streak_counts_adjacent_pairs_witness :
  (exists s rs k,
      sorted [CDate (may 5); CDate (may 1); CDate (may 3)] = Ok s /\
      List.concat rs = s /\
      parted 1 rs /\
      get_streak (a_habit "daily" [CDate (may 5); CDate (may 1); CDate (may 3)])
      = Ok k /\
      Forall (fun r => Z.of_nat (List.length r) - 1 <= k) rs) /\
  get_streak (a_habit "daily" [CDate (may 3); CDate (may 1); CDate (may 2)])
  = Ok 2 /\
  value (find_longest_streak
           (a_habit "daily" [CDate (may 3); CDate (may 1); CDate (may 2)]))
  = Ok 3 /\
  get_streak (a_habit "weekly" [CDate (may 3)]) = Ok 0 /\
  get_streak (a_habit "weekly" [CDate (may 8); CDate (may 1)]) = Ok 1 /\
  get_streak
    (a_habit "daily" [CDateTime (may_at 2 9 0); CDateTime (may_at 1 9 0)])
  = Ok 1 /\
  exists h,
    In h [a_habit "weekly" [CDate (may 3)];
          a_habit "daily" [CDate (may 3); CDate (may 1); CDate (may 2)]] /\
    first_maximal
      [a_habit "weekly" [CDate (may 3)];
       a_habit "daily" [CDate (may 3); CDate (may 1); CDate (may 2)]] h /\
    longest_run_streak
      (mkHabitTracker
         [a_habit "weekly" [CDate (may 3)];
          a_habit "daily" [CDate (may 3); CDate (may 1); CDate (may 2)]])
    = Ok (name h).
Proof.
  destruct get_streak_counts_adjacent_pairs as (H1 & H0 & H2 & H5 & H3 & H4).
  split; [|split; [|split; [|split; [|split; [|split]]]]].
  - destruct (H0 (a_habit "daily" [CDate (may 5); CDate (may 1); CDate (may 3)])
                 eq_refl)
      as (s & rs & k & Hs & _ & _ & Hcat & _ & _ & Hpar & Hk & Hall & _).
    exists s, rs, k. auto.
  - apply (H3 (a_habit "daily" [CDate (may 3); CDate (may 1); CDate (may 2)])
              [CDate (may 1); CDate (may 2); CDate (may 3)]).
    + reflexivity.
    + discriminate.
    + repeat constructor; reflexivity.
    + apply (Permutation_cons_append [CDate (may 1); CDate (may 2)]
                                     (CDate (may 3))).
  - apply (H3 (a_habit "daily" [CDate (may 3); CDate (may 1); CDate (may 2)])
              [CDate (may 1); CDate (may 2); CDate (may 3)]).
    + reflexivity.
    + discriminate.
    + repeat constructor; reflexivity.
    + apply (Permutation_cons_append [CDate (may 1); CDate (may 2)]
                                     (CDate (may 3))).
  - apply (H4 (a_habit "weekly" [CDate (may 3)])). simpl. lia.
  - apply (H5 (a_habit "weekly" [CDate (may 8); CDate (may 1)])
              [CDate (may 1); CDate (may 8)]).
    + right; reflexivity.
    + repeat constructor.
    + reflexivity.
  - apply (H2 (a_habit "daily"
                 [CDateTime (may_at 2 9 0); CDateTime (may_at 1 9 0)])
              [CDateTime (may_at 1 9 0); CDateTime (may_at 2 9 0)]).
    + reflexivity.
    + discriminate.
    + repeat constructor. vm_compute. discriminate.
  - apply (H1 (mkHabitTracker
                 [a_habit "weekly" [CDate (may 3)];
                  a_habit "daily" [CDate (may 3); CDate (may 1); CDate (may 2)]])).
    + discriminate.
    + repeat constructor.
Defined.

(** C8, as stated, fails: for a weekly habit the two dates 1 May and 8 May
    are a single run of [n = 2] and [get_streak] returns 1, but
    [find_longest_streak] returns 8, the days from the first to the last,
    not [n]; and three timestamps a day and an hour apart are one streak of
    [n = 3] for [track_streaks] while [get_streak] returns 0, not 2, because
    it compares the whole difference with one day. *)
Lemma a_run_is_not_its_day_span :
  (value (track_streaks (a_habit "weekly" [CDate (may 1); CDate (may 8)]))
   = Ok [[CDate (may 1); CDate (may 8)]] /\
   get_streak (a_habit "weekly" [CDate (may 1); CDate (may 8)]) = Ok 1 /\
   value (find_longest_streak (a_habit "weekly" [CDate (may 1); CDate (may 8)]))
   = Ok 8 /\
   value (find_longest_streak (a_habit "weekly" [CDate (may 1); CDate (may 8)]))
   <> Ok 2) /\
  (value (track_streaks
            (a_habit "daily"
               [CDateTime (may_at 1 9 0); CDateTime (may_at 2 10 0);
                CDateTime (may_at 3 11 0)]))
   = Ok [[CDateTime (may_at 1 9 0); CDateTime (may_at 2 10 0);
          CDateTime (may_at 3 11 0)]] /\
   get_streak
     (a_habit "daily"
        [CDateTime (may_at 1 9 0); CDateTime (may_at 2 10 0);
         CDateTime (may_at 3 11 0)])
   = Ok 0 /\
   get_streak
     (a_habit "daily"
        [CDateTime (may_at 1 9 0); CDateTime (may_at 2 10 0);
         CDateTime (may_at 3 11 0)])
   <> Ok 2).
Proof. repeat split; try reflexivity; discriminate. Qed.

(** A list that mixes the two kinds is what [complete] followed by
    [generate_example_data] leaves in a new daily habit. *)
Remark mixed_completions_from_the_methods :
  bind (complete (may_at 1 9 0))
       (fun _ => generate_example_data (fun n => Nat.eqb n 0))
       (Habit_init (may_at 1 9 0) "Reading" "daily")
  = Ok (tt, a_habit "daily" [CDateTime (may_at 1 9 0); CDate (may 1)]).
Proof. reflexivity. Qed.

(** A file that lists a date twice loads as a habit with a repeated date. *)
Remark repeated_date_from_a_file :
  from_dict (may_at 1 9 0)
    (mkhabit_data "Reading" "daily" "2023-04-30 09:00:00"
       ["2023-05-01"%string; "2023-05-01"%string])
  = Ok (a_habit "daily" [CDate (may 1); CDate (may 1)]).
Proof. reflexivity. Qed.

(** C10 (amended): on an empty tracker [longest_run_streak] raises the
    [ValueError] of [max]; on a non-empty tracker whose habits each hold
    completions of one kind (all dates or all timestamps) it returns the
    name of a contained habit, the first one with the largest [get_streak];
    when no habit has a completion that is the first habit.  A habit that
    mixes dates and timestamps makes it raise [TypeError]. *)
Theorem longest_run_streak_on_trackers :
  (forall t, habits t = [] ->
             longest_run_streak t = Raise (ValueError EmptySequence)) /\
  (forall t,
      habits t <> [] ->
      Forall (fun x => homogeneous (completions x) = true) (habits t) ->
      exists h, In h (habits t) /\ first_maximal (habits t) h /\
                longest_run_streak t = Ok (name h)) /\
  (forall t h0 rest,
      habits t = h0 :: rest ->
      Forall (fun x => completions x = []) (habits t) ->
      longest_run_streak t = Ok (name h0)) /\
  (forall t,
      Exists (fun x => homogeneous (completions x) = false) (habits t) ->
      longest_run_streak t = Raise TypeError).
Proof.
  split; [|split; [|split]]; [| | |exact longest_run_streak_mixed].
  - intros t E. unfold longest_run_streak. now rewrite E.
  - exact longest_run_streak_spec.
  - intros t h0 rest E Hall.
    assert (Hzero : forall x, In x (habits t) -> get_streak x = Ok 0).
    { intros x Hx. rewrite Forall_forall in Hall.
      apply get_streak_at_most_one. rewrite (Hall x Hx). simpl. lia. }
    destruct (longest_run_streak_spec t)
      as (h & _ & (before & after & k & E' & Hk & Hb & _) & Hr).
    + congruence.
    + eapply Forall_impl; [|exact Hall]. intros x Hx. now rewrite Hx.
    + rewrite Hr. destruct before as [|b before].
      * rewrite E in E'. simpl in E'. congruence.
      * exfalso. destruct (Hb b (or_introl eq_refl)) as (kb & Hkb & Hlt).
        rewrite Hzero in Hkb, Hk
          by (rewrite E'; simpl; auto using in_or_app, in_eq).
        injection Hkb as <-. injection Hk as <-. lia.
Qed.

Lemma longest_run_streak_on_trackers_witness :
  longest_run_streak
    (mkHabitTracker [a_habit "daily" []; a_habit "weekly" []])
  = Ok "Reading"%string /\
  longest_run_streak (mkHabitTracker []) = Raise (ValueError EmptySequence).
Proof.
  destruct longest_run_streak_on_trackers as (H1 & _ & H3 & _).
  split.
  - apply (H3 (mkHabitTracker [a_habit "daily" []; a_habit "weekly" []])
              (a_habit "daily" []) [a_habit "weekly" []]).
    + reflexivity.
    + repeat constructor.
  - apply (H1 (mkHabitTracker [])). reflexivity.
Defined.

(** C10, as stated, fails: a non-empty tracker with a habit that mixes a
    timestamp and a date; the sort inside [get_streak] raises [TypeError]
    and no name is returned. *)
Lemma longest_run_streak_raises_on_mixed_completions :
  habits (mkHabitTracker
            [a_habit "daily" [CDateTime (may_at 1 9 0); CDate (may 1)]]) <> [] /\
  longest_run_streak
    (mkHabitTracker [a_habit "daily" [CDateTime (may_at 1 9 0); CDate (may 1)]])
  = Raise TypeError /\
  ~ exists h,
      In h [a_habit "daily" [CDateTime (may_at 1 9 0); CDate (may 1)]] /\
      longest_run_streak
        (mkHabitTracker
           [a_habit "daily" [CDateTime (may_at 1 9 0); CDate (may 1)]])
      = Ok (name h).
Proof.
  split; [discriminate|]. split; [reflexivity|].
  intros (h & _ & H). discriminate H.
Qed.

(** * Further properties of the code *)

(** ** The stored order does not matter *)

Lemma forallb_permutation {A} (f : A -> bool) (l1 l2 : list A) :
  Permutation l1 l2 -> forallb f l1 = forallb f l2.
Proof.
  induction 1 as [|x l1 l2 _ IH|x y l|l1 l2 l3 _ IH1 _ IH2]; simpl.
  - reflexivity.
  - now rewrite IH.
  - destruct (f x), (f y); reflexivity.
  - now rewrite IH1.
Qed.

Lemma homogeneous_permutation (l1 l2 : list completion) :
  Permutation l1 l2 -> homogeneous l1 = homogeneous l2.
Proof.
  intros H. unfold homogeneous.
  now rewrite (forallb_permutation is_date l1 l2 H),
              (forallb_permutation is_datetime l1 l2 H).
Qed.

(** Two arrangements of the same completions sort to the same list, or
    both fail to sort. *)
Lemma sorted_of_permutation (l1 l2 : list completion) :
  Permutation l1 l2 -> sorted l1 = sorted l2.
Proof.
  intros H. destruct (homogeneous l1) eqn:Hh.
  - apply homogeneous_of_kind in Hh. destruct Hh as [k Hk].
    destruct (sorted_spec k l1 Hk) as (s & Hs & Hp & Hks & Hss).
    rewrite Hs. symmetry. apply (sorted_permutation k); auto.
    rewrite <- Hp. now apply Permutation_sym.
  - rewrite (sorted_mixed l1 Hh). symmetry. apply sorted_mixed.
    now rewrite <- (homogeneous_permutation l1 l2 H).
Qed.

(** What [track_streaks] returns, read off the period and the list. *)
Lemma track_streaks_value_cases (h : Habit) :
  value (track_streaks h) =
  if (period h =? "daily")%string || (period h =? "weekly")%string then
    match completions h with
    | [] => Ok []
    | _ :: _ =>
        let* s := sorted (completions h) in
        partition (threshold_of (period h)) s
    end
  else Raise (ValueError (UnknownPeriod ("Unknown habit period: " ++ period h))).
Proof.
  destruct ((period h =? "daily")%string) eqn:Hd;
    [|destruct ((period h =? "weekly")%string) eqn:Hw]; cbn [orb].
  3: { unfold track_streaks, bind, get_period. now rewrite Hd, Hw. }
  all: assert (Hp : period h = "daily"%string \/ period h = "weekly"%string)
      by (rewrite <- !String.eqb_eq; auto).
  all: destruct (completions h) as [|c cs] eqn:Hc;
    [now rewrite (track_streaks_no_completion h Hp Hc)|].
  all: rewrite <- Hc.
  all: rewrite track_streaks_eq by (auto; congruence).
  all: destruct (sorted (completions h)) as [s|e]; cbn [rbind];
    [|reflexivity].
  all: destruct (partition _ s); reflexivity.
Qed.

Lemma calculate_average_streak_duration_value (h : Habit) :
  value (calculate_average_streak_duration h) =
  let* streaks := value (track_streaks h) in
  let* total := py_sum calculate_streak_duration 0 streaks in
  Ok (if 0 <? Z.of_nat (List.length streaks)
      then Qmake total (Z.to_pos (Z.of_nat (List.length streaks)))
      else 0%Q).
Proof.
  unfold calculate_average_streak_duration, bind, lift.
  destruct (track_streaks h) as [[streaks h']|e]; cbn [value rbind];
    [|reflexivity].
  destruct (py_sum calculate_streak_duration 0 streaks); reflexivity.
Qed.

Lemma find_longest_streak_value (h : Habit) :
  value (find_longest_streak h) =
  let* streaks := value (track_streaks h) in
  let* longest := py_max calculate_streak_duration (Some []) streaks in
  calculate_streak_duration longest.
Proof.
  unfold find_longest_streak, bind, lift.
  destruct (track_streaks h) as [[streaks h']|e]; cbn [value rbind];
    [|reflexivity].
  destruct (py_max calculate_streak_duration (Some []) streaks) as [s|e];
    cbn [rbind]; [|reflexivity].
  destruct (calculate_streak_duration s); reflexivity.
Qed.

Lemma find_shortest_streak_value (h : Habit) :
  value (find_shortest_streak h) =
  let* streaks := value (track_streaks h) in
  let* shortest := py_min calculate_streak_duration (Some []) streaks in
  calculate_streak_duration shortest.
Proof.
  unfold find_shortest_streak, bind, lift.
  destruct (track_streaks h) as [[streaks h']|e]; cbn [value rbind];
    [|reflexivity].
  destruct (py_min calculate_streak_duration (Some []) streaks) as [s|e];
    cbn [rbind]; [|reflexivity].
  destruct (calculate_streak_duration s); reflexivity.
Qed.

(** X1: the streaks, the three metrics and [get_streak] of a habit depend
    on its period and on which completions it holds, not on the order in
    which they are stored: two habits with the same period whose completion
    lists are rearrangements of each other get the same results, errors
    included. *)
Theorem analysis_ignores_the_stored_order (h1 h2 : Habit) :
  period h1 = period h2 ->
  Permutation (completions h1) (completions h2) ->
  value (track_streaks h1) = value (track_streaks h2) /\
  value (calculate_average_streak_duration h1)
  = value (calculate_average_streak_duration h2) /\
  value (find_longest_streak h1) = value (find_longest_streak h2) /\
  value (find_shortest_streak h1) = value (find_shortest_streak h2) /\
  get_streak h1 = get_streak h2.
Proof.
  intros Hp Hperm.
  assert (Hs : sorted (completions h1) = sorted (completions h2))
    by now apply sorted_of_permutation.
  assert (Ht : value (track_streaks h1) = value (track_streaks h2)).
  { rewrite !track_streaks_value_cases, Hp, Hs.
    destruct (completions h1) as [|c1 l1], (completions h2) as [|c2 l2];
      try reflexivity.
    - apply Permutation_nil in Hperm. discriminate.
    - apply Permutation_sym, Permutation_nil in Hperm. discriminate. }
  repeat split.
  - exact Ht.
  - now rewrite !calculate_average_streak_duration_value, Ht.
  - now rewrite !find_longest_streak_value, Ht.
  - now rewrite !find_shortest_streak_value, Ht.
  - unfold get_streak. now rewrite Hs, Hp.
Qed.

Lemma analysis_ignores_the_stored_order_witness :
  value (track_streaks
           (a_habit "daily" [CDate (may 3); CDate (may 1); CDate (may 2)]))
  = value (track_streaks
             (a_habit "daily" [CDate (may 1); CDate (may 2); CDate (may 3)])).
Proof.
  apply (analysis_ignores_the_stored_order
           (a_habit "daily" [CDate (may 3); CDate (may 1); CDate (may 2)])
           (a_habit "daily" [CDate (may 1); CDate (may 2); CDate (may 3)])).
  - reflexivity.
  - apply (Permutation_cons_append [CDate (may 1); CDate (may 2)]
                                   (CDate (may 3))).
Defined.

(** ** Durations of the streaks *)

Lemma last_in {A} (l : list A) (d : A) : l <> [] -> In (last l d) l.
Proof.
  induction l as [|a [|b l] IH]; intros H; [congruence|now left|].
  right. apply IH. discriminate.
Qed.

(** The time of day in microseconds follows the field-by-field order. *)
Lemma time_fields_order (a b : datetime) :
  valid_datetime a -> valid_datetime b ->
  lex_lt [hour b; minute b; second b; microsecond b]
         [hour a; minute a; second a; microsecond a] = false ->
  0 <= ((hour b - hour a) * 3600 + (minute b - minute a) * 60
        + (second b - second a)) * 1000000
       + (microsecond b - microsecond a).
Proof.
  unfold valid_datetime, valid_datetimeb, valid_timeb. intros Va Vb.
  apply andb_true_iff in Va. destruct Va as [_ Va].
  apply andb_true_iff in Vb. destruct Vb as [_ Vb].
  repeat (apply andb_true_iff in Va; destruct Va as [Va ?]).
  repeat (apply andb_true_iff in Vb; destruct Vb as [Vb ?]).
  rewrite ?Z.leb_le, ?Z.ltb_lt in *.
  cbn [lex_lt].
  destruct (hour b <? hour a) eqn:E1, (hour b =? hour a) eqn:E2,
           (minute b <? minute a) eqn:E3, (minute b =? minute a) eqn:E4,
           (second b <? second a) eqn:E5, (second b =? second a) eqn:E6,
           (microsecond b <? microsecond a) eqn:E7;
    cbn [orb andb]; intros Hlex; try discriminate;
    rewrite ?Z.ltb_lt, ?Z.ltb_ge, ?Z.eqb_eq, ?Z.eqb_neq in *; lia.
Qed.

(** A completion that sorts after another is at least zero [.days] later. *)
Lemma not_after_days_nonneg (a b : completion) :
  valid_completionb a = true -> valid_completionb b = true ->
  not_after a b ->
  exists delta, completion_sub b a = Ok delta /\ 0 <= days delta.
Proof.
  unfold not_after. destruct a as [x|x], b as [y|y]; simpl;
    intros Va Vb H; try discriminate; injection H as H.
  - eexists. split; [reflexivity|].
    unfold date_sub. fold (timedelta_days (toordinal y - toordinal x)).
    rewrite days_timedelta_days.
    destruct (date_lt x y) eqn:E.
    + pose proof (date_lt_toordinal x y Va Vb E). lia.
    + assert (date_key x = date_key y) by (apply lex_lt_total; auto).
      assert (x = y) by now apply date_key_inj. subst. lia.
  - eexists. split; [reflexivity|].
    assert (Vdx : valid_date (dt_date x))
      by (unfold valid_datetimeb in Va; apply andb_true_iff in Va; apply Va).
    assert (Vdy : valid_date (dt_date y))
      by (unfold valid_datetimeb in Vb; apply andb_true_iff in Vb; apply Vb).
    pose proof (valid_datetime_time_bounds x Va) as Bx.
    pose proof (valid_datetime_time_bounds y Vb) as By.
    unfold datetime_lt, datetime_key in H.
    rewrite lex_lt_app in H by reflexivity.
    apply orb_false_iff in H. destruct H as [Hyx H].
    fold (date_lt (dt_date y) (dt_date x)) in Hyx.
    fold (date_lt (dt_date x) (dt_date y)) in H.
    unfold datetime_sub, new_delta. cbn [days].
    destruct (date_lt (dt_date x) (dt_date y)) eqn:Hxy.
    + pose proof (date_lt_toordinal _ _ Vdx Vdy Hxy).
      Z.to_euclidean_division_equations. lia.
    + cbn [negb andb] in H.
      assert (date_key (dt_date x) = date_key (dt_date y))
        by (apply lex_lt_total; auto).
      assert (E : dt_date x = dt_date y) by now apply date_key_inj.
      pose proof (time_fields_order x y Va Vb H). rewrite E.
      Z.to_euclidean_division_equations. lia.
Qed.

Lemma of_kind_concat_inv (k : bool) (ss : list (list completion)) :
  of_kind k (List.concat ss) -> Forall (of_kind k) ss.
Proof.
  unfold of_kind. induction ss as [|s ss IH]; simpl; intros H; [constructor|].
  apply Forall_app in H. destruct H. constructor; auto.
Qed.

(** What is behind an [Ok] of [track_streaks]: the sorted list and the
    facts of [partition_spec]. *)
Lemma track_streaks_returns (h : Habit) (streaks : list (list completion)) :
  value (track_streaks h) = Ok streaks ->
  (period h = "daily"%string \/ period h = "weekly"%string) /\
  (completions h = [] /\ streaks = [] \/
   exists k s,
     completions h <> [] /\ of_kind k (completions h) /\
     sorted (completions h) = Ok s /\ Permutation (completions h) s /\
     of_kind k s /\ StronglySorted not_after s /\
     List.concat streaks = s /\
     Forall (fun st => st <> []) streaks /\
     Forall (chain (within (threshold_of (period h)))) streaks /\
     separated (threshold_of (period h)) streaks).
Proof.
  rewrite track_streaks_value_cases.
  destruct ((period h =? "daily")%string || (period h =? "weekly")%string)
    eqn:Hp; [|discriminate].
  apply orb_true_iff in Hp. rewrite !String.eqb_eq in Hp.
  intros H. split; [exact Hp|].
  destruct (completions h) as [|c cs] eqn:Hc.
  - left. split; congruence.
  - right. rewrite <- Hc in *.
    destruct (sorted (completions h)) as [s|e] eqn:Hs; [|discriminate].
    cbn [rbind] in H.
    destruct (homogeneous (completions h)) eqn:Hh;
      [|rewrite (sorted_mixed _ Hh) in Hs; discriminate].
    apply homogeneous_of_kind in Hh. destruct Hh as [k Hk].
    destruct (sorted_spec k _ Hk) as (s' & Hs' & Hperm & Hks & Hss).
    assert (s' = s) by congruence. subst s'.
    assert (Hsne : s <> []).
    { intros E. subst s. apply Permutation_sym, Permutation_nil in Hperm.
      congruence. }
    destruct (partition_spec (threshold_of (period h)) k s Hsne Hks)
      as (streaks' & Hpart & Hcat & Hnon & Hch & Hsep).
    assert (streaks' = streaks) by congruence. subst streaks'.
    exists k, s. repeat split; auto. congruence.
Qed.

Lemma calculate_streak_duration_of_kind (k : bool) (streak : list completion) :
  of_kind k streak -> exists d, calculate_streak_duration streak = Ok d.
Proof.
  destruct streak as [|first rest]; intros Hk; [simpl; eauto|].
  unfold calculate_streak_duration.
  assert (Hin : In (last (first :: rest) first) (first :: rest))
    by (apply last_in; discriminate).
  unfold of_kind in Hk. rewrite Forall_forall in Hk.
  destruct (completion_sub_ok (last (first :: rest) first) first) as [delta Hd].
  - rewrite (Hk _ Hin). symmetry. apply Hk. now left.
  - rewrite Hd. simpl. eauto.
Qed.

(** X2: when the completions are well-formed dates or timestamps, every
    streak that [track_streaks] returns is non-empty and
    [calculate_streak_duration] returns on it a duration of at least one
    day. *)
Theorem streaks_last_at_least_one_day (h : Habit)
        (streaks : list (list completion)) :
  Forall (fun c => valid_completionb c = true) (completions h) ->
  value (track_streaks h) = Ok streaks ->
  Forall (fun streak =>
            streak <> [] /\
            exists d, calculate_streak_duration streak = Ok d /\ 1 <= d)
         streaks.
Proof.
  intros Hv H. apply track_streaks_returns in H.
  destruct H as [_ [[_ ->]|(k & s & _ & _ & _ & Hperm & Hks & Hss & Hcat & Hnon
                               & _ & _)]]; [constructor|].
  assert (Hvs : Forall (fun c => valid_completionb c = true) s)
    by (eapply Permutation_Forall; eauto).
  rewrite <- Hcat in Hvs, Hss.
  apply StronglySorted_concat in Hss.
  apply Forall_concat in Hvs.
  rewrite Forall_forall in *. intros streak Hin.
  specialize (Hnon _ Hin). specialize (Hss _ Hin). specialize (Hvs _ Hin).
  destruct streak as [|first rest]; [congruence|].
  split; [discriminate|].
  assert (Hl : In (last (first :: rest) first) (first :: rest))
    by (apply last_in; discriminate).
  assert (Hna : not_after first (last (first :: rest) first)).
  { inversion Hss as [|? ? _ Hall]; subst. destruct Hl as [<-|Hl].
    - apply not_after_refl.
    - rewrite Forall_forall in Hall. now apply Hall. }
  rewrite Forall_forall in Hvs.
  destruct (not_after_days_nonneg first (last (first :: rest) first))
    as (delta & Hd & Hpos); auto.
  - apply Hvs. now left.
  - unfold calculate_streak_duration. rewrite Hd. cbn [rbind].
    eexists. split; [reflexivity|lia].
Qed.

Lemma streaks_last_at_least_one_day_witness :
  Forall (fun streak =>
            streak <> [] /\
            exists d, calculate_streak_duration streak = Ok d /\ 1 <= d)
         [[CDateTime (may_at 1 23 0); CDateTime (may_at 2 1 0)];
          [CDateTime (may_at 9 8 0)]].
Proof.
  apply (streaks_last_at_least_one_day
           (a_habit "daily" [CDateTime (may_at 9 8 0); CDateTime (may_at 2 1 0);
                             CDateTime (may_at 1 23 0)])).
  - repeat constructor.
  - reflexivity.
Defined.

(** ** [max], [min] and [sum] with a key *)

Section Extremum.

Context {A : Type} (key : A -> result Z).

Lemma py_best_greatest (l : list A) :
  forall best best_key r,
    key best = Ok best_key ->
    py_best is_greater key best best_key l = Ok r ->
    In r (best :: l) /\
    exists kr, key r = Ok kr /\ best_key <= kr /\
               forall x, In x l -> exists kx, key x = Ok kx /\ kx <= kr.
Proof.
  induction l as [|x l IH]; intros best kb r Hb; simpl.
  - intros H. injection H as <-. split; [now left|].
    exists kb. repeat split; auto; try lia; try (intros ? []).
  - destruct (key x) as [kx|e] eqn:Hx; cbn [rbind]; [|discriminate].
    unfold is_greater at 1. destruct (kb <? kx) eqn:Hlt; intros H.
    + apply Z.ltb_lt in Hlt.
      destruct (IH x kx r Hx H) as (Hin & kr & Hr & Hle & Hall).
      split; [destruct Hin; auto|].
      exists kr. repeat split; auto; try lia.
      intros y [<-|Hy]; [exists kx; split; auto|now apply Hall].
    + apply Z.ltb_ge in Hlt.
      destruct (IH best kb r Hb H) as (Hin & kr & Hr & Hle & Hall).
      split; [destruct Hin; auto|].
      exists kr. repeat split; auto.
      intros y [<-|Hy]; [exists kx; split; auto; lia|now apply Hall].
Qed.

Lemma py_best_least (l : list A) :
  forall best best_key r,
    key best = Ok best_key ->
    py_best is_smaller key best best_key l = Ok r ->
    In r (best :: l) /\
    exists kr, key r = Ok kr /\ kr <= best_key /\
               forall x, In x l -> exists kx, key x = Ok kx /\ kr <= kx.
Proof.
  induction l as [|x l IH]; intros best kb r Hb; simpl.
  - intros H. injection H as <-. split; [now left|].
    exists kb. repeat split; auto; try lia; try (intros ? []).
  - destruct (key x) as [kx|e] eqn:Hx; cbn [rbind]; [|discriminate].
    unfold is_smaller at 1. destruct (kx <? kb) eqn:Hlt; intros H.
    + apply Z.ltb_lt in Hlt.
      destruct (IH x kx r Hx H) as (Hin & kr & Hr & Hle & Hall).
      split; [destruct Hin; auto|].
      exists kr. repeat split; auto; try lia.
      intros y [<-|Hy]; [exists kx; split; auto|now apply Hall].
    + apply Z.ltb_ge in Hlt.
      destruct (IH best kb r Hb H) as (Hin & kr & Hr & Hle & Hall).
      split; [destruct Hin; auto|].
      exists kr. repeat split; auto.
      intros y [<-|Hy]; [exists kx; split; auto; lia|now apply Hall].
Qed.

Lemma py_best_returns (better : Z -> Z -> bool) (l : list A) :
  forall best best_key,
    Forall (fun x => exists k, key x = Ok k) l ->
    exists r, py_best better key best best_key l = Ok r.
Proof.
  induction l as [|x l IH]; intros best kb H; simpl; [eauto|].
  inversion H as [|? ? [kx Hx] Hl]; subst. rewrite Hx. cbn [rbind].
  destruct (better kx kb); apply IH; exact Hl.
Qed.

(** On a non-empty list whose keys all evaluate, [max] returns an element
    with the greatest key. *)
Lemma py_max_greatest (default : option A) (l : list A) :
  l <> [] -> Forall (fun x => exists k, key x = Ok k) l ->
  exists r kr,
    py_max key default l = Ok r /\ In r l /\ key r = Ok kr /\
    forall x, In x l -> exists kx, key x = Ok kx /\ kx <= kr.
Proof.
  destruct l as [|x l]; [congruence|]. intros _ H.
  inversion H as [|? ? [kx Hx] Hl]; subst.
  unfold py_max, py_extremum. rewrite Hx. cbn [rbind].
  destruct (py_best_returns is_greater l x kx Hl) as [r Hr].
  destruct (py_best_greatest l x kx r Hx Hr) as (Hin & kr & Hkr & Hle & Hall).
  exists r, kr. repeat split; auto.
  intros y [<-|Hy]; [exists kx; split; auto|now apply Hall].
Qed.

Lemma py_min_least (default : option A) (l : list A) :
  l <> [] -> Forall (fun x => exists k, key x = Ok k) l ->
  exists r kr,
    py_min key default l = Ok r /\ In r l /\ key r = Ok kr /\
    forall x, In x l -> exists kx, key x = Ok kx /\ kr <= kx.
Proof.
  destruct l as [|x l]; [congruence|]. intros _ H.
  inversion H as [|? ? [kx Hx] Hl]; subst.
  unfold py_min, py_extremum. rewrite Hx. cbn [rbind].
  destruct (py_best_returns is_smaller l x kx Hl) as [r Hr].
  destruct (py_best_least l x kx r Hx Hr) as (Hin & kr & Hkr & Hle & Hall).
  exists r, kr. repeat split; auto.
  intros y [<-|Hy]; [exists kx; split; auto|now apply Hall].
Qed.

(** The sum lies between [n] times a lower and [n] times an upper bound
    of the keys. *)
Lemma py_sum_bounds (lo hi : Z) (l : list A) :
  forall acc,
    (forall x, In x l -> exists kx, key x = Ok kx /\ lo <= kx <= hi) ->
    exists total,
      py_sum key acc l = Ok total /\
      acc + Z.of_nat (List.length l) * lo <= total
      <= acc + Z.of_nat (List.length l) * hi.
Proof.
  induction l as [|x l IH]; intros acc H.
  - exists acc. simpl. split; [reflexivity|lia].
  - destruct (H x (or_introl eq_refl)) as (kx & Hx & Hb).
    destruct (IH (acc + kx)) as (total & Ht & Hbt).
    { intros y Hy. apply H. now right. }
    exists total. cbn [py_sum]. rewrite Hx. cbn [rbind].
    split; [exact Ht|]. cbn [List.length]. lia.
Qed.

End Extremum.

(** Every streak that [track_streaks] returns has a duration. *)
Lemma returned_streaks_have_durations (h : Habit)
      (streaks : list (list completion)) :
  value (track_streaks h) = Ok streaks ->
  Forall (fun st => exists d, calculate_streak_duration st = Ok d) streaks.
Proof.
  intros H. apply track_streaks_returns in H.
  destruct H as [_ [[_ ->]|(k & s & _ & _ & _ & _ & Hks & _ & Hcat & _)]];
    [constructor|].
  rewrite <- Hcat in Hks. apply of_kind_concat_inv in Hks.
  eapply Forall_impl; [|exact Hks].
  intros st. apply calculate_streak_duration_of_kind.
Qed.

(** X3: whenever [track_streaks] returns at least one streak, the three
    metrics return too, the shortest and the longest duration are the
    smallest and the largest of the streak durations, and the average lies
    between them. *)
Theorem shortest_average_longest_are_ordered (h : Habit)
        (streaks : list (list completion)) :
  value (track_streaks h) = Ok streaks -> streaks <> [] ->
  exists shortest average longest,
    value (find_shortest_streak h) = Ok shortest /\
    value (calculate_average_streak_duration h) = Ok average /\
    value (find_longest_streak h) = Ok longest /\
    (inject_Z shortest <= average)%Q /\ (average <= inject_Z longest)%Q /\
    Forall (fun st => exists d, calculate_streak_duration st = Ok d /\
                                shortest <= d <= longest) streaks /\
    Exists (fun st => calculate_streak_duration st = Ok shortest) streaks /\
    Exists (fun st => calculate_streak_duration st = Ok longest) streaks.
Proof.
  intros Ht Hne.
  pose proof (returned_streaks_have_durations h streaks Ht) as Hdur.
  destruct (py_max_greatest calculate_streak_duration (Some []) streaks Hne Hdur)
    as (rl & longest & Hmax & Hinl & Hkl & Hall_l).
  destruct (py_min_least calculate_streak_duration (Some []) streaks Hne Hdur)
    as (rs & shortest & Hmin & Hins & Hks & Hall_s).
  assert (Hbounds : forall st, In st streaks ->
            exists d, calculate_streak_duration st = Ok d /\
                      shortest <= d <= longest).
  { intros st Hin. destruct (Hall_l st Hin) as (d & Hd & Hle).
    destruct (Hall_s st Hin) as (d' & Hd' & Hge).
    assert (d' = d) by congruence. subst d'.
    exists d. split; [exact Hd|]. split; [exact Hge|exact Hle]. }
  destruct (py_sum_bounds calculate_streak_duration shortest longest streaks 0
              Hbounds) as (total & Hsum & Hlo & Hhi).
  assert (Hn : 0 < Z.of_nat (List.length streaks))
    by (destruct streaks; [congruence|cbn [List.length]; lia]).
  exists shortest,
         (Qmake total (Z.to_pos (Z.of_nat (List.length streaks)))), longest.
  repeat split.
  - rewrite find_shortest_streak_value, Ht. cbn [rbind].
    rewrite Hmin. cbn [rbind]. exact Hks.
  - rewrite calculate_average_streak_duration_value, Ht. cbn [rbind].
    rewrite Hsum. cbn [rbind]. apply Z.ltb_lt in Hn. now rewrite Hn.
  - rewrite find_longest_streak_value, Ht. cbn [rbind].
    rewrite Hmax. cbn [rbind]. exact Hkl.
  - unfold Qle, inject_Z. cbn [Qnum Qden]. rewrite Z2Pos.id by exact Hn. lia.
  - unfold Qle, inject_Z. cbn [Qnum Qden]. rewrite Z2Pos.id by exact Hn. lia.
  - apply Forall_forall. exact Hbounds.
  - apply Exists_exists. eauto.
  - apply Exists_exists. eauto.
Qed.

Lemma shortest_average_longest_are_ordered_witness :
  exists shortest average longest,
    value (find_shortest_streak
             (a_habit "daily" [CDate (may 1); CDate (may 2); CDate (may 5)]))
    = Ok shortest /\
    value (calculate_average_streak_duration
             (a_habit "daily" [CDate (may 1); CDate (may 2); CDate (may 5)]))
    = Ok average /\
    value (find_longest_streak
             (a_habit "daily" [CDate (may 1); CDate (may 2); CDate (may 5)]))
    = Ok longest /\
    (inject_Z shortest <= average)%Q /\ (average <= inject_Z longest)%Q.
Proof.
  destruct (shortest_average_longest_are_ordered
              (a_habit "daily" [CDate (may 1); CDate (may 2); CDate (may 5)])
              [[CDate (may 1); CDate (may 2)]; [CDate (may 5)]])
    as (s & a & l & H1 & H2 & H3 & H4 & H5 & _).
  - reflexivity.
  - discriminate.
  - exists s, a, l. auto.
Defined.

(** ** Streaks of dates *)

Lemma NoDup_concat_inv {A} (ss : list (list A)) :
  NoDup (List.concat ss) -> Forall (@NoDup A) ss.
Proof.
  induction ss as [|s ss IH]; simpl; intros H; [constructor|].
  constructor.
  - eapply NoDup_app_remove_r; eauto.
  - apply IH. eapply NoDup_app_remove_l; eauto.
Qed.

(** Two different dates in sorted order and at most one day apart are
    exactly one day apart. *)
Lemma next_day_of_dates (a b : completion) :
  is_date a = true -> is_date b = true ->
  valid_completionb a = true -> valid_completionb b = true ->
  not_after a b -> a <> b -> within 1 a b -> days_after 1 a b.
Proof.
  destruct a as [x|x], b as [y|y]; try discriminate. intros _ _ Vx Vy.
  unfold not_after. simpl in *. intros Hna Hne (delta & Hd & Hle).
  injection Hna as Hna. injection Hd as <-.
  unfold date_sub in Hle. fold (timedelta_days (toordinal y - toordinal x)) in Hle.
  rewrite days_timedelta_days in Hle.
  assert (Hlt : date_lt x y = true).
  { destruct (date_lt x y) eqn:E; [reflexivity|].
    assert (date_key x = date_key y) by (apply lex_lt_total; auto).
    assert (x = y) by now apply date_key_inj. congruence. }
  pose proof (date_lt_toordinal x y Vx Vy Hlt).
  unfold days_after. cbn [days_afterb]. rewrite Vx, Vy. cbn [andb].
  apply Z.eqb_eq. lia.
Qed.

Lemma chain_of_next_days (l : list completion) :
  of_kind true l -> Forall (fun c => valid_completionb c = true) l ->
  StronglySorted not_after l -> NoDup l -> chain (within 1) l ->
  chain (days_after 1) l.
Proof.
  intros Hk Hv Hs Hn Hc.
  induction Hc as [|a|a b l Hab Hch IH]; [constructor|constructor|].
  inversion Hk as [|? ? Ka Hk']; subst. inversion Hk' as [|? ? Kb _]; subst.
  inversion Hv as [|? ? Va Hv']; subst. inversion Hv' as [|? ? Vb _]; subst.
  inversion Hs as [|? ? Hs' Ha]; subst. inversion Ha as [|? ? Hna _]; subst.
  inversion Hn as [|? ? Hnin Hn']; subst.
  constructor; [|now apply IH].
  apply next_day_of_dates; auto.
  intros ->. apply Hnin. now left.
Qed.

Lemma duration_of_consecutive_days (l : list completion) :
  l <> [] -> chain (days_after 1) l ->
  calculate_streak_duration l = Ok (Z.of_nat (List.length l)).
Proof.
  destruct l as [|a [|b rest]]; intros Hne Hch; [congruence| |].
  - destruct (completion_sub_self a) as (delta & Hd & H0).
    simpl. rewrite Hd. simpl. now rewrite H0.
  - replace (Z.of_nat (List.length (a :: b :: rest)))
      with (Z.of_nat (S (List.length rest)) + 1)
      by (cbn [List.length]; lia).
    apply calculate_streak_duration_span.
    change (last (a :: b :: rest) a) with (last (b :: rest) a).
    now apply chain_days_after_span.
Qed.

(** X4: for a daily habit that holds distinct well-formed dates, every
    streak is a run of consecutive days and its duration is the number of
    completions in it. *)
Theorem daily_streak_duration_counts_its_dates (h : Habit)
        (streaks : list (list completion)) :
  period h = "daily"%string ->
  of_kind true (completions h) ->
  Forall (fun c => valid_completionb c = true) (completions h) ->
  NoDup (completions h) ->
  value (track_streaks h) = Ok streaks ->
  Forall (fun streak =>
            chain (days_after 1) streak /\
            calculate_streak_duration streak
            = Ok (Z.of_nat (List.length streak))) streaks.
Proof.
  intros Hp Hk Hv Hn H. apply track_streaks_returns in H.
  destruct H as [_ [[_ ->]|(k & s & _ & _ & _ & Hperm & _ & Hss & Hcat & Hnon
                               & Hch & _)]]; [constructor|].
  assert (Hks : Forall (of_kind true) streaks).
  { apply of_kind_concat_inv. rewrite Hcat.
    unfold of_kind in *. eapply Permutation_Forall; eauto. }
  assert (Hvs : Forall (Forall (fun c => valid_completionb c = true)) streaks).
  { apply Forall_concat. rewrite Hcat. eapply Permutation_Forall; eauto. }
  assert (Hns : Forall (@NoDup completion) streaks).
  { apply NoDup_concat_inv. rewrite Hcat. eapply Permutation_NoDup; eauto. }
  rewrite <- Hcat in Hss. apply StronglySorted_concat in Hss.
  unfold threshold_of in Hch. rewrite Hp in Hch.
  cbn [String.eqb Ascii.eqb Bool.eqb] in Hch.
  rewrite Forall_forall in *. intros st Hin.
  assert (Hc : chain (days_after 1) st)
    by (apply chain_of_next_days; auto).
  split; [exact Hc|]. apply duration_of_consecutive_days; auto.
Qed.

Lemma daily_streak_duration_counts_its_dates_witness :
  Forall (fun streak =>
            chain (days_after 1) streak /\
            calculate_streak_duration streak
            = Ok (Z.of_nat (List.length streak)))
         [[CDate (may 1); CDate (may 2)]; [CDate (may 5)]].
Proof.
  apply (daily_streak_duration_counts_its_dates
           (a_habit "daily" [CDate (may 5); CDate (may 1); CDate (may 2)])).
  - reflexivity.
  - repeat constructor.
  - repeat constructor.
  - repeat constructor; simpl; intuition discriminate.
  - reflexivity.
Defined.

(** ** [get_streak] against the streaks *)

(** The difference of two dates passes both tests or neither. *)
Lemma date_tests_agree (threshold : Z) (a b : completion) (delta : timedelta) :
  is_date a = true -> is_date b = true ->
  completion_sub b a = Ok delta ->
  timedelta_le delta (timedelta_days threshold) = (days delta <=? threshold).
Proof.
  destruct a as [x|x], b as [y|y]; try discriminate. intros _ _ H.
  simpl in H. injection H as <-. unfold date_sub.
  fold (timedelta_days (toordinal y - toordinal x)).
  now rewrite timedelta_le_days, days_timedelta_days.
Qed.

(** On dates the loop of [get_streak] follows the partition: the largest
    counter is one less than the largest streak. *)
Lemma get_streak_loop_runs (threshold : Z) (rest : list completion) :
  forall prev streak max_streak c ss,
    of_kind true (prev :: rest) ->
    runs threshold prev rest = Ok (c, ss) ->
    exists r,
      get_streak_loop (timedelta_days threshold) prev rest streak max_streak
      = Ok r /\
      Z.max (snd r) (fst r)
      = fold_right Z.max (Z.max max_streak (streak + Z.of_nat (List.length c)))
          (map (fun s => Z.of_nat (List.length s) - 1) ss).
Proof.
  induction rest as [|cur rest IH]; intros prev streak mx c ss Hk; simpl.
  - intros H. injection H as <- <-. eexists. split; [reflexivity|].
    simpl. f_equal. lia.
  - inversion Hk as [|? ? Kp Hk']; subst. inversion Hk' as [|? ? Kc _]; subst.
    destruct (completion_sub cur prev) as [delta|e] eqn:Hd; cbn [rbind];
      [|discriminate].
    rewrite (date_tests_agree threshold prev cur delta Kp Kc Hd).
    destruct (runs threshold cur rest) as [[c' ss']|e] eqn:Hr; cbn [rbind];
      [|discriminate].
    destruct (days delta <=? threshold); intros H; injection H as <- <-.
    + destruct (IH cur (streak + 1) mx c' ss' Hk' Hr) as (r & Hl & Hm).
      exists r. split; [exact Hl|]. rewrite Hm. cbn [fst snd List.length].
      do 2 f_equal. lia.
    + destruct (IH cur 0 (Z.max mx streak) c' ss' Hk' Hr) as (r & Hl & Hm).
      exists r. split; [exact Hl|]. rewrite Hm. cbn [fst snd List.length map].
      cbn [fold_right]. rewrite !fold_max_base. lia.
Qed.

(** X5: for a habit that holds dates, with a valid period and at least one
    completion, [get_streak] is one less than the number of completions of
    the largest streak that [track_streaks] returns. *)
Theorem get_streak_is_largest_streak_size_minus_one (h : Habit)
        (streaks : list (list completion)) :
  of_kind true (completions h) ->
  value (track_streaks h) = Ok streaks -> streaks <> [] ->
  exists k,
    get_streak h = Ok k /\
    Forall (fun s => Z.of_nat (List.length s) - 1 <= k) streaks /\
    Exists (fun s => Z.of_nat (List.length s) - 1 = k) streaks.
Proof.
  intros Hk Ht Hne.
  destruct (track_streaks_returns h streaks Ht)
    as [Hp [[_ ->]|(k0 & s & Hcne & _ & Hs & Hperm & _)]]; [congruence|].
  assert (Hks : of_kind true s)
    by (unfold of_kind in *; eapply Permutation_Forall; eauto).
  rewrite (track_streaks_value h s Hp Hcne Hs) in Ht.
  destruct s as [|first rest]; [discriminate|].
  rewrite partition_runs in Ht.
  destruct (runs (threshold_of (period h)) first rest) as [[c ss]|e] eqn:Hr;
    [|discriminate].
  cbn [rbind fst snd] in Ht. injection Ht as <-.
  destruct (get_streak_loop_runs (threshold_of (period h)) rest first 0 0 c ss
              Hks Hr) as (r & Hl & Hm).
  exists (Z.max (snd r) (fst r)). split.
  - unfold get_streak. rewrite Hs. cbn [rbind].
    replace (gap_of (period h)) with (timedelta_days (threshold_of (period h)))
      by (unfold gap_of, threshold_of; reflexivity).
    rewrite Hl. reflexivity.
  - rewrite Hm.
    replace (Z.max 0 (0 + Z.of_nat (List.length c)))
      with (Z.of_nat (List.length (first :: c)) - 1)
      by (cbn [List.length]; lia).
    set (f := fun s : list completion => Z.of_nat (List.length s) - 1).
    destruct (fold_max_spec (map f ss) (f (first :: c))) as (Hb & Hall & Hat).
    fold (f (first :: c)). split.
    + constructor; [exact Hb|].
      apply Forall_forall. intros x Hx. rewrite Forall_forall in Hall.
      apply (Hall (f x)). now apply in_map.
    + destruct Hat as [E|Hin].
      * apply Exists_cons_hd. now rewrite E.
      * apply Exists_cons_tl. apply in_map_iff in Hin.
        destruct Hin as (x & Hx & Hin). apply Exists_exists. eauto.
Qed.

Lemma get_streak_is_largest_streak_size_minus_one_witness :
  exists k,
    get_streak (a_habit "weekly"
                  [CDate (may 1); CDate (may 8); CDate (may 15); CDate (may 30)])
    = Ok k /\
    Forall (fun s => Z.of_nat (List.length s) - 1 <= k)
           [[CDate (may 1); CDate (may 8); CDate (may 15)]; [CDate (may 30)]] /\
    Exists (fun s => Z.of_nat (List.length s) - 1 = k)
           [[CDate (may 1); CDate (may 8); CDate (may 15)]; [CDate (may 30)]].
Proof.
  apply (get_streak_is_largest_streak_size_minus_one
           (a_habit "weekly"
              [CDate (may 1); CDate (may 8); CDate (may 15); CDate (may 30)])).
  - repeat constructor.
  - reflexivity.
  - discriminate.
Defined.

(** ** [complete] on timestamps and on dates *)

Lemma today_in_calendar_days (now : datetime) (cs : list completion) :
  of_kind false cs ->
  existsb (fun c => match c with
                    | CDateTime t => date_eqb (dt_date now) (dt_date t)
                    | CDate _ => false
                    end) cs = true <->
  In (dt_date now) (map calendar_day cs).
Proof.
  intros Hk. rewrite existsb_exists, in_map_iff. split.
  - intros ([d|t] & Hin & Ht); [discriminate|].
    apply date_eqb_eq in Ht. exists (CDateTime t). auto.
  - intros (c & Hc & Hin). exists c. split; [exact Hin|].
    unfold of_kind in Hk. rewrite Forall_forall in Hk.
    specialize (Hk c Hin). destruct c as [d|t]; [discriminate|].
    simpl in Hc. rewrite Hc. apply date_eqb_refl.
Qed.

(** X6: on a habit that holds timestamps only, on pairwise different
    calendar days, [complete] returns and keeps it so: the list still
    holds timestamps only, still on pairwise different days, one of them
    the current day; it is the old list or the old list with the current
    instant appended, and a second call on the same day changes nothing. *)
Theorem complete_keeps_one_timestamp_per_day (now : datetime) (h : Habit) :
  of_kind false (completions h) ->
  NoDup (map calendar_day (completions h)) ->
  exists out h',
    complete now h = Ok (out, h') /\
    name h' = name h /\ period h' = period h /\
    of_kind false (completions h') /\
    NoDup (map calendar_day (completions h')) /\
    In (dt_date now) (map calendar_day (completions h')) /\
    (completions h' = completions h \/
     completions h' = completions h ++ [CDateTime now]) /\
    forall later, dt_date later = dt_date now ->
                  complete later h'
                  = Ok (["Habit already completed for today."%string], h').
Proof.
  intros Hk Hn.
  pose proof (today_in_calendar_days now (completions h) Hk) as Htoday.
  assert (Hret : exists out h',
             complete now h = Ok (out, h') /\
             name h' = name h /\ period h' = period h /\
             of_kind false (completions h') /\
             NoDup (map calendar_day (completions h')) /\
             In (dt_date now) (map calendar_day (completions h')) /\
             (completions h' = completions h \/
              completions h' = completions h ++ [CDateTime now])).
  { unfold complete, bind, get_completions, lift, set_completions, ret.
    rewrite any_completed_on_datetimes by exact Hk.
    destruct (existsb _ (completions h)) eqn:He.
    - do 2 eexists. split; [reflexivity|].
      repeat split; auto. now apply Htoday.
    - do 2 eexists. split; [reflexivity|]. cbn [with_completions completions
                                                 name period].
      repeat split; auto.
      + apply Forall_app. split; [exact Hk|]. repeat constructor.
      + rewrite map_app. cbn [map calendar_day].
        apply NoDup_app; [exact Hn|repeat constructor; intros []|].
        intros d Hd [<-|[]]. apply Htoday in Hd. congruence.
      + rewrite map_app. apply in_or_app. right. now left. }
  destruct Hret as (out & h' & Hc & Hname & Hper & Hk' & Hn' & Hin & Hcs).
  exists out, h'. repeat split; auto.
  intros later Hlater.
  destruct (complete_on_timestamps now h Hk) as (_ & _ & Hagain).
  now apply (Hagain out h' later Hc Hlater).
Qed.

Lemma complete_keeps_one_timestamp_per_day_witness :
  exists out h',
    complete (may_at 3 20 15)
             (a_habit "daily" [CDateTime (may_at 1 9 0); CDateTime (may_at 2 7 30)])
    = Ok (out, h') /\
    NoDup (map calendar_day (completions h')) /\
    In (may 3) (map calendar_day (completions h')).
Proof.
  destruct (complete_keeps_one_timestamp_per_day (may_at 3 20 15)
              (a_habit "daily"
                 [CDateTime (may_at 1 9 0); CDateTime (may_at 2 7 30)]))
    as (out & h' & H1 & _ & _ & _ & H2 & H3 & _).
  - repeat constructor.
  - repeat constructor; simpl; intuition discriminate.
  - exists out, h'. auto.
Defined.

Lemma any_completed_on_raises (today : date) (cs : list completion) (e : exn) :
  any_completed_on today cs = Raise e <->
  e = AttributeError /\
  exists before d after,
    cs = before ++ CDate d :: after /\
    Forall (fun c => exists t, c = CDateTime t /\ dt_date t <> today) before.
Proof.
  induction cs as [|c cs IH]; simpl.
  - split; [discriminate|]. intros (_ & [|? ?] & d & after & H & _); discriminate.
  - destruct c as [d|t].
    + split.
      * intros H. injection H as <-. split; [reflexivity|].
        exists [], d, cs. split; [reflexivity|constructor].
      * intros (-> & _). reflexivity.
    + destruct (date_eqb today (dt_date t)) eqn:Et.
      * split; [discriminate|].
        intros (_ & before & d & after & H & Hall).
        destruct before as [|b before]; [discriminate|].
        injection H as <- _. inversion Hall as [|? ? (t' & E & Hne) _]; subst.
        injection E as <-. apply date_eqb_eq in Et. congruence.
      * rewrite IH. split.
        -- intros (-> & before & d & after & -> & Hall).
           split; [reflexivity|].
           exists (CDateTime t :: before), d, after. split; [reflexivity|].
           constructor; [|exact Hall]. exists t. split; [reflexivity|].
           intros E. rewrite E, date_eqb_refl in Et. discriminate.
        -- intros (-> & before & d & after & H & Hall).
           split; [reflexivity|].
           destruct before as [|b before]; [discriminate|].
           injection H as _ ->. inversion Hall; subst.
           exists before, d, after. auto.
Qed.

(** X7: [complete] raises exactly when the scan for a completion of the
    current day meets a date object before it meets a timestamp of that
    day, and what it raises is [AttributeError]; so it raises on every
    habit whose completions are dates, as habits read from a file and
    habits filled with example data are, once they have a completion. *)
Theorem complete_raises_when_it_meets_a_date :
  (forall now h e,
      complete now h = Raise e <->
      e = AttributeError /\
      exists before d after,
        completions h = before ++ CDate d :: after /\
        Forall (fun c => exists t, c = CDateTime t /\ dt_date t <> dt_date now)
               before) /\
  (forall now h,
      completions h <> [] -> of_kind true (completions h) ->
      complete now h = Raise AttributeError).
Proof.
  assert (Hiff : forall now h e,
             complete now h = Raise e <->
             any_completed_on (dt_date now) (completions h) = Raise e).
  { intros now h e. unfold complete, bind, get_completions, lift.
    destruct (any_completed_on (dt_date now) (completions h)) as [[|]|e'];
      cbn; split; intros H; try discriminate; congruence. }
  split.
  - intros now h e. rewrite Hiff. apply any_completed_on_raises.
  - intros now h Hne Hk. apply Hiff.
    destruct (completions h) as [|[d|t] cs]; [congruence|reflexivity|].
    inversion Hk; subst. discriminate.
Qed.

Lemma complete_raises_when_it_meets_a_date_witness :
  complete (may_at 9 8 0) (a_habit "weekly" [CDate (may 1); CDate (may 8)])
  = Raise AttributeError.
Proof.
  destruct complete_raises_when_it_meets_a_date as [_ H].
  apply (H (may_at 9 8 0) (a_habit "weekly" [CDate (may 1); CDate (may 8)])).
  - discriminate.
  - repeat constructor.
Defined.

(** ** [generate_example_data] *)

Lemma example_loop_appends (reference_date : date) (step : Z)
      (draw : nat -> bool) (count : nat) :
  forall i cs,
    example_loop reference_date step draw i count cs
    = cs ++ map (fun j => CDate (date_add_days reference_date
                                   (step * Z.of_nat j)))
                (filter draw (seq i count)).
Proof.
  induction count as [|count IH]; intros i cs; simpl.
  - now rewrite app_nil_r.
  - rewrite IH. destruct (draw i); simpl; [|reflexivity].
    now rewrite <- app_assoc.
Qed.

Lemma daily_example_dates (j : nat) :
  (j < 28)%nat ->
  date_add_days (mkdate 2023 5 1) (1 * Z.of_nat j) = may (1 + Z.of_nat j).
Proof.
  intros H. do 28 (destruct j as [|j]; [reflexivity|]). lia.
Qed.

Lemma weekly_example_dates (j : nat) :
  (j < 4)%nat ->
  date_add_days (mkdate 2023 5 1) (7 * Z.of_nat j) = may (1 + 7 * Z.of_nat j).
Proof.
  intros H. do 4 (destruct j as [|j]; [reflexivity|]). lia.
Qed.

Lemma may_not_after (a b : Z) :
  a <= b -> not_after (CDate (may a)) (CDate (may b)).
Proof.
  intros H. unfold not_after, may. cbn [completion_lt].
  unfold date_lt, date_key. cbn [lex_lt year month day].
  rewrite !Z.ltb_irrefl, !Z.eqb_refl. cbn [orb andb].
  rewrite andb_false_r, orb_false_r. f_equal. apply Z.ltb_ge. exact H.
Qed.

(** The days of May that the draws select, [step] days apart. *)
Lemma selected_days_ascending (step : Z) (draw : nat -> bool) (count : nat) :
  forall i,
    0 < step -> 1 + step * Z.of_nat (i + count) <= 32 ->
    let new := map (fun j => CDate (may (1 + step * Z.of_nat j)))
                   (filter draw (seq i count)) in
    Forall (fun c => exists d, c = CDate (may d) /\
                               1 + step * Z.of_nat i <= d <= 31) new /\
    StronglySorted not_after new /\ NoDup new.
Proof.
  induction count as [|count IH]; intros i Hstep Hb; cbn zeta.
  - simpl. repeat split; constructor.
  - destruct (IH (S i) Hstep) as (Hall & Hs & Hn); [lia|].
    cbn zeta in Hall, Hs, Hn. cbn [seq filter].
    destruct (draw i); cbn [map].
    + assert (Hlater : Forall (fun c => exists d, c = CDate (may d) /\
                                 1 + step * Z.of_nat i < d <= 31)
                         (map (fun j => CDate (may (1 + step * Z.of_nat j)))
                              (filter draw (seq (S i) count)))).
      { eapply Forall_impl; [|exact Hall].
        intros c (d & -> & Hd). exists d. split; [reflexivity|]. nia. }
      repeat split.
      * constructor.
        -- eexists. split; [reflexivity|]. nia.
        -- eapply Forall_impl; [|exact Hlater].
           intros c (d & -> & Hd). exists d. split; [reflexivity|]. lia.
      * constructor; [exact Hs|].
        eapply Forall_impl; [|exact Hlater].
        intros c (d & -> & Hd). apply may_not_after. lia.
      * constructor; [|exact Hn].
        intros Hin. rewrite Forall_forall in Hlater.
        destruct (Hlater _ Hin) as (d & E & Hd).
        apply (f_equal calendar_day) in E. apply (f_equal day) in E.
        unfold may in E. cbn [calendar_day day] in E. lia.
    + repeat split; auto.
      eapply Forall_impl; [|exact Hall].
      intros c (d & -> & Hd). exists d. split; [reflexivity|]. nia.
Qed.

(** What [generate_example_data] does, in closed form. *)
Lemma generate_example_data_spec (draw : nat -> bool) (h : Habit) :
  exists new,
    generate_example_data draw h
    = Ok (tt, with_completions h (completions h ++ new)) /\
    new = (if (period h =? "daily")%string
           then map (fun j => CDate (may (1 + Z.of_nat j)))
                    (filter draw (seq 0 28))
           else if (period h =? "weekly")%string
           then map (fun j => CDate (may (1 + 7 * Z.of_nat j)))
                    (filter draw (seq 0 4))
           else []) /\
    Forall (fun c => exists d, c = CDate (may d) /\ 1 <= d <= 28) new /\
    StronglySorted not_after new /\ NoDup new.
Proof.
  unfold generate_example_data, bind, get_period, get_completions,
    set_completions, ret.
  destruct ((period h =? "daily")%string) eqn:Hd;
    [|destruct ((period h =? "weekly")%string) eqn:Hw].
  - eexists. split; [|split; [reflexivity|]].
    + rewrite example_loop_appends. do 4 f_equal.
      apply map_ext_in. intros j Hj. apply filter_In in Hj.
      destruct Hj as [Hj _]. apply in_seq in Hj.
      rewrite daily_example_dates by lia. reflexivity.
    + destruct (selected_days_ascending 1 draw 28 0) as (Hall & Hs & Hn);
        [lia|simpl; lia|].
      cbn zeta in Hall, Hs, Hn.
      assert (E : map (fun j => CDate (may (1 + Z.of_nat j)))
                      (filter draw (seq 0 28))
                  = map (fun j => CDate (may (1 + 1 * Z.of_nat j)))
                        (filter draw (seq 0 28))).
      { apply map_ext. intros j. do 2 f_equal. lia. }
      rewrite E. repeat split; auto.
      apply Forall_forall. intros c Hc. apply in_map_iff in Hc.
      destruct Hc as (j & <- & Hj). apply filter_In in Hj.
      destruct Hj as [Hj _]. apply in_seq in Hj.
      eexists. split; [reflexivity|]. lia.
  - eexists. split; [|split; [reflexivity|]].
    + rewrite example_loop_appends. do 4 f_equal.
      apply map_ext_in. intros j Hj. apply filter_In in Hj.
      destruct Hj as [Hj _]. apply in_seq in Hj.
      rewrite weekly_example_dates by lia. reflexivity.
    + destruct (selected_days_ascending 7 draw 4 0) as (Hall & Hs & Hn);
        [lia|simpl; lia|].
      cbn zeta in Hall, Hs, Hn. repeat split; auto.
      apply Forall_forall. intros c Hc. apply in_map_iff in Hc.
      destruct Hc as (j & <- & Hj). apply filter_In in Hj.
      destruct Hj as [Hj _]. apply in_seq in Hj.
      eexists. split; [reflexivity|]. lia.
  - exists []. rewrite app_nil_r. repeat split; try constructor.
    unfold with_completions. destruct h; reflexivity.
Qed.

(** X8: [generate_example_data] keeps the completions already there and
    appends date objects only: for a daily habit the days 1 to 28 of May
    2023 whose draw came out true, for a weekly habit those among the 1st,
    8th, 15th and 22nd of May 2023, in ascending order and without
    repetition; for any other period it changes nothing. *)
Theorem generate_example_data_appends_days_of_may (draw : nat -> bool)
        (h : Habit) :
  exists new,
    generate_example_data draw h
    = Ok (tt, with_completions h (completions h ++ new)) /\
    new = (if (period h =? "daily")%string
           then map (fun j => CDate (may (1 + Z.of_nat j)))
                    (filter draw (seq 0 28))
           else if (period h =? "weekly")%string
           then map (fun j => CDate (may (1 + 7 * Z.of_nat j)))
                    (filter draw (seq 0 4))
           else []) /\
    Forall (fun c => exists d, c = CDate (may d) /\ 1 <= d <= 28) new /\
    StronglySorted not_after new /\ NoDup new.
Proof. apply generate_example_data_spec. Qed.


Lemma may_valid (d : Z) :
  1 <= d <= 28 -> valid_completionb (CDate (may d)) = true.
Proof.
  intros H. unfold may. cbn [valid_completionb]. unfold valid_dateb.
  cbn [year month day].
  replace (_days_in_month 2023 5) with 31 by reflexivity.
  replace (1 <=? d) with true by (symmetry; apply Z.leb_le; lia).
  replace (d <=? 31) with true by (symmetry; apply Z.leb_le; lia).
  reflexivity.
Qed.

Lemma some_draw_is_true (draw : nat -> bool) (n : nat) (f : nat -> completion) :
  (exists j, (j < n)%nat /\ draw j = true) <->
  map f (filter draw (seq 0 n)) <> [].
Proof.
  split.
  - intros (j & Hj & Ht) E.
    assert (Hin : In j (filter draw (seq 0 n)))
      by (apply filter_In; split; [apply in_seq; lia|exact Ht]).
    apply (in_map f) in Hin. rewrite E in Hin. destruct Hin.
  - intros Hne. destruct (filter draw (seq 0 n)) as [|j l] eqn:E;
      [now contradiction Hne|].
    assert (Hin : In j (filter draw (seq 0 n))) by (rewrite E; now left).
    apply filter_In in Hin. destruct Hin as [Hin Ht]. apply in_seq in Hin.
    exists j. split; [lia|exact Ht].
Qed.

(** A habit whose stored list is sorted, of well-formed completions of one
    kind: [track_streaks] returns, with a streak when there is a
    completion, and the whole list has a duration of at least 1 then. *)
Lemma sorted_habit_is_analysed (k : bool) (h : Habit) :
  period h = "daily"%string \/ period h = "weekly"%string ->
  of_kind k (completions h) ->
  Forall (fun c => valid_completionb c = true) (completions h) ->
  StronglySorted not_after (completions h) ->
  exists streaks d,
    value (track_streaks h) = Ok streaks /\
    calculate_streak_duration (completions h) = Ok d /\
    (completions h <> [] <-> streaks <> []) /\
    (completions h <> [] <-> 1 <= d).
Proof.
  intros Hp Hk Hv Hs. destruct (completions h) as [|first rest] eqn:Hc.
  - exists [], 0. split; [|split; [reflexivity|]].
    + now rewrite (track_streaks_no_completion h Hp Hc).
    + split; split; intros H; try congruence; lia.
  - assert (Hsorted : sorted (completions h) = Ok (first :: rest))
      by (rewrite Hc; apply (sorted_permutation k); auto).
    destruct (partition_spec (threshold_of (period h)) k (first :: rest))
      as (streaks & Hpart & Hcat & _); [discriminate|exact Hk|].
    assert (Hl : In (last (first :: rest) first) (first :: rest))
      by (apply last_in; discriminate).
    destruct (not_after_days_nonneg first (last (first :: rest) first))
      as (delta & Hd & Hpos).
    { inversion Hv; auto. }
    { rewrite Forall_forall in Hv. now apply Hv. }
    { inversion Hs as [|? ? _ Hfirst]; subst. destruct Hl as [<-|Hl].
      - apply not_after_refl.
      - rewrite Forall_forall in Hfirst. now apply Hfirst. }
    exists streaks, (days delta + 1). split; [|split].
    + rewrite (track_streaks_value h (first :: rest) Hp);
        [exact Hpart|congruence|exact Hsorted].
    + unfold calculate_streak_duration. rewrite Hd. reflexivity.
    + split; split; intros H; try discriminate; try lia.
      intros E. subst streaks. discriminate.
Qed.

(** X9: a new daily habit filled by [generate_example_data] can be
    analysed: [track_streaks] returns, and both it and
    [calculate_streak_duration] of the whole list give what the unit tests
    expect (at least one streak, a duration of at least 1) exactly when
    one of the 28 draws came out true. *)
Theorem seeded_habit_has_a_streak_iff_a_draw_is_true (draw : nat -> bool)
        (h h' : Habit) :
  period h = "daily"%string -> completions h = [] ->
  generate_example_data draw h = Ok (tt, h') ->
  exists streaks d,
    value (track_streaks h') = Ok streaks /\
    calculate_streak_duration (completions h') = Ok d /\
    ((exists j, (j < 28)%nat /\ draw j = true) <-> streaks <> []) /\
    ((exists j, (j < 28)%nat /\ draw j = true) <-> 1 <= d).
Proof.
  intros Hp Hc Hg.
  destruct (generate_example_data_spec draw h)
    as (new & Hg' & Hnew & Hall & Hs & Hn).
  assert (Hh' : h' = with_completions h (completions h ++ new)) by congruence.
  assert (Hcs : completions h' = new) by (rewrite Hh', Hc; reflexivity).
  assert (Hper : period h' = "daily"%string) by (rewrite Hh'; exact Hp).
  assert (Hnew' : new = map (fun j => CDate (may (1 + Z.of_nat j)))
                            (filter draw (seq 0 28))).
  { rewrite Hnew. apply String.eqb_eq in Hp. now rewrite Hp. }
  assert (Hk : of_kind true new).
  { eapply Forall_impl; [|exact Hall]. intros c (d & -> & _). reflexivity. }
  assert (Hv : Forall (fun c => valid_completionb c = true) new).
  { eapply Forall_impl; [|exact Hall]. intros c (d & -> & Hd).
    now apply may_valid. }
  destruct (sorted_habit_is_analysed true h') as (streaks & d & H1 & H2 & H3 & H4).
  - left; exact Hper.
  - now rewrite Hcs.
  - now rewrite Hcs.
  - now rewrite Hcs.
  - exists streaks, d. split; [exact H1|]. split; [exact H2|].
    rewrite Hcs in H3, H4.
    pose proof (some_draw_is_true draw 28
                  (fun j => CDate (may (1 + Z.of_nat j)))) as Hdraw.
    rewrite <- Hnew' in Hdraw.
    split; (etransitivity; [exact Hdraw|]); assumption.
Qed.

Lemma seeded_habit_has_a_streak_iff_a_draw_is_true_witness :
  exists streaks d,
    value (track_streaks
             (a_habit "daily" [CDate (may 1); CDate (may 4); CDate (may 5)]))
    = Ok streaks /\
    calculate_streak_duration [CDate (may 1); CDate (may 4); CDate (may 5)]
    = Ok d /\ streaks <> [] /\ 1 <= d.
Proof.
  destruct (seeded_habit_has_a_streak_iff_a_draw_is_true
              (fun j => Nat.eqb j 0 || Nat.eqb j 3 || Nat.eqb j 4)
              (a_habit "daily" [])
              (a_habit "daily" [CDate (may 1); CDate (may 4); CDate (may 5)]))
    as (streaks & d & H1 & H2 & H3 & H4).
  - reflexivity.
  - reflexivity.
  - reflexivity.
  - exists streaks, d. split; [exact H1|]. split; [exact H2|].
    split; [apply H3|apply H4]; exists 0%nat; split; auto; lia.
Defined.

(** ** Loading and saving *)

Lemma strptime_valid (s : string) (t : datetime) :
  strptime s = Ok t ->
  valid_date (dt_date t) /\ t = mkdatetime (dt_date t) 0 0 0 0.
Proof.
  unfold strptime. destruct (format_regex s) as [[d [|c rest]]|];
    try discriminate.
  destruct (valid_dateb d) eqn:Hv; [|discriminate].
  intros H. injection H as <-. split; [exact Hv|reflexivity].
Qed.

Lemma parse_completions_valid (l : list string) :
  forall cs,
    parse_completions l = Ok cs ->
    List.length cs = List.length l /\
    Forall (fun c => is_date c = true /\ valid_completionb c = true) cs.
Proof.
  induction l as [|s l IH]; intros cs; simpl.
  - intros H. injection H as <-. split; [reflexivity|constructor].
  - destruct (strptime s) as [t|e] eqn:Hs; cbn [rbind]; [|discriminate].
    destruct (parse_completions l) as [r|e]; cbn [rbind]; [|discriminate].
    intros H. injection H as <-. destruct (IH r eq_refl) as [Hlen Hall].
    split; [simpl; now rewrite Hlen|].
    constructor; [|exact Hall]. split; [reflexivity|].
    apply strptime_valid in Hs. apply Hs.
Qed.

(** On a valid period and completions of one kind [track_streaks] returns. *)
Lemma track_streaks_total (h : Habit) :
  period h = "daily"%string \/ period h = "weekly"%string ->
  homogeneous (completions h) = true ->
  exists streaks h', track_streaks h = Ok (streaks, h').
Proof.
  intros Hp Hh. destruct (completions h) as [|c cs] eqn:Hc.
  - rewrite (track_streaks_no_completion h Hp Hc). eauto.
  - rewrite <- Hc in *. assert (Hne : completions h <> []) by congruence.
    apply homogeneous_of_kind in Hh. destruct Hh as [k Hk].
    destruct (sorted_spec k _ Hk) as (s & Hs & Hperm & Hks & _).
    assert (Hsne : s <> []).
    { intros E. subst s. apply Permutation_sym, Permutation_nil in Hperm.
      congruence. }
    destruct (partition_spec (threshold_of (period h)) k s Hsne Hks)
      as (streaks & Hpart & _).
    rewrite track_streaks_eq, Hs by auto. cbn [rbind]. rewrite Hpart.
    cbn [rbind]. eauto.
Qed.

(** ** What [strptime] reads *)

Section Reading.

Lemma class_inv (lo hi : ascii) (s : string) (v : Z) (rest : string) :
  class lo hi s = Some (v, rest) ->
  exists c, s = String c rest /\ in_range lo hi c = true /\ v = digit_value c.
Proof.
  unfold class. destruct s as [|c s]; [discriminate|].
  destruct (in_range lo hi c) eqn:E; [|discriminate].
  intros H. injection H as <- <-. eauto.
Qed.

(** A character of a class of digits is the character of its value. *)
Lemma class_digit_inv (lo hi : ascii) (a b : Z) (s : string) (v : Z)
      (rest : string) :
  N_of_ascii lo = Z.to_N (48 + a) -> N_of_ascii hi = Z.to_N (48 + b) ->
  0 <= a -> b <= 9 ->
  class lo hi s = Some (v, rest) ->
  a <= v <= b /\ s = String (digit_char v) rest.
Proof.
  intros Hlo Hhi Ha Hb H. apply class_inv in H.
  destruct H as (c & -> & Hr & ->).
  unfold in_range in Hr. apply andb_true_iff in Hr.
  rewrite !N.leb_le, Hlo, Hhi in Hr. unfold digit_value, digit_char.
  split; [lia|]. f_equal.
  rewrite Z.mod_small by lia.
  replace (48 + (Z.of_N (N_of_ascii c) - 48)) with (Z.of_N (N_of_ascii c))
    by lia.
  rewrite N2Z.id. symmetry. apply ascii_N_embedding.
Qed.

Lemma digit_inv (s : string) (v : Z) (rest : string) :
  digit s = Some (v, rest) -> 0 <= v <= 9 /\ s = String (digit_char v) rest.
Proof.
  intros H. apply (class_digit_inv _ _ 0 9) in H; auto; try reflexivity; lia.
Qed.

Lemma lit_inv (a : ascii) (s : string) (u : unit) (rest : string) :
  lit a s = Some (u, rest) -> s = String a rest.
Proof.
  unfold lit. destruct s as [|c s]; [discriminate|].
  destruct (Ascii.eqb_spec c a) as [->|]; [|discriminate].
  intros H. injection H as _ ->. reflexivity.
Qed.

Lemma two_inv (p q : parser Z) (s : string) (v : Z) (rest : string) :
  two p q s = Some (v, rest) ->
  exists a b s1, p s = Some (a, s1) /\ q s1 = Some (b, rest) /\ v = 10 * a + b.
Proof.
  unfold two, pbind, pret.
  destruct (p s) as [[a s1]|] eqn:Hp; [|discriminate].
  destruct (q s1) as [[b s2]|] eqn:Hq; [|discriminate].
  intros H. injection H as <- <-. exists a, b, s1. auto.
Qed.

Lemma orelse_inv {A} (p q : parser A) (s : string) (r : A * string) :
  orelse p q s = Some r -> p s = Some r \/ q s = Some r.
Proof. unfold orelse. destruct (p s); intros H; [left|right]; congruence. Qed.

Lemma digit_char_mod (n : Z) : digit_char (n mod 10) = digit_char n.
Proof. unfold digit_char. now rewrite Z.mod_mod by lia. Qed.

Lemma directive_Y_inv (s : string) (y : Z) (rest : string) :
  directive_Y s = Some (y, rest) ->
  0 <= y <= 9999 /\ s = (zero_padded 4 y ++ rest)%string.
Proof.
  unfold directive_Y, pbind, pret.
  destruct (digit s) as [[a s1]|] eqn:Ha; [|discriminate].
  destruct (digit s1) as [[b s2]|] eqn:Hb; [|discriminate].
  destruct (digit s2) as [[c s3]|] eqn:Hc; [|discriminate].
  destruct (digit s3) as [[d s4]|] eqn:Hd; [|discriminate].
  intros H.
  assert (Hy : y = 1000 * a + 100 * b + 10 * c + d) by congruence.
  assert (Hr : rest = s4) by congruence. clear H. subst rest.
  apply digit_inv in Ha, Hb, Hc, Hd.
  destruct Ha as [Ba ->], Hb as [Bb ->], Hc as [Bc ->], Hd as [Bd ->].
  split; [lia|]. cbn [zero_padded String.append].
  rewrite <- (digit_char_mod (y / 10 / 10 / 10)),
          <- (digit_char_mod (y / 10 / 10)),
          <- (digit_char_mod (y / 10)), <- (digit_char_mod y).
  replace (y / 10 / 10 / 10 mod 10) with a
    by (Z.to_euclidean_division_equations; lia).
  replace (y / 10 / 10 mod 10) with b
    by (Z.to_euclidean_division_equations; lia).
  replace (y / 10 mod 10) with c
    by (Z.to_euclidean_division_equations; lia).
  replace (y mod 10) with d
    by (Z.to_euclidean_division_equations; lia).
  reflexivity.
Qed.

End Reading.

Section ReadingForms.

(** A number between 0 and 31 is one of 32 numerals. *)
Lemma small_number (v : Z) :
  0 <= v <= 31 -> exists n, v = Z.of_nat n /\ (n <= 31)%nat.
Proof. intros H. exists (Z.to_nat v). lia. Qed.

Lemma directive_m_inv (s : string) (m : Z) (rest : string) :
  directive_m s = Some (m, rest) ->
  1 <= m <= 12 /\
  exists f, In f (month_forms m) /\ s = (f ++ rest)%string.
Proof.
  unfold directive_m. intros H.
  apply orelse_inv in H. destruct H as [H|H];
    [|apply orelse_inv in H; destruct H as [H|H]].
  - apply two_inv in H. destruct H as (a & b & s1 & Ha & Hb & ->).
    apply (class_digit_inv _ _ 1 1) in Ha; [|reflexivity|reflexivity|lia|lia].
    apply (class_digit_inv _ _ 0 2) in Hb; [|reflexivity|reflexivity|lia|lia].
    destruct Ha as [Ba ->], Hb as [Bb ->]. split; [lia|].
    exists (String (digit_char a) (String (digit_char b) EmptyString)).
    split; [|reflexivity].
    assert (a = 1) by lia. subst a.
    assert (Hc : b = 0 \/ b = 1 \/ b = 2) by lia.
    destruct Hc as [-> | [-> | ->]]; vm_compute; auto.
  - apply two_inv in H. destruct H as (a & b & s1 & Ha & Hb & ->).
    apply (class_digit_inv _ _ 0 0) in Ha; [|reflexivity|reflexivity|lia|lia].
    apply (class_digit_inv _ _ 1 9) in Hb; [|reflexivity|reflexivity|lia|lia].
    destruct Ha as [Ba ->], Hb as [Bb ->]. split; [lia|].
    exists (String (digit_char a) (String (digit_char b) EmptyString)).
    split; [|reflexivity].
    assert (a = 0) by lia. subst a.
    destruct (small_number b ltac:(lia)) as (n & -> & Hn).
    do 10 (destruct n as [|n]; [try (exfalso; lia); vm_compute; auto|]).
    exfalso. lia.
  - apply (class_digit_inv _ _ 1 9) in H; [|reflexivity|reflexivity|lia|lia].
    destruct H as [B ->]. split; [lia|].
    exists (String (digit_char m) EmptyString). split; [|reflexivity].
    destruct (small_number m ltac:(lia)) as (n & -> & Hn).
    do 10 (destruct n as [|n]; [try (exfalso; lia); vm_compute; auto|]).
    exfalso. lia.
Qed.

Lemma directive_d_inv (s : string) (d : Z) (rest : string) :
  directive_d s = Some (d, rest) ->
  1 <= d <= 31 /\
  exists f, In f (day_forms d) /\ s = (f ++ rest)%string.
Proof.
  unfold directive_d. intros H.
  apply orelse_inv in H. destruct H as [H|H];
    [|apply orelse_inv in H; destruct H as [H|H];
      [|apply orelse_inv in H; destruct H as [H|H];
        [|apply orelse_inv in H; destruct H as [H|H]]]].
  - apply two_inv in H. destruct H as (a & b & s1 & Ha & Hb & ->).
    apply (class_digit_inv _ _ 3 3) in Ha; [|reflexivity|reflexivity|lia|lia].
    apply (class_digit_inv _ _ 0 1) in Hb; [|reflexivity|reflexivity|lia|lia].
    destruct Ha as [Ba ->], Hb as [Bb ->]. split; [lia|].
    exists (String (digit_char a) (String (digit_char b) EmptyString)).
    split; [|reflexivity].
    assert (a = 3) by lia. subst a.
    assert (Hc : b = 0 \/ b = 1) by lia.
    destruct Hc as [-> | ->]; vm_compute; auto.
  - apply two_inv in H. destruct H as (a & b & s1 & Ha & Hb & ->).
    apply (class_digit_inv _ _ 1 2) in Ha; [|reflexivity|reflexivity|lia|lia].
    apply digit_inv in Hb.
    destruct Ha as [Ba ->], Hb as [Bb ->]. split; [lia|].
    exists (String (digit_char a) (String (digit_char b) EmptyString)).
    split; [|reflexivity].
    destruct (small_number b ltac:(lia)) as (n & -> & Hn).
    assert (Hc : a = 1 \/ a = 2) by lia.
    destruct Hc as [-> | ->];
      do 10 (destruct n as [|n]; [try (exfalso; lia); vm_compute; auto|]);
      exfalso; lia.
  - apply two_inv in H. destruct H as (a & b & s1 & Ha & Hb & ->).
    apply (class_digit_inv _ _ 0 0) in Ha; [|reflexivity|reflexivity|lia|lia].
    apply (class_digit_inv _ _ 1 9) in Hb; [|reflexivity|reflexivity|lia|lia].
    destruct Ha as [Ba ->], Hb as [Bb ->]. split; [lia|].
    exists (String (digit_char a) (String (digit_char b) EmptyString)).
    split; [|reflexivity].
    assert (a = 0) by lia. subst a.
    destruct (small_number b ltac:(lia)) as (n & -> & Hn).
    do 10 (destruct n as [|n]; [try (exfalso; lia); vm_compute; auto|]).
    exfalso. lia.
  - apply (class_digit_inv _ _ 1 9) in H; [|reflexivity|reflexivity|lia|lia].
    destruct H as [B ->]. split; [lia|].
    exists (String (digit_char d) EmptyString). split; [|reflexivity].
    destruct (small_number d ltac:(lia)) as (n & -> & Hn).
    do 10 (destruct n as [|n]; [try (exfalso; lia); vm_compute; auto|]).
    exfalso. lia.
  - unfold pbind in H. destruct (lit " " s) as [[u s1]|] eqn:Hl; [|discriminate].
    apply lit_inv in Hl. subst s.
    apply (class_digit_inv _ _ 1 9) in H; [|reflexivity|reflexivity|lia|lia].
    destruct H as [B ->]. split; [lia|].
    exists (String " " (String (digit_char d) EmptyString)).
    split; [|reflexivity].
    destruct (small_number d ltac:(lia)) as (n & -> & Hn).
    do 10 (destruct n as [|n]; [try (exfalso; lia); vm_compute; auto|]).
    exfalso. lia.
Qed.

(** A month form followed by ["-"] is read as the month. *)
Lemma directive_m_forms (m : Z) (f rest : string) :
  1 <= m <= 12 -> In f (month_forms m) ->
  directive_m (f ++ String "-" rest)%string = Some (m, String "-" rest).
Proof.
  intros Hm.
  destruct (month_cases m Hm) as [E|[E|[E|[E|[E|[E|[E|[E|[E|[E|[E|E]]]]]]]]]]];
    subst m; cbn; intros Hin;
    repeat (destruct Hin as [<-|Hin]; [reflexivity|]); destruct Hin.
Qed.

(** A day form at the end of the text is read as the day. *)
Lemma directive_d_forms (d : Z) (f : string) :
  1 <= d <= 31 -> In f (day_forms d) ->
  directive_d f = Some (d, EmptyString).
Proof.
  intros Hd. destruct (small_number d ltac:(lia)) as (n & -> & Hn).
  do 32 (destruct n as [|n];
         [try (exfalso; lia); cbn; intros Hin;
          repeat (destruct Hin as [<-|Hin]; [reflexivity|]); destruct Hin|]).
  exfalso. lia.
Qed.

Lemma in_date_strings (s : string) (d : date) :
  In s (date_strings d) <->
  exists mf df,
    In mf (month_forms (month d)) /\ In df (day_forms (day d)) /\
    s = (zero_padded 4 (year d) ++ "-" ++ mf ++ "-" ++ df)%string.
Proof.
  unfold date_strings. rewrite in_flat_map. split.
  - intros (mf & Hm & H). apply in_map_iff in H. destruct H as (df & <- & Hd).
    eauto.
  - intros (mf & df & Hm & Hd & ->). exists mf. split; [exact Hm|].
    apply in_map_iff. eauto.
Qed.

(** [strptime] returns on the writings of the dates of the calendar, and
    on nothing else; it returns midnight of the date written. *)
Lemma strptime_reads (s : string) (t : datetime) :
  strptime s = Ok t <-> exists d, reads_as s d /\ t = mkdatetime d 0 0 0 0.
Proof.
  unfold strptime, reads_as. split.
  - destruct (format_regex s) as [[d [|c rest]]|] eqn:Hf; try discriminate.
    destruct (valid_dateb d) eqn:Hv; [|discriminate].
    intros H. injection H as <-. exists d. split; [|reflexivity].
    split; [exact Hv|]. apply in_date_strings.
    unfold format_regex, pbind, pret in Hf.
    destruct (directive_Y s) as [[y s1]|] eqn:HY; [|discriminate].
    destruct (lit "-" s1) as [[u1 s2]|] eqn:H1; [|discriminate].
    destruct (directive_m s2) as [[m s3]|] eqn:HM; [|discriminate].
    destruct (lit "-" s3) as [[u2 s4]|] eqn:H2; [|discriminate].
    destruct (directive_d s4) as [[dd s5]|] eqn:HD; [|discriminate].
    assert (Ed : d = mkdate y m dd) by congruence.
    assert (Er : s5 = EmptyString) by congruence. subst d s5.
    apply directive_Y_inv in HY. destruct HY as [_ ->].
    apply lit_inv in H1, H2. subst s1 s3.
    apply directive_m_inv in HM. destruct HM as (_ & mf & Hmf & ->).
    apply directive_d_inv in HD. destruct HD as (_ & df & Hdf & ->).
    exists mf, df. cbn [year month day]. repeat split; auto.
    rewrite append_nil_r. reflexivity.
  - intros (d & [Hv Hin] & ->). apply in_date_strings in Hin.
    destruct Hin as (mf & df & Hm & Hd & ->).
    pose proof (valid_date_bounds d Hv) as (By & Bm & Bd).
    pose proof (days_in_month_le_31 (year d) (month d)).
    unfold format_regex, pbind.
    rewrite directive_Y_zero_padded by lia. cbn [String.append lit].
    cbn [Ascii.eqb Bool.eqb].
    rewrite (directive_m_forms (month d)) by (auto; lia).
    cbn [lit Ascii.eqb Bool.eqb].
    rewrite (directive_d_forms (day d)) by (auto; lia).
    unfold pret. destruct d as [y m dd]. cbn [year month day] in *.
    unfold valid_date in Hv. now rewrite Hv.
Qed.

(** [str] of a date is a writing of it. *)
Lemma str_date_reads (d : date) : valid_date d -> reads_as (str_date d) d.
Proof.
  intros Hv. split; [exact Hv|]. apply in_date_strings.
  exists (zero_padded 2 (month d)), (zero_padded 2 (day d)).
  repeat split; now left.
Qed.

Lemma parse_completions_reads (l : list string) (cs : list completion) :
  parse_completions l = Ok cs <->
  exists ds, Forall2 reads_as l ds /\ cs = map CDate ds.
Proof.
  revert cs. induction l as [|s l IH]; intros cs; simpl.
  - split.
    + intros H. injection H as <-. exists []. split; [constructor|reflexivity].
    + intros (ds & H & ->). inversion H. reflexivity.
  - split.
    + destruct (strptime s) as [t|e] eqn:Hs; cbn [rbind]; [|discriminate].
      destruct (parse_completions l) as [r|e] eqn:Hr; cbn [rbind];
        [|discriminate].
      intros H. injection H as <-.
      apply strptime_reads in Hs. destruct Hs as (d & Hd & ->).
      destruct (proj1 (IH r) eq_refl) as (ds & Hds & ->).
      exists (d :: ds). split; [now constructor|reflexivity].
    + intros (ds & H & ->). inversion H as [|? d ? ds' Hd Hds]; subst.
      rewrite (proj2 (strptime_reads s (mkdatetime d 0 0 0 0)))
        by (exists d; auto).
      cbn [rbind].
      rewrite (proj2 (IH (map CDate ds'))) by (exists ds'; auto).
      reflexivity.
Qed.

Lemma parse_completions_unreadable (l : list string) :
  Exists (fun s => forall d, ~ reads_as s d) l <->
  parse_completions l = Raise (ValueError BadDateString).
Proof.
  induction l as [|s l IH]; simpl.
  - split; [intros H; inversion H|discriminate].
  - destruct (strptime s) as [t|e] eqn:Hs; cbn [rbind].
    + apply strptime_reads in Hs. destruct Hs as (d & Hd & ->).
      destruct (parse_completions l) as [r|e] eqn:Hr; cbn [rbind].
      * split; [|discriminate]. intros H.
        inversion H as [? ? Hbad|? ? Hbad]; subst.
        -- now destruct (Hbad d).
        -- apply IH in Hbad. discriminate.
      * split.
        -- intros _. now apply parse_completions_raise in Hr; subst.
        -- intros H. apply Exists_cons_tl. apply IH. congruence.
    + split.
      * intros _. now apply strptime_raise in Hs; subst.
      * intros _. apply Exists_cons_hd. intros d Hd.
        rewrite (proj2 (strptime_reads s (mkdatetime d 0 0 0 0))) in Hs
          by (exists d; auto).
        discriminate.
Qed.

End ReadingForms.
(** X10: for a record whose completion strings are ASCII text,
    [from_dict] builds a habit exactly when every string is a writing of a
    date of the calendar; the habit takes its name and its period from the
    record, its creation time from the clock, not from the record, and
    holds the dates written, one per string, in order; with a valid period
    it can be analysed.  [from_dict] raises exactly when some string is not
    a writing of a date, and what it raises is [ValueError]. *)
Theorem from_dict_builds_a_habit_of_dates (now : datetime) (data : habit_data) :
  Forall (fun s => ascii_text s = true) (data_completions data) ->
  (forall h,
      from_dict now data = Ok h <->
      exists ds,
        Forall2 reads_as (data_completions data) ds /\
        h = mkHabit (data_name data) (data_period data) (str_datetime now)
                    (map CDate ds)) /\
  (Exists (fun s => forall d, ~ reads_as s d) (data_completions data) <->
   from_dict now data = Raise (ValueError BadDateString)) /\
  (forall e, from_dict now data = Raise e -> e = ValueError BadDateString) /\
  (forall h,
      from_dict now data = Ok h ->
      period h = "daily"%string \/ period h = "weekly"%string ->
      exists streaks h', track_streaks h = Ok (streaks, h')).
Proof.
  intros _. unfold from_dict. split; [|split; [|split]].
  - intros h. split.
    + destruct (parse_completions (data_completions data)) as [cs|e] eqn:Hp;
        cbn [rbind]; [|discriminate].
      intros H. injection H as <-.
      apply parse_completions_reads in Hp. destruct Hp as (ds & Hds & ->).
      exists ds. split; [exact Hds|reflexivity].
    + intros (ds & Hds & ->).
      rewrite (proj2 (parse_completions_reads _ (map CDate ds)))
        by (exists ds; auto).
      reflexivity.
  - rewrite parse_completions_unreadable.
    destruct (parse_completions (data_completions data)) as [cs|e];
      cbn [rbind]; split; congruence.
  - intros e.
    destruct (parse_completions (data_completions data)) as [cs|e'] eqn:Hp;
      cbn [rbind]; [discriminate|].
    intros H. injection H as <-. now apply parse_completions_raise in Hp.
  - intros h.
    destruct (parse_completions (data_completions data)) as [cs|e] eqn:Hp;
      cbn [rbind]; [|discriminate].
    intros H Hper. injection H as <-.
    apply parse_completions_reads in Hp. destruct Hp as (ds & _ & ->).
    apply track_streaks_total; [exact Hper|].
    cbn [with_completions completions]. apply (of_kind_homogeneous true).
    apply Forall_forall. intros c Hc. apply in_map_iff in Hc.
    destruct Hc as (d & <- & _). reflexivity.
Qed.

Lemma from_dict_builds_a_habit_of_dates_witness :
  from_dict (may_at 9 8 0)
    (mkhabit_data "Reading" "daily" "2023-05-01 09:00:00"
       ["2023-5-1"%string; "2023-05- 2"%string])
  = Ok (mkHabit "Reading" "daily" (str_datetime (may_at 9 8 0))
                (map CDate [may 1; may 2])).
Proof.
  destruct (from_dict_builds_a_habit_of_dates (may_at 9 8 0)
              (mkhabit_data "Reading" "daily" "2023-05-01 09:00:00"
                 ["2023-5-1"%string; "2023-05- 2"%string])) as [H _].
  - repeat constructor.
  - apply H. exists [may 1; may 2]. split; [|reflexivity].
    constructor; [|constructor; [|constructor]];
      (split; [reflexivity|vm_compute; tauto]).
Defined.

Lemma load_loop_app (clock : nat -> datetime) (d1 d2 : list habit_data) :
  forall i hs,
    load_loop clock i (d1 ++ d2) hs
    = match load_loop clock i d1 hs with
      | (hs', None) => load_loop clock (i + List.length d1) d2 hs'
      | (hs', Some e) => (hs', Some e)
      end.
Proof.
  induction d1 as [|d d1 IH]; intros i hs; simpl.
  - now rewrite Nat.add_0_r.
  - destruct (from_dict (clock i) d) as [h|e]; [|reflexivity].
    rewrite IH. now rewrite Nat.add_succ_r.
Qed.

Lemma load_loop_saved_dates (clock : nat -> datetime) (saved : list Habit) :
  forall i hs,
    Forall holds_dates saved ->
    load_loop clock i (map habit_data_of saved) hs
    = (hs ++ reloaded_from clock i saved, None).
Proof.
  induction saved as [|h saved IH]; intros i hs Hall; simpl.
  - now rewrite app_nil_r.
  - inversion Hall as [|? ? Hh Hall']; subst.
    rewrite (saved_dates_load_back (clock i) h Hh).
    rewrite (IH (S i) _ Hall'). now rewrite <- app_assoc.
Qed.

(** X11: saving a tracker whose habits all hold well-formed dates and
    loading the file gives every habit back, in order, with its name, its
    period and its completions; only the creation time is replaced by the
    time of loading.  The habits are appended to those the tracker already
    has, and the file is left as it is. *)
Theorem save_then_load_gives_the_habits_back (clock : nat -> datetime)
        (saved t : HabitTracker) :
  Forall holds_dates (habits saved) ->
  load_from_file clock (Some (save_to_file saved)) t
  = (mkHabitTracker (habits t ++ reloaded_from clock 0 (habits saved)),
     None, Some (save_to_file saved)) /\
  save_to_file (mkHabitTracker (reloaded_from clock 0 (habits saved)))
  = map (fun ir =>
           mkhabit_data (data_name (snd ir)) (data_period (snd ir))
             (str_datetime (clock (fst ir))) (data_completions (snd ir)))
        (combine (seq 0 (List.length (habits saved))) (save_to_file saved)).
Proof.
  intros Hall. split.
  - unfold load_from_file, save_to_file.
    now rewrite (load_loop_saved_dates clock (habits saved) 0 (habits t) Hall).
  - unfold save_to_file. cbn [habits]. clear Hall.
    generalize 0%nat. induction (habits saved) as [|h hs IH]; intros i;
      [reflexivity|].
    cbn [reloaded_from map List.length seq combine fst snd].
    f_equal. apply IH.
Qed.

Lemma save_then_load_gives_the_habits_back_witness :
  load_from_file (fun _ => may_at 9 8 0)
    (Some (save_to_file
             (mkHabitTracker [a_habit "daily" [CDate (may 1); CDate (may 2)]])))
    HabitTracker_init
  = (mkHabitTracker
       [mkHabit "Reading" "daily" "2023-05-09 08:00:00"
          [CDate (may 1); CDate (may 2)]],
     None,
     Some (save_to_file
             (mkHabitTracker [a_habit "daily" [CDate (may 1); CDate (may 2)]]))).
Proof.
  apply (save_then_load_gives_the_habits_back (fun _ => may_at 9 8 0)
           (mkHabitTracker [a_habit "daily" [CDate (may 1); CDate (may 2)]])
           HabitTracker_init).
  repeat constructor.
Defined.

(** X12: [load_from_file] stops at the first record it cannot read: when
    the saved habits before it hold dates and it holds a timestamp, as a
    habit completed through [complete] does, those before it are loaded,
    [ValueError] escapes, and it and the habits saved after it are not
    loaded. *)
Theorem load_stops_at_the_first_habit_with_a_timestamp
        (clock : nat -> datetime) (before after : list Habit) (h : Habit)
        (stamp : datetime) (t : HabitTracker) :
  Forall holds_dates before ->
  In (CDateTime stamp) (completions h) -> valid_datetime stamp ->
  load_from_file clock
    (Some (save_to_file (mkHabitTracker (before ++ h :: after)))) t
  = (mkHabitTracker (habits t ++ reloaded_from clock 0 before),
     Some (ValueError BadDateString),
     Some (save_to_file (mkHabitTracker (before ++ h :: after)))).
Proof.
  intros Hall Hin Hv. unfold load_from_file, save_to_file. cbn [habits].
  rewrite map_app, load_loop_app.
  rewrite (load_loop_saved_dates clock before 0 (habits t) Hall).
  cbn [map load_loop].
  destruct (saved_datetime_does_not_load
              (clock (0 + List.length (map habit_data_of before))%nat)
              h stamp Hin Hv) as [_ Hr].
  rewrite Hr. reflexivity.
Qed.

Lemma load_stops_at_the_first_habit_with_a_timestamp_witness :
  load_from_file (fun _ => may_at 9 8 0)
    (Some (save_to_file
             (mkHabitTracker
                ([a_habit "daily" [CDate (may 1)]]
                 ++ a_habit "weekly" [CDateTime (may_at 3 7 0)]
                 :: [a_habit "daily" []]))))
    HabitTracker_init
  = (mkHabitTracker
       [mkHabit "Reading" "daily" "2023-05-09 08:00:00" [CDate (may 1)]],
     Some (ValueError BadDateString),
     Some (save_to_file
             (mkHabitTracker
                ([a_habit "daily" [CDate (may 1)]]
                 ++ a_habit "weekly" [CDateTime (may_at 3 7 0)]
                 :: [a_habit "daily" []])))).
Proof.
  apply (load_stops_at_the_first_habit_with_a_timestamp
           (fun _ => may_at 9 8 0) [a_habit "daily" [CDate (may 1)]]
           [a_habit "daily" []] (a_habit "weekly" [CDateTime (may_at 3 7 0)])
           (may_at 3 7 0) HabitTracker_init).
  - repeat constructor.
  - now left.
  - reflexivity.
Defined.

(** ** Looking habits up by name *)

Lemma get_habit_loop_some (nm : string) (l : list Habit) (h : Habit) :
  get_habit_loop nm l = Some h <->
  exists before after,
    l = before ++ h :: after /\ name h = nm /\
    Forall (fun x => name x <> nm) before.
Proof.
  induction l as [|x l IH]; simpl.
  - split; [discriminate|]. intros ([|? ?] & after & H & _); discriminate.
  - destruct (String.eqb_spec (name x) nm) as [E|E].
    + split.
      * intros H. injection H as <-. exists [], l. auto.
      * intros (before & after & H & Hn & Hall).
        destruct before as [|b before].
        -- injection H as -> _. reflexivity.
        -- injection H as <- _. inversion Hall; subst. contradiction.
    + rewrite IH. split.
      * intros (before & after & -> & Hn & Hall).
        exists (x :: before), after. repeat split; auto.
      * intros (before & after & H & Hn & Hall).
        destruct before as [|b before].
        -- injection H as -> _. contradiction.
        -- injection H as _ ->. inversion Hall; subst.
           exists before, after. auto.
Qed.

Lemma get_habit_loop_none (nm : string) (l : list Habit) :
  get_habit_loop nm l = None <-> ~ In nm (map name l).
Proof.
  induction l as [|x l IH]; simpl; [tauto|].
  destruct (String.eqb_spec (name x) nm) as [E|E].
  - split; [discriminate|]. intros H. exfalso. apply H. now left.
  - rewrite IH. tauto.
Qed.

(** X13: [get_habit] returns the first habit of the list that has the
    name, and [None] exactly when the name is not among [list_habits]. *)
Theorem get_habit_returns_the_first_habit_of_the_name (nm : string)
        (t : HabitTracker) :
  (forall h,
      get_habit nm t = Some h <->
      exists before after,
        habits t = before ++ h :: after /\ name h = nm /\
        Forall (fun x => name x <> nm) before) /\
  (get_habit nm t = None <-> ~ In nm (list_habits t)).
Proof.
  split.
  - intros h. apply get_habit_loop_some.
  - apply get_habit_loop_none.
Qed.

Lemma get_habit_loop_filter (nm other : string) (l : list Habit) :
  other <> nm ->
  get_habit_loop other (filter (fun x => negb (name x =? nm)%string) l)
  = get_habit_loop other l.
Proof.
  intros Hne. induction l as [|x l IH]; simpl; [reflexivity|].
  destruct (String.eqb_spec (name x) nm) as [E|E]; simpl.
  - destruct (String.eqb_spec (name x) other) as [E'|E']; [congruence|exact IH].
  - now rewrite IH.
Qed.

Lemma filter_absent_name (nm : string) (l : list Habit) :
  ~ In nm (map name l) ->
  filter (fun x => negb (name x =? nm)%string) l = l.
Proof.
  induction l as [|x l IH]; simpl; intros Hnot; [reflexivity|].
  destruct (String.eqb_spec (name x) nm) as [E|E]; simpl.
  - exfalso. apply Hnot. now left.
  - f_equal. apply IH. intros H. apply Hnot. now right.
Qed.

(** X14: [remove_habit] removes every habit of the name, so the name is
    no longer listed and [get_habit] returns [None] for it; the other
    habits stay, in their order, and are found as before.  Removing a name
    that is not there changes nothing. *)
Theorem remove_habit_removes_every_habit_of_the_name (nm : string)
        (t : HabitTracker) :
  get_habit nm (remove_habit nm t) = None /\
  list_habits (remove_habit nm t)
  = filter (fun x => negb (x =? nm)%string) (list_habits t) /\
  (forall other, other <> nm ->
                 get_habit other (remove_habit nm t) = get_habit other t) /\
  (~ In nm (list_habits t) -> remove_habit nm t = t).
Proof.
  assert (Hlist : list_habits (remove_habit nm t)
                  = filter (fun x => negb (x =? nm)%string) (list_habits t)).
  { unfold list_habits, remove_habit. cbn [habits].
    induction (habits t) as [|x l IH]; simpl; [reflexivity|].
    destruct (name x =? nm)%string; simpl; now rewrite IH. }
  repeat split.
  - apply get_habit_loop_none. fold (list_habits (remove_habit nm t)).
    rewrite Hlist. intros H. apply filter_In in H. destruct H as [_ H].
    now rewrite String.eqb_refl in H.
  - exact Hlist.
  - intros other Hne. now apply get_habit_loop_filter.
  - intros Hnot. unfold remove_habit.
    rewrite (filter_absent_name nm (habits t) Hnot). now destruct t.
Qed.

Lemma remove_habit_removes_every_habit_of_the_name_witness :
  remove_habit "Walk" (mkHabitTracker [a_habit "daily" []])
  = mkHabitTracker [a_habit "daily" []].
Proof.
  apply (remove_habit_removes_every_habit_of_the_name "Walk"
           (mkHabitTracker [a_habit "daily" []])).
  simpl. intros [H|[]]. discriminate H.
Defined.

Lemma get_habit_loop_app (nm : string) (l1 l2 : list Habit) :
  get_habit_loop nm (l1 ++ l2)
  = match get_habit_loop nm l1 with
    | Some h => Some h
    | None => get_habit_loop nm l2
    end.
Proof.
  induction l1 as [|x l1 IH]; simpl; [reflexivity|].
  destruct (name x =? nm)%string; [reflexivity|exact IH].
Qed.

(** X15: [add_custom_habit] appends and never replaces: the names listed
    are the old ones followed by the new one, every name that was found is
    still found as the same habit, and the new habit is found under its
    name only when the tracker had no habit of that name. *)
Theorem add_custom_habit_never_replaces (h : Habit) (t : HabitTracker) :
  list_habits (add_custom_habit h t) = list_habits t ++ [name h] /\
  (forall nm old, get_habit nm t = Some old ->
                  get_habit nm (add_custom_habit h t) = Some old) /\
  (get_habit (name h) t = None ->
   get_habit (name h) (add_custom_habit h t) = Some h) /\
  (forall nm, get_habit nm t = None -> nm <> name h ->
              get_habit nm (add_custom_habit h t) = None).
Proof.
  unfold get_habit, add_custom_habit, list_habits. cbn [habits].
  repeat split.
  - apply map_app.
  - intros nm old H. now rewrite get_habit_loop_app, H.
  - intros H. rewrite get_habit_loop_app, H. simpl.
    now rewrite String.eqb_refl.
  - intros nm H Hne. rewrite get_habit_loop_app, H. simpl.
    destruct (String.eqb_spec (name h) nm); congruence.
Qed.

Lemma add_custom_habit_never_replaces_witness :
  get_habit "Reading"
    (add_custom_habit (a_habit "weekly" [CDate (may 1)])
       (mkHabitTracker [a_habit "daily" []]))
  = Some (a_habit "daily" []).
Proof.
  destruct (add_custom_habit_never_replaces (a_habit "weekly" [CDate (may 1)])
              (mkHabitTracker [a_habit "daily" []])) as (_ & H & _).
  apply H. reflexivity.
Defined.

(** ** [start_date] *)

Lemma completion_dates_of_timestamps (cs : list completion) :
  of_kind false cs -> completion_dates cs = Ok (map calendar_day cs).
Proof.
  induction 1 as [|c cs Hc _ IH]; [reflexivity|].
  destruct c as [d|t]; [discriminate|]. simpl. now rewrite IH.
Qed.

Lemma completion_dates_with_a_date (cs : list completion) (d : date) :
  In (CDate d) cs -> completion_dates cs = Raise AttributeError.
Proof.
  induction cs as [|c cs IH]; intros H; [destruct H|].
  destruct c as [d'|t]; [reflexivity|].
  destruct H as [H|H]; [discriminate|]. simpl. now rewrite (IH H).
Qed.

Lemma date_lt_cases (a b : date) :
  date_lt a b = false -> a = b \/ date_lt b a = true.
Proof.
  intros H. destruct (date_lt b a) eqn:E; [now right|left].
  apply date_key_inj. apply lex_lt_total; auto.
Qed.

(** [date_min] returns an element that no element is smaller than. *)
Lemma date_min_least (l : list date) :
  forall best,
    In (date_min best l) (best :: l) /\
    date_lt best (date_min best l) = false /\
    forall x, In x l -> date_lt x (date_min best l) = false.
Proof.
  induction l as [|d l IH]; intros best; simpl.
  - split; [now left|]. split; [apply lex_lt_irrefl|intros x []].
  - destruct (date_lt d best) eqn:Hd.
    + destruct (IH d) as (Hin & Hle & Hall).
      split; [destruct Hin; auto|]. split.
      * destruct (date_lt best (date_min d l)) eqn:E; [|reflexivity].
        pose proof (lex_lt_trans _ _ _ Hd E) as Hc.
        unfold date_lt in Hle. congruence.
      * intros x [<-|Hx]; auto.
    + destruct (IH best) as (Hin & Hle & Hall).
      split; [destruct Hin; auto|]. split; [exact Hle|].
      intros x [Ex|Hx]; [subst x|now apply Hall].
      destruct (date_lt d (date_min best l)) eqn:E; [|reflexivity].
      destruct (date_lt_cases _ _ Hle) as [Eq|Hlt].
      * rewrite <- Eq in E. congruence.
      * pose proof (lex_lt_trans _ _ _ E Hlt) as Hc.
        unfold date_lt in Hd. congruence.
Qed.

Lemma not_after_calendar_day (a b : completion) :
  is_date a = false -> is_date b = false -> not_after a b ->
  date_lt (calendar_day b) (calendar_day a) = false.
Proof.
  destruct a as [x|x], b as [y|y]; try discriminate. intros _ _.
  unfold not_after. simpl. intros H. injection H as H.
  unfold datetime_lt, datetime_key in H.
  rewrite lex_lt_app in H by reflexivity.
  apply orb_false_iff in H. apply H.
Qed.

(** X16: [start_date] is [None] for a habit without completions; for a
    habit that holds timestamps it is the calendar day of the first
    completion of the first streak that [track_streaks] returns; and it
    raises [AttributeError] as soon as the habit holds a date object. *)
Theorem start_date_is_the_day_the_first_streak_starts (h : Habit) :
  (completions h = [] -> start_date h = Ok None) /\
  (forall first rest streaks,
      of_kind false (completions h) ->
      value (track_streaks h) = Ok ((first :: rest) :: streaks) ->
      start_date h = Ok (Some (calendar_day first))) /\
  (forall d, In (CDate d) (completions h) ->
             start_date h = Raise AttributeError).
Proof.
  split; [|split].
  - intros E. unfold start_date. now rewrite E.
  - intros first rest streaks Hk Ht.
    destruct (track_streaks_returns h _ Ht)
      as [_ [[_ E]|(k & s & Hne & _ & _ & Hperm & _ & Hss & Hcat & _)]];
      [discriminate|].
    unfold start_date. rewrite (completion_dates_of_timestamps _ Hk).
    destruct (completions h) as [|c cs] eqn:Hc; [congruence|].
    cbn [rbind map]. do 2 f_equal.
    destruct (date_min_least (map calendar_day cs) (calendar_day c))
      as (Hin & _ & Hall).
    change (calendar_day c :: map calendar_day cs)
      with (map calendar_day (c :: cs)) in Hin.
    assert (Hmin : forall x, In x (c :: cs) ->
                date_lt (calendar_day x)
                        (date_min (calendar_day c) (map calendar_day cs))
                = false).
    { intros x [<-|Hx].
      - destruct (date_min_least (map calendar_day cs) (calendar_day c))
          as (_ & H & _). exact H.
      - apply Hall. now apply in_map. }
    simpl in Hcat. subst s.
    assert (Hfirst_in : In first (c :: cs)).
    { eapply Permutation_in; [apply Permutation_sym; exact Hperm|now left]. }
    assert (Hfirst : forall x, In x (c :: cs) ->
                date_lt (calendar_day x) (calendar_day first) = false).
    { intros x Hx. unfold of_kind in Hk. rewrite Forall_forall in Hk.
      apply not_after_calendar_day; auto.
      assert (Hx' : In x (first :: rest ++ List.concat streaks))
        by (eapply Permutation_in; eauto).
      inversion Hss as [|? ? _ Hall']; subst.
      destruct Hx' as [<-|Hx']; [apply not_after_refl|].
      rewrite Forall_forall in Hall'. now apply Hall'. }
    apply in_map_iff in Hin. destruct Hin as (m & Hm & Hmin_in).
    apply date_key_inj. apply lex_lt_total; [reflexivity| |].
    + rewrite <- Hm. now apply Hfirst.
    + now apply Hmin.
  - intros d Hin. unfold start_date.
    destruct (completions h) as [|c cs] eqn:Hc; [destruct Hin|].
    now rewrite (completion_dates_with_a_date _ d Hin).
Qed.

Lemma start_date_is_the_day_the_first_streak_starts_witness :
  start_date (a_habit "daily" [CDateTime (may_at 4 7 0); CDateTime (may_at 2 9 0)])
  = Ok (Some (calendar_day (CDateTime (may_at 2 9 0)))).
Proof.
  destruct (start_date_is_the_day_the_first_streak_starts
              (a_habit "daily"
                 [CDateTime (may_at 4 7 0); CDateTime (may_at 2 9 0)]))
    as (_ & H & _).
  apply (H (CDateTime (may_at 2 9 0)) [CDateTime (may_at 4 7 0)] []).
  - repeat constructor.
  - reflexivity.
Defined.

(** ** [add_habit] *)

Section AddHabitFacts.

Variable isdigit : string -> bool.
Variable int : string -> result Z.


End AddHabitFacts.


(** ** Calling [track_streaks] again *)

(** X18: a second call of [track_streaks] returns the same streaks and
    changes nothing more: whatever reordering of the stored list the first
    call made (the weekly path sorts it in place), the habit it leaves is
    one that further calls leave as it is. *)
Theorem track_streaks_twice_is_track_streaks_once (h h' : Habit)
        (streaks : list (list completion)) :
  track_streaks h = Ok (streaks, h') ->
  track_streaks h' = Ok (streaks, h') /\
  name h' = name h /\ period h' = period h /\
  creation_time h' = creation_time h /\
  Permutation (completions h) (completions h').
Proof.
  intros H.
  assert (Hv : value (track_streaks h) = Ok streaks) by now rewrite H.
  destruct (track_streaks_returns h streaks Hv)
    as [Hp [[Hc ->]|(k & s & Hne & Hk & Hs & Hperm & Hks & Hss & _)]].
  - rewrite (track_streaks_no_completion h Hp Hc) in H.
    injection H as <-.
    rewrite (track_streaks_no_completion h Hp Hc). auto.
  - rewrite track_streaks_eq, Hs in H by auto. cbn [rbind] in H.
    destruct (partition (threshold_of (period h)) s) as [r|e] eqn:Hpart;
      [|discriminate].
    cbn [rbind] in H. injection H as <- <-.
    destruct ((period h =? "daily")%string) eqn:Hd.
    + split; [|auto].
      rewrite track_streaks_eq, Hs by auto. cbn [rbind].
      now rewrite Hpart, Hd.
    + assert (Hsne : s <> []).
      { intros E. subst s. apply Permutation_sym, Permutation_nil in Hperm.
        congruence. }
      assert (Hs' : sorted s = Ok s)
        by (apply (sorted_permutation k); auto).
      split; [|cbn; auto].
      rewrite track_streaks_eq; cbn [with_completions period completions];
        auto.
      rewrite Hs'. cbn [rbind]. rewrite Hpart, Hd. reflexivity.
Qed.

Lemma track_streaks_twice_is_track_streaks_once_witness :
  track_streaks (a_habit "weekly" [CDate (may 1); CDate (may 8)])
  = Ok ([[CDate (may 1); CDate (may 8)]],
        a_habit "weekly" [CDate (may 1); CDate (may 8)]).
Proof.
  apply (track_streaks_twice_is_track_streaks_once
           (a_habit "weekly" [CDate (may 8); CDate (may 1)])).
  reflexivity.
Defined.

(** ** Bounds of [get_streak] *)

Lemma get_streak_loop_bounds (gap : timedelta) (rest : list completion) :
  forall prev streak max_streak r,
    0 <= streak -> 0 <= max_streak ->
    get_streak_loop gap prev rest streak max_streak = Ok r ->
    0 <= fst r <= streak + Z.of_nat (List.length rest) /\
    0 <= snd r <= Z.max max_streak (streak + Z.of_nat (List.length rest)).
Proof.
  induction rest as [|cur rest IH]; intros prev streak mx r Hs Hm; simpl.
  - intros H. injection H as <-. cbn [fst snd]. lia.
  - destruct (completion_sub cur prev) as [delta|e]; cbn [rbind];
      [|discriminate].
    destruct (timedelta_le delta gap); intros H.
    + destruct (IH cur (streak + 1) mx r ltac:(lia) Hm H) as [H1 H2]. lia.
    + destruct (IH cur 0 (Z.max mx streak) r ltac:(lia) ltac:(lia) H)
        as [H1 H2]. lia.
Qed.

(** X19: on completions of one kind [get_streak] returns, whatever the
    period is, a number between 0 and the number of completions minus
    one. *)
Theorem get_streak_is_below_the_number_of_completions (h : Habit) :
  homogeneous (completions h) = true ->
  exists k,
    get_streak h = Ok k /\
    0 <= k <= Z.max 0 (Z.of_nat (List.length (completions h)) - 1).
Proof.
  intros Hh. destruct (get_streak_total h Hh) as [k Hk].
  exists k. split; [exact Hk|].
  apply homogeneous_of_kind in Hh. destruct Hh as [kd Hkd].
  destruct (sorted_spec kd _ Hkd) as (s & Hs & Hperm & _).
  apply Permutation_length in Hperm. rewrite Hperm.
  unfold get_streak in Hk. rewrite Hs in Hk. cbn [rbind] in Hk.
  destruct s as [|first rest].
  - simpl in Hk. injection Hk as <-. simpl. lia.
  - destruct (get_streak_loop (gap_of (period h)) first rest 0 0) as [r|e]
      eqn:Hl; cbn [rbind] in Hk; [|discriminate].
    injection Hk as <-.
    destruct (get_streak_loop_bounds _ rest first 0 0 r ltac:(lia) ltac:(lia) Hl)
      as [H1 H2].
    cbn [List.length]. lia.
Qed.

Lemma get_streak_is_below_the_number_of_completions_witness :
  exists k,
    get_streak (a_habit "monthly" [CDate (may 1); CDate (may 9); CDate (may 10)])
    = Ok k /\ 0 <= k <= 2.
Proof.
  apply (get_streak_is_below_the_number_of_completions
           (a_habit "monthly" [CDate (may 1); CDate (may 9); CDate (may 10)])).
  reflexivity.
Defined.
